(** * salsacsv: a shallow embedding of src/index.js and its properties

    JavaScript strings are modelled as [string] (sequences of 8-bit
    characters), arrays as lists, objects as association lists of their own
    fields in the order of creation (the prototype and the properties
    inherited from it are not part of the embedding), numbers as the sign,
    digits and exponent that [Number::toString] works on, [undefined]
    cells as [None].  The regular expressions of the
    source are embedded as the matching functions they denote, written so
    that the order of alternatives and the backtracking of the JavaScript
    matcher can be read off.  The [while] loop of the tokenizer is
    embedded with a count of its iterations, and a thrown error as a
    result of its own. *)

From Stdlib Require Import Ascii String.
From stdpp Require Import base list strings pretty.
From Equations Require Import Equations.

(** ** Characters and strings *)

Definition DQUOTE : ascii := "034"%char.
Definition LF : ascii := "010"%char.
Definition CR : ascii := "013"%char.

(** Example texts are written with an apostrophe where the JavaScript text
    has a double quote, and with [$] where it has a line feed. *)
Fixpoint js (s : string) : string :=
  match s with
  | EmptyString => EmptyString
  | String c s' =>
      String (if Ascii.eqb c "'" then DQUOTE
              else if Ascii.eqb c "$" then LF else c) (js s')
  end.

(** [str.slice(n)] *)
Fixpoint str_drop (n : nat) (s : string) : string :=
  match n, s with
  | O, _ => s
  | S n', String _ s' => str_drop n' s'
  | S _, EmptyString => EmptyString
  end.

Definition nonEmpty (s : string) : bool :=
  match s with EmptyString => false | String _ _ => true end.

(** ** csvToArray: the pattern

    The pattern has flags [gi] and three groups.  Writing ' for the double
    quote and D for the escaped delimiter, group 1 is [\D|\r?\n|\r|^], and
    it is followed by either a quoted field, ' group 2 ', where group 2 is
    [[^']*] followed by any number of [''[^']*], or by group 3, the
    unquoted field [[^'\D\r\n]*].  The delimiter is one character that the
    escape denotes literally: an ASCII character other than a letter or a
    digit (for those the escape has another meaning, or the flag [i] folds
    their case). *)

(** Group 1 at [index], looking at the text [s] from that index on: the
    alternatives in their order.  The result is the matched delimiter and
    the text after it. *)
Definition matchDelimiter (delimiter : ascii) (index : nat) (s : string)
  : option (string * string) :=
  let startOfText :=
    if Nat.eqb index 0 then Some (EmptyString, s) else None in
  match s with
  | String c s' =>
      if Ascii.eqb c delimiter then Some (String c EmptyString, s')
      else if Ascii.eqb c CR then
        match s' with
        | String c' s'' =>
            if Ascii.eqb c' LF
            then Some (String CR (String LF EmptyString), s'')
            else Some (String CR EmptyString, s')
        | EmptyString => Some (String CR EmptyString, s')
        end
      else if Ascii.eqb c LF then Some (String LF EmptyString, s')
      else startOfText
  | EmptyString => startOfText
  end.

(** Group 2 and the closing quote, after the opening quote: the captured
    text (quotes still doubled) and the text after the closing quote.  The
    matcher is greedy: a doubled quote continues the field whenever a
    closing quote follows later, and otherwise (backtracking) its first
    quote closes the field. *)
Fixpoint matchQuoted (s : string) : option (string * string) :=
  match s with
  | EmptyString => None
  | String c s' =>
      if Ascii.eqb c DQUOTE then
        match s' with
        | String c' s'' =>
            if Ascii.eqb c' DQUOTE then
              match matchQuoted s'' with
              | Some (captured, rest) =>
                  Some (String DQUOTE (String DQUOTE captured), rest)
              | None => Some (EmptyString, s')
              end
            else Some (EmptyString, s')
        | EmptyString => Some (EmptyString, s')
        end
      else
        match matchQuoted s' with
        | Some (captured, rest) => Some (String c captured, rest)
        | None => None
        end
  end.

(** The class of group 3: no double quote, delimiter, CR or LF. *)
Definition unquotedChar (delimiter c : ascii) : bool :=
  negb (Ascii.eqb c DQUOTE) && negb (Ascii.eqb c delimiter)
  && negb (Ascii.eqb c CR) && negb (Ascii.eqb c LF).

(** Group 3: the longest run of such characters, and the text after it. *)
Fixpoint matchUnquoted (delimiter : ascii) (s : string) : string * string :=
  match s with
  | EmptyString => (EmptyString, EmptyString)
  | String c s' =>
      if unquotedChar delimiter c then
        let '(value, rest) := matchUnquoted delimiter s' in
        (String c value, rest)
      else (EmptyString, s)
  end.

(** The array that [exec] returns, and the [lastIndex] it leaves. *)
Record Match := {
  matches1 : string;
  matches2 : option string;
  matches3 : option string;
  endIndex : nat
}.

(** The whole pattern at [index]. *)
Definition matchAt (delimiter : ascii) (index : nat) (s : string)
  : option Match :=
  match matchDelimiter delimiter index s with
  | None => None
  | Some (matchedDelimiter, s1) =>
      let quoted :=
        match s1 with
        | String c s2 =>
            if Ascii.eqb c DQUOTE then matchQuoted s2 else None
        | EmptyString => None
        end in
      match quoted with
      | Some (captured, rest) =>
          Some {| matches1 := matchedDelimiter;
                  matches2 := Some captured;
                  matches3 := None;
                  endIndex := index + (String.length s - String.length rest) |}
      | None =>
          let '(value, rest) := matchUnquoted delimiter s1 in
          Some {| matches1 := matchedDelimiter;
                  matches2 := None;
                  matches3 := Some value;
                  endIndex := index + (String.length s - String.length rest) |}
      end
  end.

(** The search of [exec]: the first index from [index] on, up to the end of
    the text, at which the pattern matches. *)
Fixpoint search (delimiter : ascii) (index : nat) (s : string)
  : option Match :=
  match matchAt delimiter index s with
  | Some m => Some m
  | None =>
      match s with
      | String _ s' => search delimiter (S index) s'
      | EmptyString => None
      end
  end.

(** [objPattern.exec(str)] with the pattern's [lastIndex]; on a match the
    new [lastIndex] is [endIndex], also when the match is empty. *)
Definition exec (delimiter : ascii) (str : string) (lastIndex : nat)
  : option Match :=
  if String.length str <? lastIndex then None
  else search delimiter lastIndex (str_drop lastIndex str).

(** The [replace] of the loop: each doubled quote becomes one quote, from
    left to right. *)
Fixpoint unescapeQuotes (s : string) : string :=
  match s with
  | EmptyString => EmptyString
  | String c s' =>
      if Ascii.eqb c DQUOTE then
        match s' with
        | String c' s'' =>
            if Ascii.eqb c' DQUOTE then String DQUOTE (unescapeQuotes s'')
            else String c (unescapeQuotes s')
        | EmptyString => String c EmptyString
        end
      else String c (unescapeQuotes s')
  end.

(** [results[results.length - 1].push(value)] *)
Fixpoint pushToLast {A} (results : list (list A)) (value : A)
  : list (list A) :=
  match results with
  | [] => []
  | [row] => [row ++ [value]]
  | row :: rest => row :: pushToLast rest value
  end.

(** A tokenized cell: a string, or [undefined]. *)
Abbreviation Cell := (option string).

(** The [value] of the loop for a match: group 2 with its doubled quotes
    undone when it is a non-empty string, and group 3 otherwise. *)
Definition matchValue (m : Match) : Cell :=
  match matches2 m with
  | Some captured =>
      if nonEmpty captured then Some (unescapeQuotes captured)
      else matches3 m
  | None => matches3 m
  end.

(** The body of the [while] loop for one match. *)
Definition addMatch (delimiter : ascii) (m : Match)
    (results : list (list Cell)) : list (list Cell) :=
  let matchedDelimiter := matches1 m in
  let hasRowDelimiter :=
    (0 <? String.length matchedDelimiter)
    && negb (String.eqb matchedDelimiter (String delimiter EmptyString)) in
  let results := if hasRowDelimiter then results ++ [[]] else results in
  pushToLast results (matchValue m).

(** [while (matches = objPattern.exec(str)) { ... }]: the loop has no bound
    of its own, so the embedding counts iterations; [None] means that
    [fuel] iterations did not reach the end of the loop. *)
Fixpoint csvToArrayLoop (fuel : nat) (delimiter : ascii) (str : string)
    (lastIndex : nat) (results : list (list Cell))
  : option (list (list Cell)) :=
  match fuel with
  | O => None
  | S fuel' =>
      match exec delimiter str lastIndex with
      | None => Some results
      | Some m =>
          csvToArrayLoop fuel' delimiter str (endIndex m)
            (addMatch delimiter m results)
      end
  end.

Definition csvToArray (fuel : nat) (str : string) (delimiter : ascii)
  : option (list (list Cell)) :=
  csvToArrayLoop fuel delimiter str 0 [[]].

(** ** Values, objects and columns *)

(** A JavaScript number as [Number::toString] takes it apart: not a number,
    an infinity, a zero, or a finite number with its sign, the decimal
    digits of the integer s and the integer n of that algorithm (s has k
    digits, as few as possible, and the number is s times 10 to the power
    n - k).  So 5.29 has the digits 529 and n = 1, 529 has the digits 529
    and n = 3, and 1e21 has the digit 1 and n = 22. *)
Inductive JsNumber :=
| NaN
| Infinity (negative : bool)
| Zero
| Finite (negative : bool) (digits : string) (n : Z).

(** The JavaScript values that the code tells apart.  An object carries its
    own fields in the order of their creation; [objectKeys] below gives
    the order of [Object.keys]. *)
#[warnings="-register-all"]
Inductive Value :=
| VUndefined
| VNull
| VBoolean (b : bool)
| VNumber (x : JsNumber)
| VString (s : string)
| VObject (fields : list (string * Value)).

Abbreviation Obj := (list (string * Value)).

(** The own field [key] of [obj], if there is one. *)
Fixpoint fieldOf (obj : Obj) (key : string) : option Value :=
  match obj with
  | [] => None
  | (k, v) :: rest => if String.eqb k key then Some v else fieldOf rest key
  end.

(** [obj[key]] for a key that the object has as a field of its own or
    that a plain object does not inherit (see [ownRead]): an inherited
    property ([constructor], [toString], ...) is not a value of the
    embedding. *)
Definition getField (obj : Obj) (key : string) : Value :=
  default VUndefined (fieldOf obj key).

(** The own field [key] of [obj] becomes [value]; a new field comes
    last. *)
Fixpoint storeField (obj : Obj) (key : string) (value : Value) : Obj :=
  match obj with
  | [] => [(key, value)]
  | (k, v) :: rest =>
      if String.eqb k key then (k, value) :: rest
      else (k, v) :: storeField rest key value
  end.

(** [obj[key] = value] on an object that was made by [{}] and has
    [Object.prototype] as its prototype, as to its own fields: the key
    [__proto__] is the accessor of [Object.prototype], whose setter adds no
    field (it replaces the prototype when the value is an object or null;
    the prototype is not part of the embedding). *)
Definition setField (obj : Obj) (key : string) (value : Value) : Obj :=
  if String.eqb key "__proto__" then obj else storeField obj key value.

(** Equality of two records field for field, whatever the key order. *)
Definition sameFields (a b : Obj) : Prop :=
  ∀ key, fieldOf a key = fieldOf b key.

Record ConverterDetails := {
  c_obj : Obj;
  c_key : option string;
  c_row : nat;
  c_column : nat
}.

Record ParserDetails := {
  p_key : string;
  p_row : nat;
  p_column : nat
}.

Abbreviation Converter := (Value → ConverterDetails → Value).
Abbreviation Parser := (string → ParserDetails → Value).

(** The typedef [Column]; an absent property is [None] or [false].  The
    converter and the parser are functions that return a value. *)
Record Column := {
  header : option string;
  key : option string;
  required : bool;
  converter : option Converter;
  parser : option Parser;
  parseEmpty : bool
}.

(** An element of the [columns] argument: a string, a column object, or
    anything else ([null], a number, ...). *)
Inductive ColumnInput :=
| ColumnName (name : string)
| ColumnObject (column : Column)
| ColumnOther.

Record Options := {
  includeHeader : bool;
  includeEmptyValues : bool;
  delimiter : option ascii
}.

Definition noOptions : Options :=
  {| includeHeader := false; includeEmptyValues := false; delimiter := None |}.

(** [options.delimiter || ','] *)
Definition delimiterOf (options : Options) : ascii :=
  default ","%char (delimiter options).

Definition startIndexOf (options : Options) : nat :=
  if includeHeader options then 1 else 0.

Inductive JsError :=
| Error (message : string)
| TypeError.

Inductive Completion (A : Type) :=
| Return (a : A)
| Throw (e : JsError).
Arguments Return {A} a.
Arguments Throw {A} e.

(** ** escapeCSV, detectColumn *)

(** The [replace] of [escapeCSV]: each double quote is doubled. *)
Fixpoint doubleQuotes (s : string) : string :=
  match s with
  | EmptyString => EmptyString
  | String c s' =>
      if Ascii.eqb c DQUOTE
      then String DQUOTE (String DQUOTE (doubleQuotes s'))
      else String c (doubleQuotes s')
  end.

Definition escapeCSV (str : string) : string :=
  String DQUOTE (doubleQuotes str +:+ String DQUOTE EmptyString).

Definition detectColumn (column : ColumnInput) : option Column :=
  match column with
  | ColumnName name =>
      if nonEmpty name then
        Some {| header := None; key := Some name; required := false;
                converter := None; parser := None; parseEmpty := false |}
      else None
  | ColumnObject column => Some column
  | ColumnOther => None
  end.

(** ** columnLabel, cellLabel *)

Definition letters : string := "ABCDEFGHIJKLMNOPQRSTUVWXYZ".

(** [str.charAt(i)] *)
Definition charAt (str : string) (i : nat) : string :=
  match String.get i str with
  | Some c => String c EmptyString
  | None => EmptyString
  end.

Equations? columnLabel (columnNumber : nat) : string
  by wf columnNumber lt :=
  columnLabel columnNumber with decide (0 < columnNumber / 26) := {
    | left _ =>
        columnLabel (columnNumber / 26 - 1)
        +:+ charAt letters (columnNumber mod 26);
    | right _ => charAt letters (columnNumber mod 26) }.
Proof.
  change (columnNumber / 26 - 1 < columnNumber).
  change (0 < columnNumber / 26) in l.
  pose proof (Nat.Div0.div_le_upper_bound columnNumber 26 columnNumber).
  assert (columnNumber / 26 ≤ columnNumber) by (apply H; lia).
  lia.
Qed.

(** [columnLabel(columnNumber) + rowNumber], on natural numbers. *)
Definition cellLabel (rowNumber columnNumber : nat) : string :=
  columnLabel columnNumber +:+ pretty rowNumber.

(** ** toCSV *)

(** [\d] *)
Definition isDigit (c : ascii) : bool :=
  (48 <=? nat_of_ascii c) && (nat_of_ascii c <=? 57).

(** [\d*]: the text after the longest run of digits. *)
Fixpoint skipDigits (s : string) : string :=
  match s with
  | EmptyString => EmptyString
  | String c s' => if isDigit c then skipDigits s' else s
  end.

(** [\d+]: the text after it, if there is a digit. *)
Definition matchDigits (s : string) : option string :=
  match s with
  | String c s' => if isDigit c then Some (skipDigits s') else None
  | EmptyString => None
  end.

(** [[-\/]]: the text after it. *)
Definition matchDateSeparator (s : string) : option string :=
  match s with
  | String c s' =>
      if Ascii.eqb c "-" || Ascii.eqb c "/" then Some s' else None
  | EmptyString => None
  end.

(** [/^\d+[-\/]\d+[-\/]\d+$/.test(s)] *)
Definition looksLikeDate (s : string) : bool :=
  match (((matchDigits s ≫= matchDateSeparator) ≫= matchDigits)
          ≫= matchDateSeparator) ≫= matchDigits with
  | Some EmptyString => true
  | _ => false
  end.

(** [/^=/.test(s)] *)
Definition isFormula (s : string) : bool :=
  match s with
  | String c _ => Ascii.eqb c "="
  | EmptyString => false
  end.

(** [n] times the character 0. *)
Definition zeros (n : nat) : string :=
  string_of_list_ascii (replicate n "0"%char).

(** [Number::toString(x)] with radix 10, which [join] uses for a number. *)
Definition numberToString (x : JsNumber) : string :=
  match x with
  | NaN => "NaN"
  | Infinity negative => if negative then "-Infinity" else "Infinity"
  | Zero => "0"
  | Finite negative digits n =>
      let k := Z.of_nat (String.length digits) in
      let text :=
        if ((k <=? n) && (n <=? 21))%Z then
          digits +:+ zeros (Z.to_nat (n - k))
        else if ((0 <? n) && (n <=? 21))%Z then
          substring 0 (Z.to_nat n) digits
          +:+ "." +:+ str_drop (Z.to_nat n) digits
        else if ((-6 <? n) && (n <=? 0))%Z then
          "0." +:+ zeros (Z.to_nat (- n)) +:+ digits
        else
          let e := (n - 1)%Z in
          let exponent :=
            (if (0 <=? e)%Z then "+" else "-") +:+ pretty (Z.abs e) in
          if (k =? 1)%Z then digits +:+ "e" +:+ exponent
          else substring 0 1 digits +:+ "." +:+ str_drop 1 digits
               +:+ "e" +:+ exponent in
      if negative then "-" +:+ text else text
  end.

(** The text that [Array.prototype.join] uses for an element. *)
Definition elementText (v : Value) : string :=
  match v with
  | VUndefined | VNull => EmptyString
  | VBoolean b => if b then "true" else "false"
  | VNumber x => numberToString x
  | VString s => s
  | VObject _ => "[object Object]"
  end.

(** [array.join(separator)] *)
Definition join (separator : string) (array : list Value) : string :=
  String.concat separator (elementText <$> array).

(** [obj[key]] where [key] may be [undefined]. *)
Definition propertyName (key : option string) : string :=
  default "undefined" key.

(** [cellValue == null || typeof cellValue === 'object'] *)
Definition canClear (cellValue : Value) : bool :=
  match cellValue with
  | VUndefined | VNull | VObject _ => true
  | _ => false
  end.

Definition shouldEscape (cellValue : Value) : bool :=
  match cellValue with
  | VString s => nonEmpty s && negb (isFormula s) && negb (looksLikeDate s)
  | _ => false
  end.

(** [escapeCSV(cellValue)], called on strings only. *)
Definition escapeValue (cellValue : Value) : Value :=
  match cellValue with
  | VString s => VString (escapeCSV s)
  | v => v
  end.

(** The part of [processColumn] after the converter. *)
Definition finishCell (cellValue : Value) : Value :=
  let cellValue := if canClear cellValue then VString EmptyString
                   else cellValue in
  if shouldEscape cellValue then escapeValue cellValue else cellValue.

(** The cell value after the column's converter, if it has one. *)
Definition convertedValue (startIndex : nat) (obj : Obj) (rowIndex : nat)
    (column : Column) (columnIndex : nat) : Value :=
  let cellValue := getField obj (propertyName (key column)) in
  match converter column with
  | Some converter =>
      converter cellValue
        {| c_obj := obj; c_key := key column;
           c_row := rowIndex + startIndex + 1;
           c_column := columnIndex |}
  | None => cellValue
  end.

(** The closure [processColumn] of [toCSV]. *)
Definition toCSV_processColumn (startIndex : nat) (obj : Obj) (rowIndex : nat)
    (column : option Column) (columnIndex : nat) : Value :=
  match column with
  | None => VString EmptyString
  | Some column =>
      finishCell (convertedValue startIndex obj rowIndex column columnIndex)
  end.

(** [columns.map(processColumn)] in the closure [getLine] of [toCSV]. *)
Definition toCSV_cells (columns : list (option Column)) (options : Options)
    (obj : Obj) (rowIndex : nat) : list Value :=
  imap (λ columnIndex column,
          toCSV_processColumn (startIndexOf options) obj rowIndex
            column columnIndex) columns.

(** The closure [getLine] of [toCSV]. *)
Definition toCSV_getLine (columns : list (option Column)) (options : Options)
    (obj : Obj) (rowIndex : nat) : string :=
  join (String (delimiterOf options) EmptyString)
    (toCSV_cells columns options obj rowIndex).

(** The cells of the header line of [toCSV]. *)
Definition toCSV_headerCells (columns : list (option Column)) : list Value :=
  (λ column : option Column,
     match column ≫= header with
     | Some header =>
         if nonEmpty header then VString (escapeCSV header)
         else VString EmptyString
     | None => VString EmptyString
     end) <$> columns.

(** The lines of [toCSV] before they are joined. *)
Definition toCSV_lines (rows : list Obj) (columns : list (option Column))
    (options : Options) : list string :=
  let lines := imap (λ rowIndex obj, toCSV_getLine columns options obj rowIndex)
                 rows in
  if includeHeader options then
    join (String (delimiterOf options) EmptyString)
      (toCSV_headerCells columns) :: lines
  else lines.

(** The number of a decimal numeral, continuing from [acc]; [None] when a
    character is not a digit. *)
Fixpoint numeralValue (acc : N) (s : string) : option N :=
  match s with
  | EmptyString => Some acc
  | String c s' =>
      if isDigit c then
        numeralValue (10 * acc + N.of_nat (nat_of_ascii c - 48)) s'
      else None
  end.

(** The array index that a key denotes, if it does: a decimal numeral
    without a leading zero, of a number below 2^32 - 1. *)
Definition arrayIndex (key : string) : option N :=
  match key with
  | EmptyString => None
  | String c rest =>
      if Ascii.eqb c "0" && nonEmpty rest then None
      else
        match numeralValue 0 key with
        | Some i => if (i <? 4294967295)%N then Some i else None
        | None => None
        end
  end.

(** A key with its index goes before the first greater index. *)
Fixpoint insertIndex (i : N) (key : string) (sorted : list (N * string))
  : list (N * string) :=
  match sorted with
  | [] => [(i, key)]
  | (j, key') :: rest =>
      if (i <? j)%N then (i, key) :: sorted
      else (j, key') :: insertIndex i key rest
  end.

(** [Object.keys(obj)]: the keys that are array indices in ascending
    order, then the other keys in the order of their creation. *)
Definition objectKeys (obj : Obj) : list string :=
  (foldr (λ (kv : string * Value) sorted,
            match arrayIndex kv.1 with
            | Some i => insertIndex i kv.1 sorted
            | None => sorted
            end) [] obj).*2
  ++ filter (λ key, arrayIndex key = None) obj.*1.

Definition detectColumnsFromJSON (rows : list Obj) (options : Options)
  : list (option Column) :=
  let keys := objectKeys (default [] (head rows)) in
  let format (i : nat) (column : option Column) : option Column :=
    match column with
    | Some column =>
        if includeHeader options then
          Some {| header := keys !! i; key := key column;
                  required := required column;
                  converter := converter column; parser := parser column;
                  parseEmpty := parseEmpty column |}
        else Some column
    | None => None
    end in
  imap format ((λ key, detectColumn (ColumnName key)) <$> keys).

(** [rows] is an array of objects by its type, so the check of
    [Array.isArray(rows)] passes; [columns] is [None] when the argument is
    absent or [null]. *)
Definition toCSV (rows : list Obj) (columns : option (list ColumnInput))
    (options : Options) : string :=
  let columns :=
    match columns with
    | None => detectColumnsFromJSON rows options
    | Some columns => detectColumn <$> columns
    end in
  String.concat (String LF EmptyString) (toCSV_lines rows columns options).

(** ** fromCSV *)

(** [.replace(/\n{2,}/g, '\n')]: each run of two or more line feeds is one
    match and is replaced by one line feed.  [inRun] says that the
    character before was a line feed of such a run. *)
Fixpoint collapseLineBreaks (inRun : bool) (s : string) : string :=
  match s with
  | EmptyString => EmptyString
  | String c s' =>
      if Ascii.eqb c LF then
        if inRun then collapseLineBreaks true s'
        else
          match s' with
          | String c' _ =>
              if Ascii.eqb c' LF then String LF (collapseLineBreaks true s')
              else String LF (collapseLineBreaks false s')
          | EmptyString => String LF EmptyString
          end
      else String c (collapseLineBreaks false s')
  end.

(** The text without its last character when that is a line feed. *)
Fixpoint removeFinalLineBreak (s : string) : string :=
  match s with
  | EmptyString => EmptyString
  | String c s' =>
      match s' with
      | EmptyString => if Ascii.eqb c LF then EmptyString else s
      | String _ _ => String c (removeFinalLineBreak s')
      end
  end.

(** [.replace(/(\n$|^\n)/, '')]: the pattern is not global, so only the
    first match is removed: the line feed at index 0 if there is one,
    and otherwise the line feed at the end. *)
Definition stripLineBreak (s : string) : string :=
  match s with
  | String c s' =>
      if Ascii.eqb c LF then s' else removeFinalLineBreak s
  | EmptyString => EmptyString
  end.

Definition preprocess (csvStr : string) : string :=
  stripLineBreak (collapseLineBreaks false csvStr).

(** [csvStr.split('\n')[0]] *)
Fixpoint firstLineOf (s : string) : string :=
  match s with
  | EmptyString => EmptyString
  | String c s' =>
      if Ascii.eqb c LF then EmptyString else String c (firstLineOf s')
  end.

(** ['col' + (i + 1)] *)
Definition defaultColumnName (i : nat) : string := "col" +:+ pretty (i + 1).

(** [None] when the tokenizer does not return within [fuel] iterations. *)
Definition detectColumnsFromCSV (fuel : nat) (csvStr : string)
    (options : Options) : option (list (option Column)) :=
  let firstLine := firstLineOf csvStr in
  match csvToArray fuel firstLine (delimiterOf options) with
  | None => None
  | Some results =>
      let split := default [] (head results) in
      let columns : list ColumnInput :=
        if includeHeader options then
          (λ cell : Cell,
             match cell with
             | Some name => ColumnName name
             | None => ColumnOther
             end) <$> split
        else imap (λ i _, ColumnName (defaultColumnName i)) split in
      Some (detectColumn <$> columns)
  end.

(** [cellValue == null || cellValue === ''] *)
Definition isEmpty (cellValue : Value) : bool :=
  match cellValue with
  | VUndefined | VNull => true
  | VString s => negb (nonEmpty s)
  | _ => false
  end.

(** [line[columnIndex]] *)
Definition cellAt (line : list Cell) (columnIndex : nat) : Cell :=
  default None (line !! columnIndex).

(** The value of the cell [cellValue = line[columnIndex]] after the
    parser, if it applies. *)
Definition parsedValue (column : Column) (key : string) (startIndex : nat)
    (cellValue : Cell) (rowIndex columnIndex : nat) : Value :=
  match cellValue with
  | None => VUndefined
  | Some text =>
      match parser column with
      | Some parser =>
          if parseEmpty column || nonEmpty text then
            parser text {| p_key := key;
                           p_row := rowIndex + startIndex + 1;
                           p_column := columnIndex |}
          else VString text
      | None => VString text
      end
  end.

(** The closure [processColumn] of [fromCSV]. *)
Definition fromCSV_processColumn (options : Options) (line : list Cell)
    (rowIndex : nat) (result : Obj) (column : option Column)
    (columnIndex : nat) : Completion Obj :=
  match column with
  | None => Return result
  | Some column =>
      match key column with
      | None => Return result
      | Some key =>
          if negb (nonEmpty key) then Return result
          else
            let cellValue :=
              parsedValue column key (startIndexOf options)
                (cellAt line columnIndex) rowIndex columnIndex in
            let canAssign :=
              includeEmptyValues options || negb (isEmpty cellValue) in
            let hasError := required column && isEmpty cellValue in
            if hasError then
              Throw (Error ("Required column " +:+ key +:+ " is empty"))
            else if canAssign then Return (setField result key cellValue)
            else Return result
      end
  end.

(** [columns.reduce(processColumn, result)], from [columnIndex] on. *)
Fixpoint reduceColumns (options : Options) (line : list Cell) (rowIndex : nat)
    (columns : list (option Column)) (columnIndex : nat) (result : Obj)
  : Completion Obj :=
  match columns with
  | [] => Return result
  | column :: columns' =>
      match fromCSV_processColumn options line rowIndex result column
              columnIndex with
      | Return result' =>
          reduceColumns options line rowIndex columns' (S columnIndex) result'
      | Throw e => Throw e
      end
  end.

(** The closure [getRow] of [fromCSV]. *)
Definition fromCSV_getRow (columns : list (option Column)) (options : Options)
    (line : list Cell) (rowIndex : nat) : Completion Obj :=
  reduceColumns options line rowIndex columns 0 [].

(** [csvLines.map(getRow)], from [rowIndex] on. *)
Fixpoint mapRows (columns : list (option Column)) (options : Options)
    (csvLines : list (list Cell)) (rowIndex : nat) : Completion (list Obj) :=
  match csvLines with
  | [] => Return []
  | line :: csvLines' =>
      match fromCSV_getRow columns options line rowIndex with
      | Throw e => Throw e
      | Return row =>
          match mapRows columns options csvLines' (S rowIndex) with
          | Throw e => Throw e
          | Return rows => Return (row :: rows)
          end
      end
  end.

(** [csvStr] is a string by its type, so the check of [typeof csvStr]
    passes; [columns] is [None] when the argument is absent or [null].
    The result is [None] when a call of the tokenizer does not return
    within [fuel] iterations. *)
Definition fromCSV (fuel : nat) (csvStr : string)
    (columns : option (list ColumnInput)) (options : Options)
  : option (Completion (list Obj)) :=
  let csvStr := preprocess csvStr in
  let useDefaultColumns :=
    match columns with None => nonEmpty csvStr | Some _ => false end in
  let columns : option (Completion (list (option Column))) :=
    if useDefaultColumns then
      Return <$> detectColumnsFromCSV fuel csvStr options
    else
      match columns with
      | Some columns => Some (Return (detectColumn <$> columns))
      | None => Some (Throw TypeError)
      end in
  match columns with
  | None => None
  | Some (Throw e) => Some (Throw e)
  | Some (Return columns) =>
      match csvToArray fuel csvStr (delimiterOf options) with
      | None => None
      | Some results =>
          let csvLines := drop (startIndexOf options) results in
          Some (mapRows columns options csvLines 0)
      end
  end.

(** ** Definitions that follow the specification *)

(** The value of a letter in a bijective base-26 numeral: A is 1, Z is 26. *)
Definition letterValue (c : ascii) : nat := nat_of_ascii c - 64.

Definition isLetter (c : ascii) : bool :=
  (65 <=? nat_of_ascii c) && (nat_of_ascii c <=? 90).

Fixpoint lettersOnly (s : string) : bool :=
  match s with
  | EmptyString => true
  | String c s' => isLetter c && lettersOnly s'
  end.

(** The number that a bijective base-26 numeral denotes, most significant
    letter first, continuing from [acc]. *)
Fixpoint bijectiveValue (acc : nat) (s : string) : nat :=
  match s with
  | EmptyString => acc
  | String c s' => bijectiveValue (26 * acc + letterValue c) s'
  end.

Fixpoint digitsOnly (s : string) : bool :=
  match s with
  | EmptyString => true
  | String c s' => isDigit c && digitsOnly s'
  end.






(** The text consists of line feeds only (it may be empty). *)
Fixpoint lineBreaksOnly (s : string) : bool :=
  match s with
  | EmptyString => true
  | String c s' => Ascii.eqb c LF && lineBreaksOnly s'
  end.

(** The text has none of the characters that end an unquoted field. *)
Fixpoint safeText (delimiter : ascii) (s : string) : bool :=
  match s with
  | EmptyString => true
  | String c s' => unquotedChar delimiter c && safeText delimiter s'
  end.

(** A delimiter that the escape of the pattern denotes literally: an ASCII
    character that is neither a letter nor a digit. *)
Definition literalDelimiter (delimiter : ascii) : bool :=
  let n := nat_of_ascii delimiter in
  (n <? 128) && negb (isDigit delimiter) && negb (isLetter delimiter)
  && negb ((97 <=? n) && (n <=? 122)).

(** A literal delimiter that is neither the quote nor a line break
    character. *)
Definition DelimiterOK (delimiter : ascii) : Prop :=
  literalDelimiter delimiter = true
  ∧ delimiter ≠ DQUOTE ∧ delimiter ≠ CR ∧ delimiter ≠ LF.

(** The two forms of an emitted cell, with the cell that is read back: a
    non-empty text between quotes with its quotes doubled, or a text
    without special characters as it is. *)
Inductive CellForm (delimiter : ascii) : string → Cell → Prop :=
| quotedCell (s : string) :
    nonEmpty s = true → CellForm delimiter (escapeCSV s) (Some s)
| bareCell (u : string) :
    safeText delimiter u = true → CellForm delimiter u (Some u).

(** What precedes a field in the text. *)
Inductive Separator := AtStart | AfterDelimiter | AfterLineBreak.

Definition separatorText (delimiter : ascii) (sep : Separator) : string :=
  match sep with
  | AtStart => EmptyString
  | AfterDelimiter => String delimiter EmptyString
  | AfterLineBreak => String LF EmptyString
  end.

(** The text after a field: nothing, or a delimiter or line feed first. *)
Definition AfterField (delimiter : ascii) (rest : string) : Prop :=
  match rest with
  | EmptyString => True
  | String c _ => c = delimiter ∨ c = LF
  end.

(** A row of emitted cells, each with the cell that is read back; the
    first cell of a row is not empty. *)
Definition RowOK (delimiter : ascii) (row : list (string * Cell)) : Prop :=
  match row with
  | [] => False
  | (t, cell) :: cells =>
      nonEmpty t = true ∧ CellForm delimiter t cell
      ∧ Forall (λ tc, CellForm delimiter tc.1 tc.2) cells
  end.

(** The text of the cells of a row after the first one. *)
Fixpoint restOfRow (delimiter : ascii) (cells : list (string * Cell))
  : string :=
  match cells with
  | [] => EmptyString
  | (t, _) :: cells' =>
      String delimiter (t +:+ restOfRow delimiter cells')
  end.

Definition rowText (delimiter : ascii) (row : list (string * Cell)) : string :=
  match row with
  | [] => EmptyString
  | (t, _) :: cells => t +:+ restOfRow delimiter cells
  end.

(** The text of the rows after the first one. *)
Fixpoint restOfGrid (delimiter : ascii) (rows : list (list (string * Cell)))
  : string :=
  match rows with
  | [] => EmptyString
  | row :: rows' =>
      String LF (rowText delimiter row +:+ restOfGrid delimiter rows')
  end.

Definition gridText (delimiter : ascii) (rows : list (list (string * Cell)))
  : string :=
  match rows with
  | [] => EmptyString
  | row :: rows' => rowText delimiter row +:+ restOfGrid delimiter rows'
  end.

Definition startsWithLineBreak (s : string) : bool :=
  match s with
  | String c _ => Ascii.eqb c LF
  | EmptyString => false
  end.

Fixpoint endsWithLineBreak (s : string) : bool :=
  match s with
  | EmptyString => false
  | String c s' =>
      match s' with
      | EmptyString => Ascii.eqb c LF
      | String _ _ => endsWithLineBreak s'
      end
  end.

(** The text has no two consecutive line feeds. *)
Fixpoint noBlankLine (s : string) : bool :=
  match s with
  | EmptyString => true
  | String c s' =>
      negb (Ascii.eqb c LF && startsWithLineBreak s') && noBlankLine s'
  end.

(** A text that the pre-processing leaves as it is: no two consecutive
    line feeds, none at the start, none at the end. *)
Definition Tight (s : string) : Prop :=
  noBlankLine s = true ∧ startsWithLineBreak s = false
  ∧ endsWithLineBreak s = false.

(** The text of a value as [toCSV] emits it when it does not escape it. *)
Definition clearedText (v : Value) : string :=
  elementText (if canClear v then VString EmptyString else v).

(** The value that [toCSV] has for a column of a record before it clears
    and escapes it. *)
Definition columnValue (startIndex : nat) (obj : Obj) (rowIndex : nat)
    (column : option Column) (columnIndex : nat) : Value :=
  match column with
  | Some column => convertedValue startIndex obj rowIndex column columnIndex
  | None => VString EmptyString
  end.

(** A value whose cell the tokenizer reads back: its text has no two
    consecutive line feeds and, unless [toCSV] escapes it, none of the
    characters that end an unquoted field. *)
Definition readable (delimiter : ascii) (v : Value) : bool :=
  noBlankLine (clearedText v)
  && (shouldEscape v || safeText delimiter (clearedText v)).

(** The names of the properties that a plain object inherits from
    [Object.prototype]. *)
Definition inheritedNames : list string :=
  ["constructor"; "__defineGetter__"; "__defineSetter__"; "hasOwnProperty";
   "__lookupGetter__"; "__lookupSetter__"; "isPrototypeOf";
   "propertyIsEnumerable"; "toString"; "valueOf"; "__proto__";
   "toLocaleString"].

Definition inherited (key : string) : bool :=
  existsb (String.eqb key) inheritedNames.

(** Reading [obj[key]] of a plain object yields a field of its own or
    undefined, and not an inherited property. *)
Definition ownRead (obj : Obj) (key : string) : Prop :=
  is_Some (fieldOf obj key) ∨ inherited key = false.

(** No column reads a property that a record inherits. *)
Definition OwnReads (rows : list Obj) (columns : list (option Column))
  : Prop :=
  ∀ r obj c column,
    rows !! r = Some obj → columns !! c = Some (Some column) →
    ownRead obj (propertyName (key column)).

(** What the round trip needs of a record at index [r]: its cells are
    readable; its line is not empty (there are two columns or more, or the
    only cell is not empty); the columns read fields of the record itself;
    no key is [__proto__], which an assignment does not store; for each
    column with a key, the record has the value that the parser makes of
    the text of the cell when [fromCSV] stores it (empty values are
    included, or the value is not empty) and has no such field when it
    does not, and that value is not empty if the column is required; and
    the record has no other fields. *)
Record RecordOK (options : Options) (columns : list (option Column))
    (obj : Obj) (r : nat) : Prop := {
  cells_readable :
    ∀ c column, columns !! c = Some column →
      readable (delimiterOf options)
        (columnValue (startIndexOf options) obj r column c) = true;
  line_not_empty :
    2 ≤ length columns
    ∨ ∃ column, columns !! 0 = Some column
        ∧ nonEmpty (clearedText
                      (columnValue (startIndexOf options) obj r column 0))
          = true;
  fields_read :
    ∀ c column, columns !! c = Some (Some column) →
      ownRead obj (propertyName (key column));
  keys_stored :
    ∀ c column, columns !! c = Some (Some column) →
      key column ≠ Some "__proto__";
  parser_inverts_converter :
    ∀ c column k,
      columns !! c = Some (Some column) →
      key column = Some k → nonEmpty k = true →
      let v := parsedValue column k (startIndexOf options)
                 (Some (clearedText
                          (convertedValue (startIndexOf options) obj r
                             column c))) r c in
      fieldOf obj k
      = (if includeEmptyValues options || negb (isEmpty v)
         then Some v else None)
      ∧ (required column = true → isEmpty v = false);
  fields_are_columns :
    ∀ k, is_Some (fieldOf obj k) →
      ∃ c column, columns !! c = Some (Some column)
                  ∧ key column = Some k ∧ nonEmpty k = true
}.

(** The first cell of the record is not empty. *)
Definition FirstCellOK (options : Options) (columns : list (option Column))
    (obj : Obj) (r : nat) : Prop :=
  ∃ column, columns !! 0 = Some column
    ∧ nonEmpty (clearedText
                  (columnValue (startIndexOf options) obj r column 0))
      = true.

(** The first column has a header. *)
Definition FirstHeaderOK (columns : list (option Column)) : Prop :=
  ∃ column h, columns !! 0 = Some (Some column)
              ∧ header column = Some h ∧ nonEmpty h = true.

(** What the round trip needs of the header line: it is not empty (there
    are two columns or more, or the only column has a header), and no
    header has two consecutive line feeds. *)
Definition HeaderOK (columns : list (option Column)) : Prop :=
  (2 ≤ length columns ∨ FirstHeaderOK columns)
  ∧ ∀ c column h, columns !! c = Some (Some column) →
                  header column = Some h → noBlankLine h = true.

(** A row of emitted cells, each with the cell that is read back. *)
Definition RowCells (delimiter : ascii) (row : list (string * Cell))
  : Prop :=
  row ≠ [] ∧ Forall (λ tc, CellForm delimiter tc.1 tc.2) row.

(** The cells that are read back from the first row of a text: a first
    cell that is empty is not read. *)
Definition firstRowRead (row : list (string * Cell)) : list Cell :=
  match row with
  | (t, _) :: cells => if nonEmpty t then row.*2 else cells.*2
  | [] => []
  end.

(** The emitted text of a cell and the cell that is read back. *)
Definition cellPair (v : Value) : string * Cell :=
  (elementText (finishCell v), Some (clearedText v)).

Definition dataRow (columns : list (option Column)) (options : Options)
    (obj : Obj) (r : nat) : list (string * Cell) :=
  imap (λ c column,
          cellPair (columnValue (startIndexOf options) obj r column c))
    columns.

Definition headerPair (column : option Column) : string * Cell :=
  match column ≫= header with
  | Some h =>
      if nonEmpty h then (escapeCSV h, Some h)
      else (EmptyString, Some EmptyString)
  | None => (EmptyString, Some EmptyString)
  end.

Definition gridOf (rows : list Obj) (columns : list (option Column))
    (options : Options) : list (list (string * Cell)) :=
  (if includeHeader options then [headerPair <$> columns] else [])
  ++ imap (λ r obj, dataRow columns options obj r) rows.

(** What the round trip needs of the first record when its line is the
    first line of the text and starts with an empty cell, which the
    tokenizer does not read, so that each column is given the cell to its
    right (the last column no cell): for a column with a key, the value
    that the parser makes of that cell is the one it makes of the cell of
    the column, or both are empty and empty values are not included. *)
Definition ShiftedOK (options : Options) (columns : list (option Column))
    (obj : Obj) : Prop :=
  ∀ c column k,
    columns !! c = Some (Some column) →
    key column = Some k → nonEmpty k = true →
    let startIndex := startIndexOf options in
    let v := parsedValue column k startIndex
               (Some (clearedText
                        (convertedValue startIndex obj 0 column c))) 0 c in
    let v' := parsedValue column k startIndex
                ((λ next, clearedText (columnValue startIndex obj 0 next (S c)))
                   <$> columns !! S c) 0 c in
    v' = v
    ∨ (includeEmptyValues options = false
       ∧ isEmpty v = true ∧ isEmpty v' = true).

(** The cells that are read back from the line of record [r]. *)
Definition lineRead (columns : list (option Column)) (options : Options)
    (obj : Obj) (r : nat) : list Cell :=
  match r with
  | 0 =>
      if includeHeader options then (dataRow columns options obj 0).*2
      else firstRowRead (dataRow columns options obj 0)
  | S _ => (dataRow columns options obj r).*2
  end.

(** A row whose emitted cells have no blank line. *)
Definition RowTight (row : list (string * Cell)) : Prop :=
  Forall (λ tc : string * Cell, noBlankLine tc.1 = true) row.

(** The number of cells of the rows. *)
Definition cellCount (rows : list (list (string * Cell))) : nat :=
  sum_list (length <$> rows).

(** The error that [fromCSV] throws for a required column. *)
Definition requiredMessage (key : string) : JsError :=
  Error ("Required column " +:+ key +:+ " is empty").

(** A column that is required and whose value is empty at a cell. *)
Definition RequiredEmpty (options : Options) (line : list Cell)
    (rowIndex : nat) (column : Column) (columnIndex : nat) (k : string)
  : Prop :=
  key column = Some k ∧ nonEmpty k = true ∧ required column = true
  ∧ isEmpty (parsedValue column k (startIndexOf options)
               (cellAt line columnIndex) rowIndex columnIndex) = true.

(** [k] is the non-empty key of one of the columns. *)
Definition ColumnKey (columns : list (option Column)) (k : string) : Prop :=
  ∃ c column, columns !! c = Some (Some column)
              ∧ key column = Some k ∧ nonEmpty k = true.

(** What the fold over the columns keeps of a record: distinct keys, each
    the key of a column, and no empty value unless empty values are
    included. *)
Definition RecordShape (options : Options) (columns : list (option Column))
    (row : Obj) : Prop :=
  NoDup row.*1
  ∧ ∀ k v, fieldOf row k = Some v →
           ColumnKey columns k
           ∧ (includeEmptyValues options = false → isEmpty v = false).

(** [s.split('\n')]: the lines of a text, of which there is at least one. *)
Fixpoint linesOf (s : string) : list string :=
  match s with
  | EmptyString => [EmptyString]
  | String c s' =>
      if Ascii.eqb c LF then EmptyString :: linesOf s'
      else match linesOf s' with
           | line :: lines => String c line :: lines
           | [] => [String c EmptyString]
           end
  end.

(** The lines of a text that are not empty. *)
Definition nonEmptyLines (s : string) : list string :=
  filter (λ line : string, nonEmpty line = true) (linesOf s).

(** The text starts with a carriage return or a line feed. *)
Definition startsWithRowBreak (s : string) : bool :=
  match s with
  | String c _ => Ascii.eqb c CR || Ascii.eqb c LF
  | EmptyString => false
  end.

(** The text has no line feed. *)
Fixpoint noLineFeed (s : string) : bool :=
  match s with
  | EmptyString => true
  | String c s' => negb (Ascii.eqb c LF) && noLineFeed s'
  end.

(** A column that has a key, maybe a header, and nothing else. *)
Definition namedColumn (h : option string) (k : string) : Column :=
  {| header := h; key := Some k; required := false;
     converter := None; parser := None; parseEmpty := false |}.

(** A record of texts under the keys [keys]: it has no field besides
    these, and under each of them a string that is not empty and that
    the tokenizer reads back. *)
Definition TextRecord (delimiter : ascii) (keys : list string) (obj : Obj)
  : Prop :=
  (∀ k, is_Some (fieldOf obj k) → k ∈ keys)
  ∧ ∀ k, k ∈ keys →
         ∃ s, fieldOf obj k = Some (VString s) ∧ nonEmpty s = true
              ∧ readable delimiter (VString s) = true.

(** The row breaks of the pattern of the tokenizer. *)
Inductive RowBreak := LineFeed | CarriageReturn | CarriageReturnLineFeed.

Definition rowBreakText (b : RowBreak) : string :=
  match b with
  | LineFeed => String LF EmptyString
  | CarriageReturn => String CR EmptyString
  | CarriageReturnLineFeed => String CR (String LF EmptyString)
  end.

(** The text of rows of emitted cells, each after a row break of its
    own. *)
Fixpoint brokenRows (delimiter : ascii)
    (rows : list (RowBreak * list (string * Cell))) : string :=
  match rows with
  | [] => EmptyString
  | (b, row) :: rows' =>
      rowBreakText b
      +:+ (rowText delimiter row +:+ brokenRows delimiter rows')
  end.

(** The text after a field: nothing, or a delimiter, line feed or carriage
    return first. *)
Definition FieldEnd (delimiter : ascii) (rest : string) : Prop :=
  match rest with
  | EmptyString => True
  | String c _ => c = delimiter ∨ c = LF ∨ c = CR
  end.

(** The value of a cell that no parser reads. *)
Definition cellValue (cell : Cell) : Value :=
  match cell with
  | Some text => VString text
  | None => VUndefined
  end.

(** The record that [fromCSV] builds from the texts of a row under the
    keys of the columns, in their order. *)
Definition recordOf (keys : list string) (row : list string) : Obj :=
  zip keys (VString <$> row).

(** The text of rows of texts, each text between quotes. *)
Definition quotedText (delimiter : ascii) (rows : list (list string))
  : string :=
  String.concat (String LF EmptyString)
    ((λ row, String.concat (String delimiter EmptyString)
               (escapeCSV <$> row)) <$> rows).

(** The forms of a cell that the tokenizer reads, with the cell that it
    yields: the two forms that [toCSV] emits, and the empty text between
    quotes, for which it yields [undefined]. *)
Inductive ReadCell (delimiter : ascii) : string → Cell → Prop :=
| readQuoted (s : string) :
    nonEmpty s = true → ReadCell delimiter (escapeCSV s) (Some s)
| readBare (u : string) :
    safeText delimiter u = true → ReadCell delimiter u (Some u)
| readEmptyQuoted :
    ReadCell delimiter (String DQUOTE (String DQUOTE EmptyString)) None.

(** A row of cells that the tokenizer reads; the first one is not
    empty. *)
Definition RowRead (delimiter : ascii) (row : list (string * Cell)) : Prop :=
  match row with
  | [] => False
  | (t, cell) :: cells =>
      nonEmpty t = true ∧ ReadCell delimiter t cell
      ∧ Forall (λ tc, ReadCell delimiter tc.1 tc.2) cells
  end.

(** The text has no double quote. *)
Fixpoint noQuote (s : string) : bool :=
  match s with
  | EmptyString => true
  | String c s' => negb (Ascii.eqb c DQUOTE) && noQuote s'
  end.

(** The text starts with a double quote and has no other one: a quoted
    field that is never closed. *)
Definition startsUnclosed (s : string) : bool :=
  match s with
  | String c s' => Ascii.eqb c DQUOTE && noQuote s'
  | EmptyString => false
  end.


(** The text between two double quotes. *)
Definition quoted (s : string) : string :=
  String DQUOTE (s +:+ String DQUOTE EmptyString).







(** ** Example data *)

Definition keyColumn (k : string) : Column :=
  {| header := None; key := Some k; required := false;
     converter := None; parser := None; parseEmpty := false |}.

Definition requiredColumn (k : string) : Column :=
  {| header := None; key := Some k; required := true;
     converter := None; parser := None; parseEmpty := false |}.

(** A natural number below 10^21 as a JavaScript number, with all the
    digits of its numeral (final zeros too, which leaves its text as it
    is). *)
Definition natural (n : nat) : JsNumber :=
  Finite false (pretty n) (Z.of_nat (String.length (pretty n))).

(** A column whose converter and parser put the row and column numbers
    they are given into the value. *)
Definition positionColumn (k : string) : Column :=
  {| header := None; key := Some k; required := false;
     converter := Some (λ _ details,
       VNumber (natural (100 * c_row details + c_column details)));
     parser := Some (λ _ details,
       VNumber (natural (100 * p_row details + p_column details)));
     parseEmpty := false |}.

Definition withHeader : Options :=
  {| includeHeader := true; includeEmptyValues := false; delimiter := None |}.

Definition withEmptyValues : Options :=
  {| includeHeader := false; includeEmptyValues := true; delimiter := None |}.

(** ** Strings *)

Lemma app_empty_r (s : string) : s +:+ EmptyString = s.
Proof. induction s as [|c s IH]; [done|]. by rewrite <- IH at 2. Qed.

Lemma app_cons (c : ascii) (s t : string) :
  String c s +:+ t = String c (s +:+ t).
Proof. done. Qed.

Lemma app_assoc_str (s t u : string) : (s +:+ t) +:+ u = s +:+ (t +:+ u).
Proof.
  induction s as [|c s IH]; [done|]. rewrite !app_cons. by rewrite IH.
Qed.

Lemma length_app_str (s t : string) :
  String.length (s +:+ t) = String.length s + String.length t.
Proof. induction s as [|c s IH]; [done|]. rewrite app_cons. simpl. lia. Qed.

Lemma length_str_drop (n : nat) (s : string) :
  String.length (str_drop n s) = String.length s - n.
Proof.
  revert s. induction n as [|n IH]; intros s; simpl; [lia|].
  destruct s as [|c s]; simpl; [done|]. apply IH.
Qed.

(** ** Cell labels *)

Lemma columnLabel_step (n : nat) :
  columnLabel n =
    if decide (0 < n / 26)
    then columnLabel (n / 26 - 1) +:+ charAt letters (n mod 26)
    else charAt letters (n mod 26).
Proof.
  rewrite columnLabel_equation_1. unfold columnLabel_unfold_clause_1.
  by destruct (decide _).
Qed.

(** The letter at index [i] of the alphabet has value [i + 1]. *)
Lemma charAt_letters (i : nat) :
  i < 26 →
  ∃ c, charAt letters i = String c EmptyString
       ∧ isLetter c = true ∧ letterValue c = i + 1.
Proof.
  intros Hi.
  do 26 (destruct i as [|i]; [eexists; by repeat split|]).
  lia.
Qed.

(** Conversely, a letter is found in the alphabet at its value less one. *)
Lemma charAt_letterValue (c : ascii) :
  isLetter c = true →
  1 ≤ letterValue c ≤ 26
  ∧ charAt letters (letterValue c - 1) = String c EmptyString.
Proof.
  unfold isLetter, letterValue. intros H.
  apply andb_true_iff in H as [H1 H2].
  apply Nat.leb_le in H1, H2.
  pose proof (ascii_nat_embedding c) as E.
  remember (nat_of_ascii c) as n eqn:Hn. clear Hn. subst c.
  split; [lia|].
  do 65 (destruct n as [|n]; [lia|]).
  do 26 (destruct n as [|n]; [done|]).
  lia.
Qed.

Lemma bijectiveValue_snoc (acc : nat) (s : string) (c : ascii) :
  bijectiveValue acc (s +:+ String c EmptyString)
  = 26 * bijectiveValue acc s + letterValue c.
Proof.
  revert acc. induction s as [|a s IH]; intros acc; [done|].
  rewrite app_cons. simpl. apply IH.
Qed.

Lemma lettersOnly_snoc (s : string) (c : ascii) :
  lettersOnly (s +:+ String c EmptyString) = lettersOnly s && isLetter c.
Proof.
  induction s as [|a s IH].
  - simpl. by rewrite andb_true_r.
  - rewrite app_cons. simpl. rewrite IH. by rewrite andb_assoc.
Qed.

(** The label of a column consists of letters and denotes the column
    number plus one. *)
Lemma columnLabel_value (n : nat) :
  lettersOnly (columnLabel n) = true
  ∧ bijectiveValue 0 (columnLabel n) = n + 1.
Proof.
  induction n as [n IH] using lt_wf_ind.
  rewrite columnLabel_step.
  destruct (charAt_letters (n mod 26)) as (c & -> & Hc & Hv).
  { apply Nat.mod_upper_bound. lia. }
  pose proof (Nat.div_mod_eq n 26) as Hdm.
  destruct (decide (0 < n / 26)) as [Hpos|Hzero].
  - destruct (IH (n / 26 - 1)) as [IH1 IH2]; [lia|].
    rewrite lettersOnly_snoc, bijectiveValue_snoc, IH1, IH2, Hc, Hv.
    split; [done|lia].
  - simpl. rewrite Hc, Hv. split; [done|lia].
Qed.

(** Every numeral is the label of the column it denotes: with
    [columnLabel_value], the labels are exactly the non-empty letter
    strings, one per column. *)
Lemma columnLabel_of_value (s : string) (acc : nat) :
  lettersOnly s = true →
  (if decide (0 < bijectiveValue acc s)
   then columnLabel (bijectiveValue acc s - 1) else EmptyString)
  = (if decide (0 < acc) then columnLabel (acc - 1) else EmptyString) +:+ s.
Proof.
  revert acc. induction s as [|c s IH]; intros acc Hs;
    cbn [bijectiveValue].
  - by rewrite app_empty_r.
  - cbn [lettersOnly] in Hs. apply andb_true_iff in Hs as [Hc Hs].
    rewrite IH by done.
    destruct (charAt_letterValue c Hc) as [Hrange Hat].
    destruct (decide (0 < 26 * acc + letterValue c)) as [_|]; [|lia].
    rewrite (columnLabel_step (26 * acc + letterValue c - 1)).
    assert ((26 * acc + letterValue c - 1) / 26 = acc) as ->.
    { symmetry. apply (Nat.div_unique _ 26 acc (letterValue c - 1)); lia. }
    assert ((26 * acc + letterValue c - 1) mod 26 = letterValue c - 1) as ->.
    { symmetry. apply (Nat.mod_unique _ 26 acc (letterValue c - 1)); lia. }
    rewrite Hat.
    destruct (decide (0 < acc)).
    + by rewrite app_assoc_str.
    + done.
Qed.

(** C9: for all row and column numbers, the cell label is the bijective
    base-26 letter numeral of the column (letters A to Z only, denoting the
    column number plus one, and the only such numeral; its last letter is
    the one at index [column mod 26] and, when [column / 26] is positive, it
    is preceded by the numeral of [column / 26 - 1]) followed by the decimal
    rendering of the row number as it is supplied; the label of row 9,
    column 4 is E9. *)
Theorem cellLabel_bijective_base26 (rowNumber columnNumber : nat) :
  (∃ numeral,
     cellLabel rowNumber columnNumber = numeral +:+ pretty rowNumber
     ∧ lettersOnly numeral = true
     ∧ bijectiveValue 0 numeral = columnNumber + 1
     ∧ (∀ other, lettersOnly other = true →
                 bijectiveValue 0 other = columnNumber + 1 → other = numeral)
     ∧ numeral
       = (if decide (0 < columnNumber / 26)
          then columnLabel (columnNumber / 26 - 1) else EmptyString)
         +:+ charAt letters (columnNumber mod 26))
  ∧ cellLabel 9 4 = "E9".
Proof.
  split; [|done].
  exists (columnLabel columnNumber).
  destruct (columnLabel_value columnNumber) as [Hl Hv].
  split_and!; try done.
  - intros other Ho Hov.
    pose proof (columnLabel_of_value other 0 Ho) as H.
    rewrite Hov in H.
    destruct (decide (0 < columnNumber + 1)); [|lia].
    destruct (decide (0 < 0)); [lia|].
    replace (columnNumber + 1 - 1) with columnNumber in H by lia.
    done.
  - rewrite columnLabel_step at 1. by destruct (decide _).
Qed.

(** C8, as the code has it: the label of row 0, column 0 is A0, the row
    number being rendered as it is supplied. *)
Theorem cellLabel_0_0 : cellLabel 0 0 = "A0".
Proof. done. Qed.

(** C8, as stated, fails: the label of row 0, column 0 is not A1. *)
Lemma cellLabel_0_0_not_A1 : cellLabel 0 0 ≠ "A1".
Proof. done. Qed.

(** ** The escaping rule of toCSV *)












(** [Number::toString] on some numbers: 5.29, 529, 100, 1e21, 1.5e-7,
    0.000001 and -12.5. *)
Lemma numberToString_examples :
  numberToString (Finite false "529" 1) = "5.29"
  ∧ numberToString (Finite false "529" 3) = "529"
  ∧ numberToString (Finite false "1" 3) = "100"
  ∧ numberToString (Finite false "1" 22) = "1e+21"
  ∧ numberToString (Finite false "15" (-6)) = "1.5e-7"
  ∧ numberToString (Finite false "1" (-5)) = "0.000001"
  ∧ numberToString (Finite true "125" 2) = "-12.5".
Proof. by split_and!. Qed.

(** ** The text of a number denotes the number *)




















(** ** The tokenizer on particular texts *)

Lemma exec_empty_text (delimiter : ascii) :
  exec delimiter EmptyString 0
  = Some {| matches1 := EmptyString; matches2 := None;
            matches3 := Some EmptyString; endIndex := 0 |}.
Proof. done. Qed.

(** A match that leaves [lastIndex] where it was is found again by the
    next call of [exec], so the loop does not end. *)
Lemma csvToArrayLoop_stuck (delimiter : ascii) (str : string)
    (lastIndex : nat) (m : Match) :
  exec delimiter str lastIndex = Some m →
  endIndex m = lastIndex →
  ∀ fuel results, csvToArrayLoop fuel delimiter str lastIndex results = None.
Proof.
  intros Hexec Hend fuel. induction fuel as [|fuel IH]; intros results.
  - done.
  - simpl. rewrite Hexec, Hend. apply IH.
Qed.

(** C2, on the code: the tokenizer does not return on the empty text,
    whatever the delimiter and however many iterations are allowed: the
    first match is empty, [lastIndex] stays 0, and the same match is found
    again.  The same happens on a text that starts with a quote which is
    never closed, and so [fromCSV] does not return on the empty text when
    it is given columns. *)
Theorem csvToArray_empty_text_never_returns :
  (∀ fuel delimiter, csvToArray fuel EmptyString delimiter = None)
  ∧ (∀ fuel, csvToArray fuel (js "'abc") "," = None)
  ∧ (∀ fuel columns options,
       fromCSV fuel EmptyString (Some columns) options = None).
Proof.
  assert (∀ fuel delimiter, csvToArray fuel EmptyString delimiter = None)
    as Hempty.
  { intros fuel delimiter. unfold csvToArray.
    by apply (csvToArrayLoop_stuck _ _ _ _ (exec_empty_text delimiter)). }
  split_and!; [done| |].
  - intros fuel. unfold csvToArray. by eapply csvToArrayLoop_stuck.
  - intros fuel columns options. unfold fromCSV.
    change (preprocess EmptyString) with EmptyString. cbn iota.
    by rewrite Hempty.
Qed.

(** C6, on the code: on the text [,a] with delimiter [,] the tokenizer
    returns one row with the single cell [a]: the delimiter at index 0 is
    taken by the first alternative of group 1, so no field is emitted for
    the start of the text.  A text that starts with a line feed gets an
    empty first row.  So [fromCSV] reads the cell [a] of [,a] into the
    first column. *)
Theorem csvToArray_leading_delimiter :
  (∀ n, csvToArray (2 + n) ",a" "," = Some [[Some "a"]])
  ∧ (∀ n, csvToArray (2 + n) (js "$a") "," = Some [[]; [Some "a"]])
  ∧ (∀ n, fromCSV (2 + n) ",a" (Some [ColumnName "x"; ColumnName "y"])
            noOptions
          = Some (Return [[("x", VString "a")]])).
Proof. split_and!; intros n; reflexivity. Qed.

(** ** The pre-processing of fromCSV *)

Lemma collapseLineBreaks_only (inRun : bool) (s : string) :
  lineBreaksOnly s = true →
  collapseLineBreaks inRun s
  = if inRun then EmptyString
    else if nonEmpty s then String LF EmptyString else EmptyString.
Proof.
  revert inRun. induction s as [|c s IH]; intros inRun H.
  - by destruct inRun.
  - cbn [lineBreaksOnly] in H. apply andb_true_iff in H as [Hc Hs].
    cbn [collapseLineBreaks nonEmpty]. rewrite Hc.
    destruct inRun.
    + by rewrite IH.
    + destruct s as [|c' s']; [done|].
      cbn [lineBreaksOnly] in Hs. apply andb_true_iff in Hs as [Hc' Hs'].
      rewrite Hc'. rewrite IH; [done|].
      cbn [lineBreaksOnly]. by rewrite Hc', Hs'.
Qed.

Lemma preprocess_lineBreaksOnly (s : string) :
  lineBreaksOnly s = true → preprocess s = EmptyString.
Proof.
  intros H. unfold preprocess. rewrite collapseLineBreaks_only by done.
  by destruct (nonEmpty s).
Qed.

(** C10: when the columns argument is absent or null and the text is empty
    or consists of line breaks only, the pre-processed text is empty and
    [fromCSV] throws a type error, whatever the options; it does so before
    the tokenizer is called, and it returns no record sequence. *)
Theorem fromCSV_no_columns_empty_text (fuel : nat) (csvStr : string)
    (options : Options) :
  lineBreaksOnly csvStr = true →
  preprocess csvStr = EmptyString
  ∧ fromCSV fuel csvStr None options = Some (Throw TypeError).
Proof.
  intros H. apply preprocess_lineBreaksOnly in H.
  split; [done|]. unfold fromCSV. by rewrite H.
Qed.

Lemma fromCSV_no_columns_empty_text_witness :
  lineBreaksOnly (js "$$$") = true
  ∧ preprocess (js "$$$") = EmptyString
  ∧ fromCSV 0 (js "$$$") None noOptions = Some (Throw TypeError).
Proof.
  split; [reflexivity|].
  apply (fromCSV_no_columns_empty_text 0 (js "$$$") noOptions).
  reflexivity.
Defined.

(** C4, on the code: of a text that begins and ends with a line break only
    the leading line break is removed, the pattern of the second [replace]
    not being global; the trailing one yields a row with one empty cell and
    so a trailing empty record. *)
Theorem fromCSV_trailing_line_break_kept :
  preprocess (js "$a$") = js "a$"
  ∧ (∀ n, fromCSV (3 + n) (js "$a$") None noOptions
          = Some (Return [[("col1", VString "a")]; []])).
Proof. split; [|intros n]; reflexivity. Qed.

(** The blank lines between data lines are dropped: the text of the test
    of the repository decodes to three records. *)
Lemma fromCSV_ignores_empty_lines :
  ∀ n,
    length <$>
      (match fromCSV (7 + n)
               (js "'Cat Chow',5.29$$$$$'Pizza',6.99$$$'Bowl',2.69")
               None noOptions with
       | Some (Return rows) => Some rows
       | _ => None
       end)
    = Some 3.
Proof. intros n. reflexivity. Qed.

(** ** Records *)

Lemma fieldOf_storeField_eq (obj : Obj) (key : string) (value : Value) :
  fieldOf (storeField obj key value) key = Some value.
Proof.
  induction obj as [|[k v] obj IH]; cbn [storeField fieldOf].
  - by rewrite String.eqb_refl.
  - destruct (String.eqb k key) eqn:E; cbn [fieldOf]; by rewrite E.
Qed.

Lemma fieldOf_storeField_ne (obj : Obj) (key key' : string) (value : Value) :
  key ≠ key' →
  fieldOf (storeField obj key value) key' = fieldOf obj key'.
Proof.
  intros Hne. induction obj as [|[k v] obj IH]; cbn [storeField fieldOf].
  - destruct (String.eqb key key') eqn:E; [|done].
    by apply String.eqb_eq in E.
  - destruct (String.eqb k key) eqn:E; cbn [fieldOf].
    + apply String.eqb_eq in E as ->.
      destruct (String.eqb key key') eqn:E'; [|done].
      by apply String.eqb_eq in E'.
    + by rewrite IH.
Qed.

Lemma setField_store (obj : Obj) (key : string) (value : Value) :
  key ≠ "__proto__" → setField obj key value = storeField obj key value.
Proof. intros H%String.eqb_neq. unfold setField. by rewrite H. Qed.

Lemma setField_proto (obj : Obj) (key : string) (value : Value) :
  key = "__proto__" → setField obj key value = obj.
Proof. intros ->. done. Qed.

Lemma fieldOf_setField_eq (obj : Obj) (key : string) (value : Value) :
  key ≠ "__proto__" →
  fieldOf (setField obj key value) key = Some value.
Proof.
  intros H. rewrite setField_store by done. apply fieldOf_storeField_eq.
Qed.

Lemma fieldOf_setField_ne (obj : Obj) (key key' : string) (value : Value) :
  key ≠ key' →
  fieldOf (setField obj key value) key' = fieldOf obj key'.
Proof.
  intros Hne. destruct (decide (key = "__proto__")) as [Hp|Hp].
  - by rewrite setField_proto.
  - rewrite setField_store by done. by apply fieldOf_storeField_ne.
Qed.

(** ** The steps of fromCSV *)

Lemma processColumn_required_empty options line rowIndex result column
    columnIndex k :
  RequiredEmpty options line rowIndex column columnIndex k →
  fromCSV_processColumn options line rowIndex result (Some column) columnIndex
  = Throw (requiredMessage k).
Proof.
  intros (Hk & Hne & Hreq & Hemp). unfold fromCSV_processColumn.
  by rewrite Hk, Hne, Hreq, Hemp.
Qed.

Lemma processColumn_throw_inv options line rowIndex result column
    columnIndex e :
  fromCSV_processColumn options line rowIndex result column columnIndex
  = Throw e →
  ∃ col k, column = Some col
           ∧ RequiredEmpty options line rowIndex col columnIndex k
           ∧ e = requiredMessage k.
Proof.
  unfold fromCSV_processColumn, RequiredEmpty.
  destruct column as [col|]; [|done].
  destruct (key col) as [k|] eqn:Hk; [|done].
  destruct (nonEmpty k) eqn:Hne; [|done]. simpl.
  destruct (required col) eqn:Hreq; simpl.
  - destruct (isEmpty _) eqn:Hemp.
    + intros [= <-]. by exists col, k.
    + by destruct (includeEmptyValues options || negb false).
  - by destruct (includeEmptyValues options || _).
Qed.

(** What a step that returns does to the record. *)
Lemma processColumn_return_inv options line rowIndex result column
    columnIndex result' :
  fromCSV_processColumn options line rowIndex result column columnIndex
  = Return result' →
  result' = result
  ∨ ∃ col k,
      column = Some col ∧ key col = Some k ∧ nonEmpty k = true
      ∧ result' = setField result k
                    (parsedValue col k (startIndexOf options)
                       (cellAt line columnIndex) rowIndex columnIndex).
Proof.
  unfold fromCSV_processColumn.
  destruct column as [col|]; [|intros [= <-]; by left].
  destruct (key col) as [k|] eqn:Hk; [|intros [= <-]; by left].
  destruct (nonEmpty k) eqn:Hne; [|intros [= <-]; by left]. simpl.
  destruct (required col && isEmpty _); [done|].
  destruct (includeEmptyValues options || _).
  - intros [= <-]. right. by exists col, k.
  - intros [= <-]. by left.
Qed.

Lemma reduceColumns_app options line rowIndex pre post columnIndex result :
  reduceColumns options line rowIndex (pre ++ post) columnIndex result
  = match reduceColumns options line rowIndex pre columnIndex result with
    | Return result' =>
        reduceColumns options line rowIndex post (columnIndex + length pre)
          result'
    | Throw e => Throw e
    end.
Proof.
  revert columnIndex result.
  induction pre as [|column pre IH]; intros columnIndex result; simpl.
  - by rewrite Nat.add_0_r.
  - destruct (fromCSV_processColumn _ _ _ _ _ _); [|done].
    rewrite IH. by replace (S columnIndex + length pre)
      with (columnIndex + S (length pre)) by lia.
Qed.

(** A column that is required and empty makes the fold throw, at that
    column or at an earlier one of the same kind. *)
Lemma reduceColumns_required_empty options line rowIndex columns c column k :
  columns !! c = Some (Some column) →
  ∀ columnIndex result,
    RequiredEmpty options line rowIndex column (columnIndex + c) k →
    ∃ c' column' k',
      c' ≤ c ∧ columns !! c' = Some (Some column')
      ∧ RequiredEmpty options line rowIndex column' (columnIndex + c') k'
      ∧ reduceColumns options line rowIndex columns columnIndex result
        = Throw (requiredMessage k').
Proof.
  revert c. induction columns as [|head columns IH];
    intros c Hc columnIndex result Hbad; [done|].
  cbn [reduceColumns].
  destruct (fromCSV_processColumn options line rowIndex result head
              columnIndex) as [result'|e] eqn:Hstep.
  - destruct c as [|c].
    + injection Hc as ->. rewrite Nat.add_0_r in Hbad.
      by rewrite (processColumn_required_empty _ _ _ _ _ _ _ Hbad) in Hstep.
    + simpl in Hc.
      replace (columnIndex + S c) with (S columnIndex + c) in Hbad by lia.
      destruct (IH c Hc (S columnIndex) result' Hbad)
        as (c' & column' & k' & Hle & Hc' & Hbad' & Hthrow).
      exists (S c'), column', k'.
      replace (columnIndex + S c') with (S columnIndex + c') by lia.
      split_and!; try done. lia.
  - apply processColumn_throw_inv in Hstep as (col & k' & -> & Hbad' & ->).
    exists 0, col, k'. rewrite Nat.add_0_r. split_and!; try done. lia.
Qed.

(** A fold that throws does so at a column that is required and empty. *)
Lemma reduceColumns_throw_inv options line rowIndex columns columnIndex
    result e :
  reduceColumns options line rowIndex columns columnIndex result = Throw e →
  ∃ c' column' k',
    columns !! c' = Some (Some column')
    ∧ RequiredEmpty options line rowIndex column' (columnIndex + c') k'
    ∧ e = requiredMessage k'.
Proof.
  revert columnIndex result.
  induction columns as [|head columns IH]; intros columnIndex result;
    [done|].
  cbn [reduceColumns].
  destruct (fromCSV_processColumn options line rowIndex result head
              columnIndex) as [result'|e'] eqn:Hstep.
  - intros (c' & column' & k' & Hc' & Hbad' & ->)%IH.
    exists (S c'), column', k'.
    by replace (columnIndex + S c') with (S columnIndex + c') by lia.
  - intros [= <-].
    apply processColumn_throw_inv in Hstep as (col & k' & -> & Hbad' & ->).
    exists 0, col, k'. by rewrite Nat.add_0_r.
Qed.

Lemma mapRows_required_empty columns options csvLines r line c column k :
  csvLines !! r = Some line →
  columns !! c = Some (Some column) →
  ∀ rowIndex,
    RequiredEmpty options line (rowIndex + r) column c k →
    ∃ r' line' c' column' k',
      (r' < r ∨ (r' = r ∧ c' ≤ c))
      ∧ csvLines !! r' = Some line' ∧ columns !! c' = Some (Some column')
      ∧ RequiredEmpty options line' (rowIndex + r') column' c' k'
      ∧ mapRows columns options csvLines rowIndex
        = Throw (requiredMessage k').
Proof.
  intros Hr Hc. revert r Hr.
  induction csvLines as [|head csvLines IH]; intros r Hr rowIndex Hbad;
    [done|].
  cbn [mapRows]. unfold fromCSV_getRow.
  destruct (reduceColumns options head rowIndex columns 0 [])
    as [row|e] eqn:Hrow.
  - destruct r as [|r].
    + injection Hr as ->. rewrite Nat.add_0_r in Hbad.
      destruct (reduceColumns_required_empty options line rowIndex columns
                  c column k Hc 0 [] Hbad) as (? & ? & ? & _ & _ & _ & H).
      congruence.
    + simpl in Hr.
      replace (rowIndex + S r) with (S rowIndex + r) in Hbad by lia.
      destruct (IH r Hr (S rowIndex) Hbad)
        as (r' & line' & c' & column' & k' & Hle & Hr' & Hc' & Hbad' & ->).
      exists (S r'), line', c', column', k'.
      replace (rowIndex + S r') with (S rowIndex + r') by lia.
      split_and!; try done. lia.
  - destruct r as [|r].
    + injection Hr as ->. rewrite Nat.add_0_r in Hbad.
      destruct (reduceColumns_required_empty options line rowIndex columns
                  c column k Hc 0 [] Hbad)
        as (c' & column' & k' & Hle & Hc' & Hbad' & H).
      exists 0, line, c', column', k'. rewrite Nat.add_0_r.
      split_and!; try done; [right; lia|congruence].
    + apply reduceColumns_throw_inv in Hrow
        as (c' & column' & k' & Hc' & Hbad' & ->).
      exists 0, head, c', column', k'. rewrite Nat.add_0_r.
      split_and!; try done. left. lia.
Qed.

(** C3: when the tokenizer has returned and some column with a (non-empty)
    key is required and has an empty value after parsing in some data row
    (null, undefined or the empty string; undefined also when the row is
    shorter than the column list), [fromCSV] throws the error that names
    the key of such a column, the first one met in row order, and returns no
    record sequence. *)
Theorem fromCSV_required_column_empty (fuel : nat) (csvStr : string)
    (columns : list ColumnInput) (options : Options)
    (results : list (list Cell)) (r : nat) (line : list Cell) (c : nat)
    (column : Column) (k : string) :
  csvToArray fuel (preprocess csvStr) (delimiterOf options) = Some results →
  drop (startIndexOf options) results !! r = Some line →
  (detectColumn <$> columns) !! c = Some (Some column) →
  key column = Some k → nonEmpty k = true → required column = true →
  isEmpty (parsedValue column k (startIndexOf options) (cellAt line c) r c)
  = true →
  ∃ r' line' c' column' k',
    fromCSV fuel csvStr (Some columns) options
    = Some (Throw (Error ("Required column " +:+ k' +:+ " is empty")))
    ∧ (r' < r ∨ (r' = r ∧ c' ≤ c))
    ∧ drop (startIndexOf options) results !! r' = Some line'
    ∧ (detectColumn <$> columns) !! c' = Some (Some column')
    ∧ key column' = Some k' ∧ nonEmpty k' = true ∧ required column' = true
    ∧ isEmpty (parsedValue column' k' (startIndexOf options)
                 (cellAt line' c') r' c') = true.
Proof.
  intros Htok Hr Hc Hk Hne Hreq Hemp.
  destruct (mapRows_required_empty (detectColumn <$> columns) options
              (drop (startIndexOf options) results) r line c column k
              Hr Hc 0)
    as (r' & line' & c' & column' & k' & Hle & Hr' & Hc' & Hbad' & Hthrow).
  { by repeat split. }
  destruct Hbad' as (Hk' & Hne' & Hreq' & Hemp').
  exists r', line', c', column', k'.
  unfold fromCSV. rewrite Htok, Hthrow. by split_and!.
Qed.

Lemma fromCSV_required_column_empty_witness :
  ∃ r' line' c' column' k',
    fromCSV 5 "a" (Some [ColumnName "x"; ColumnObject (requiredColumn "y")])
      noOptions
    = Some (Throw (Error ("Required column " +:+ k' +:+ " is empty")))
    ∧ (r' < 0 ∨ (r' = 0 ∧ c' ≤ 1))
    ∧ drop (startIndexOf noOptions) [[Some "a"]] !! r' = Some line'
    ∧ (detectColumn <$> [ColumnName "x"; ColumnObject (requiredColumn "y")])
        !! c' = Some (Some column')
    ∧ key column' = Some k' ∧ nonEmpty k' = true ∧ required column' = true
    ∧ isEmpty (parsedValue column' k' (startIndexOf noOptions)
                 (cellAt line' c') r' c') = true.
Proof.
  apply (fromCSV_required_column_empty 5 "a"
           [ColumnName "x"; ColumnObject (requiredColumn "y")] noOptions
           [[Some "a"]] 0 [Some "a"] 1 (requiredColumn "y") "y");
    reflexivity.
Defined.

(** ** The context passed to converters and parsers *)

Lemma mapRows_lookup columns options csvLines rowIndex rows r line :
  mapRows columns options csvLines rowIndex = Return rows →
  csvLines !! r = Some line →
  ∃ row, rows !! r = Some row
         ∧ fromCSV_getRow columns options line (rowIndex + r) = Return row.
Proof.
  revert rowIndex rows r.
  induction csvLines as [|head csvLines IH]; intros rowIndex rows r;
    [done|].
  cbn [mapRows].
  destruct (fromCSV_getRow columns options head rowIndex) as [row|] eqn:Hrow;
    [|done].
  destruct (mapRows columns options csvLines (S rowIndex)) as [rows'|] eqn:Hrows;
    [|done].
  intros [= <-] Hr. destruct r as [|r].
  - injection Hr as ->. exists row. by rewrite Nat.add_0_r.
  - simpl in Hr. destruct (IH _ _ _ Hrows Hr) as (row' & Hrow' & Hget).
    exists row'. split; [done|].
    by replace (rowIndex + S r) with (S rowIndex + r) by lia.
Qed.

(** Later columns with other keys leave a field as it is. *)
Lemma reduceColumns_other_keys options line rowIndex columns columnIndex
    result result' k :
  reduceColumns options line rowIndex columns columnIndex result
  = Return result' →
  (∀ c column, columns !! c = Some (Some column) → key column ≠ Some k) →
  fieldOf result' k = fieldOf result k.
Proof.
  revert columnIndex result.
  induction columns as [|head columns IH]; intros columnIndex result.
  - by intros [= <-].
  - cbn [reduceColumns].
    destruct (fromCSV_processColumn options line rowIndex result head
                columnIndex) as [result1|] eqn:Hstep; [|done].
    intros Hrest Hkeys.
    rewrite (IH _ _ Hrest) by (intros c column; apply (Hkeys (S c))).
    apply processColumn_return_inv in Hstep
      as [->|(col & k' & -> & Hk' & _ & ->)]; [done|].
    apply fieldOf_setField_ne. intros ->. by apply (Hkeys 0 col).
Qed.

(** C7: in [toCSV] the converter of column [c] is called for record [r]
    with the details [row = r + headerOffset + 1] and [column = c], where
    [headerOffset] is 1 with a header line and 0 without, on the value
    that [obj[key]] reads, when no column reads a property that a record
    inherits; the cell it yields is cell [c] of line [r + headerOffset] of
    the output, counted from 0.  In [fromCSV] the parser of column [c] is
    called for data row [r] with [row = r + headerOffset + 1] and
    [column = c]; its value is what the record of that row holds under the
    column's key (when the value is not empty, the key is not [__proto__],
    which an assignment does not store, and no later column has the same
    key). *)
Theorem converter_parser_details :
  (∀ rows columns options r obj c column converter',
     rows !! r = Some obj →
     (detectColumn <$> columns) !! c = Some (Some column) →
     converter column = Some converter' →
     OwnReads rows (detectColumn <$> columns) →
     let headerOffset := if includeHeader options then 1 else 0 in
     let details :=
       {| c_obj := obj; c_key := key column;
          c_row := r + headerOffset + 1; c_column := c |} in
     let cells := toCSV_cells (detectColumn <$> columns) options obj r in
     toCSV rows (Some columns) options
     = String.concat (String LF EmptyString)
         (toCSV_lines rows (detectColumn <$> columns) options)
     ∧ toCSV_lines rows (detectColumn <$> columns) options
         !! (r + headerOffset)
       = Some (join (String (delimiterOf options) EmptyString) cells)
     ∧ cells !! c
       = Some (finishCell
                 (converter' (getField obj (propertyName (key column)))
                    details)))
  ∧ (∀ fuel csvStr columns options results rows r line c column k parser'
       text,
       csvToArray fuel (preprocess csvStr) (delimiterOf options)
       = Some results →
       fromCSV fuel csvStr (Some columns) options = Some (Return rows) →
       drop (startIndexOf options) results !! r = Some line →
       (detectColumn <$> columns) !! c = Some (Some column) →
       key column = Some k → nonEmpty k = true → k ≠ "__proto__" →
       parser column = Some parser' →
       cellAt line c = Some text →
       parseEmpty column || nonEmpty text = true →
       let headerOffset := if includeHeader options then 1 else 0 in
       let details :=
         {| p_key := k; p_row := r + headerOffset + 1; p_column := c |} in
       isEmpty (parser' text details) = false →
       (∀ c' column', c < c' →
          (detectColumn <$> columns) !! c' = Some (Some column') →
          key column' ≠ Some k) →
       ∃ row, rows !! r = Some row
              ∧ fieldOf row k = Some (parser' text details)).
Proof.
  split.
  - intros rows columns options r obj c column converter' Hr Hc Hconv _
      headerOffset details cells.
    split; [done|]. split.
    + unfold toCSV_lines. fold headerOffset. subst headerOffset.
      destruct (includeHeader options).
      * replace (r + 1) with (S r) by lia. simpl.
        by rewrite list_lookup_imap, Hr.
      * rewrite Nat.add_0_r. by rewrite list_lookup_imap, Hr.
    + subst cells. unfold toCSV_cells. rewrite list_lookup_imap, Hc. simpl.
      unfold convertedValue. rewrite Hconv. done.
  - intros fuel csvStr columns options results rows r line c column k parser'
      text Htok Hfrom Hr Hc Hk Hne Hproto Hparser Hcell Hcan headerOffset
      details Hvalue Hlater.
    unfold fromCSV in Hfrom. rewrite Htok in Hfrom.
    injection Hfrom as Hrows.
    destruct (mapRows_lookup _ _ _ _ _ _ _ Hrows Hr) as (row & Hrow & Hget).
    exists row. split; [done|].
    unfold fromCSV_getRow in Hget. simpl in Hget.
    destruct (list_elem_of_split_length _ _ _ Hc)
      as (pre & post & Hcols & Hlen).
    rewrite Hcols, reduceColumns_app in Hget.
    destruct (reduceColumns options line r pre 0 []) as [result1|] eqn:Hpre;
      [|done].
    cbn [reduceColumns] in Hget. cbn [Nat.add] in Hget.
    rewrite <- Hlen in Hget.
    assert (parsedValue column k (startIndexOf options) (cellAt line c) r c
            = parser' text details) as Hvalue'.
    { unfold parsedValue. by rewrite Hcell, Hparser, Hcan. }
    unfold fromCSV_processColumn in Hget.
    rewrite Hk, Hne, Hvalue', Hvalue in Hget. cbn [negb] in Hget.
    rewrite andb_false_r, orb_true_r in Hget.
    rewrite (reduceColumns_other_keys _ _ _ _ _ _ _ _ Hget).
    + by apply fieldOf_setField_eq.
    + intros c' column' Hc'. apply (Hlater (S (c + c'))); [lia|].
      rewrite Hcols, Hlen.
      by rewrite lookup_app_r, (Nat.sub_succ_l _ _), Nat.add_comm,
        Nat.add_sub by lia.
Qed.

Lemma converter_parser_details_witness :
  (toCSV [[("name", VString "a")]; [("name", VString "b")]]
     (Some [ColumnName "name"; ColumnObject (positionColumn "at")]) withHeader
   = js ",$'a',201$'b',301"
   ∧ toCSV_cells
       (detectColumn
          <$> [ColumnName "name"; ColumnObject (positionColumn "at")])
       withHeader [("name", VString "b")] 1 !! 1
     = Some (finishCell
               ((λ _ details,
                   VNumber
                     (natural (100 * c_row details + c_column details)))
                  (getField [("name", VString "b")] "at")
                  {| c_obj := [("name", VString "b")]; c_key := Some "at";
                     c_row := 1 + 1 + 1; c_column := 1 |})))
  ∧ ∃ row,
      [[("name", VString "a"); ("at", VNumber (natural 201))];
       [("name", VString "c"); ("at", VNumber (natural 301))]] !! 1
      = Some row
      ∧ fieldOf row "at" = Some (VNumber (natural 301)).
Proof.
  split.
  - destruct (proj1 converter_parser_details
                [[("name", VString "a")]; [("name", VString "b")]]
                [ColumnName "name"; ColumnObject (positionColumn "at")]
                withHeader 1 [("name", VString "b")] 1 (positionColumn "at")
                (λ _ details,
                   VNumber (natural (100 * c_row details + c_column details)))
                eq_refl eq_refl eq_refl) as (H1 & H2 & H3).
    { intros r obj c column Hr Hc. right.
      destruct c as [|[|c]]; [| |done]; injection Hc as <-; reflexivity. }
    split; [reflexivity|exact H3].
  - apply (proj2 converter_parser_details 9 (js "x,y$a,b$c,d")
             [ColumnName "name"; ColumnObject (positionColumn "at")]
             withHeader
             [[Some "x"; Some "y"]; [Some "a"; Some "b"]; [Some "c"; Some "d"]]
             [[("name", VString "a"); ("at", VNumber (natural 201))];
              [("name", VString "c"); ("at", VNumber (natural 301))]]
             1 [Some "c"; Some "d"] 1 (positionColumn "at") "at"
             (λ _ details,
                VNumber (natural (100 * p_row details + p_column details)))
             "d"); try reflexivity.
    + done.
    + intros c' column' Hlt Hc'.
      destruct c' as [|[|c']]; [lia|lia|done].
Defined.

(** ** The tokenizer on well-formed text *)

Lemma str_drop_app_length (a b : string) :
  str_drop (String.length a) (a +:+ b) = b.
Proof. induction a as [|c a IH]; [done|]. rewrite app_cons. apply IH. Qed.

Lemma str_drop_add (n m : nat) (s : string) :
  str_drop (n + m) s = str_drop m (str_drop n s).
Proof.
  revert s. induction n as [|n IH]; intros s; [done|].
  destruct s as [|c s]; simpl; [by destruct m|]. apply IH.
Qed.

Lemma unescape_doubleQuotes (s : string) :
  unescapeQuotes (doubleQuotes s) = s.
Proof.
  induction s as [|c s IH]; [done|]. simpl.
  destruct (Ascii.eqb c DQUOTE) eqn:E.
  - apply Ascii.eqb_eq in E as ->. simpl. by rewrite IH.
  - simpl. rewrite E. destruct (doubleQuotes s); by rewrite <- IH.
Qed.

Lemma nonEmpty_doubleQuotes (s : string) :
  nonEmpty (doubleQuotes s) = nonEmpty s.
Proof. destruct s as [|c s]; [done|]. simpl. by destruct (Ascii.eqb c DQUOTE). Qed.

Lemma matchQuoted_doubleQuotes (s rest : string) :
  match rest with
  | String c _ => c ≠ DQUOTE
  | EmptyString => True
  end →
  matchQuoted (doubleQuotes s +:+ String DQUOTE rest)
  = Some (doubleQuotes s, rest).
Proof.
  intros Hrest. induction s as [|c s IH].
  - change (EmptyString +:+ ?x) with x. simpl.
    destruct rest as [|c' rest']; [done|].
    destruct (Ascii.eqb c' DQUOTE) eqn:E; [|done].
    by apply Ascii.eqb_eq in E.
  - simpl. destruct (Ascii.eqb c DQUOTE) eqn:E.
    + rewrite !app_cons. cbn [matchQuoted].
      change (Ascii.eqb DQUOTE DQUOTE) with true. cbn iota.
      by rewrite IH.
    + rewrite app_cons. cbn [matchQuoted]. rewrite E. by rewrite IH.
Qed.

Lemma AfterField_unquotedChar (delimiter c : ascii) (rest : string) :
  AfterField delimiter (String c rest) → unquotedChar delimiter c = false.
Proof.
  unfold unquotedChar. intros [->| ->].
  - rewrite Ascii.eqb_refl. by rewrite !andb_false_r.
  - by rewrite !andb_false_r.
Qed.

Lemma matchUnquoted_safeText (delimiter : ascii) (u rest : string) :
  safeText delimiter u = true →
  AfterField delimiter rest →
  matchUnquoted delimiter (u +:+ rest) = (u, rest).
Proof.
  intros Hu Hrest. induction u as [|c u IH].
  - change (EmptyString +:+ rest) with rest.
    destruct rest as [|c rest]; [done|]. simpl.
    by rewrite (AfterField_unquotedChar _ _ _ Hrest).
  - cbn [safeText] in Hu. apply andb_true_iff in Hu as [Hc Hu].
    rewrite app_cons. cbn [matchUnquoted]. rewrite Hc. by rewrite IH.
Qed.

Lemma pushToLast_snoc {A} (pre : list (list A)) (cur : list A) (v : A) :
  pushToLast (pre ++ [cur]) v = pre ++ [cur ++ [v]].
Proof.
  induction pre as [|p pre IH]; [done|]. simpl.
  destruct (pre ++ [cur]) eqn:E; [by destruct pre|]. by rewrite <- IH.
Qed.

Lemma unquotedChar_inv (delimiter c : ascii) :
  unquotedChar delimiter c = true →
  c ≠ DQUOTE ∧ c ≠ delimiter ∧ c ≠ CR ∧ c ≠ LF.
Proof.
  unfold unquotedChar. rewrite !andb_true_iff, !negb_true_iff.
  intros [[[H1 H2] H3] H4]. by rewrite !Ascii.eqb_neq in *.
Qed.

#[local] Arguments Ascii.eqb : simpl never.

(** The pattern at a field of one of the two forms. *)
Lemma matchAt_field (delimiter : ascii) (index : nat) (sep : Separator)
    (t : string) (cell : Cell) (rest : string) :
  DelimiterOK delimiter →
  CellForm delimiter t cell →
  AfterField delimiter rest →
  (sep = AtStart → index = 0 ∧ nonEmpty t = true) →
  ∃ m,
    matchAt delimiter index (separatorText delimiter sep +:+ t +:+ rest)
    = Some m
    ∧ matches1 m = separatorText delimiter sep
    ∧ matchValue m = cell
    ∧ endIndex m
      = index + String.length (separatorText delimiter sep +:+ t).
Proof.
  intros (_ & HdQ & HdCR & HdLF) Hform Hrest Hstart.
  assert (matchDelimiter delimiter index
            (separatorText delimiter sep +:+ t +:+ rest)
          = Some (separatorText delimiter sep, t +:+ rest)) as Hdelim.
  { destruct sep; unfold separatorText.
    - destruct (Hstart eq_refl) as [-> Hne].
      change (EmptyString +:+ ?x) with x.
      destruct Hform as [s Hs|u Hu].
      + unfold escapeCSV. rewrite app_cons. unfold matchDelimiter.
        assert (Ascii.eqb DQUOTE delimiter = false) as ->; [|done].
        by apply Ascii.eqb_neq.
      + destruct u as [|c u]; [done|]. rewrite app_cons.
        cbn [safeText] in Hu. apply andb_true_iff in Hu as [Hc _].
        apply unquotedChar_inv in Hc as (_ & H2 & H3 & H4).
        unfold matchDelimiter.
        apply Ascii.eqb_neq in H2, H3, H4. by rewrite H2, H3, H4.
    - rewrite app_cons. unfold matchDelimiter.
      by rewrite Ascii.eqb_refl.
    - rewrite app_cons. unfold matchDelimiter.
      assert (Ascii.eqb LF delimiter = false) as ->.
      { by apply Ascii.eqb_neq. }
      done. }
  unfold matchAt. rewrite Hdelim.
  assert (String.length (separatorText delimiter sep +:+ t +:+ rest)
          - String.length rest
          = String.length (separatorText delimiter sep +:+ t)) as Hlen.
  { rewrite !length_app_str. lia. }
  destruct Hform as [s Hs|u Hu].
  - unfold escapeCSV at 1. rewrite app_cons. rewrite Ascii.eqb_refl.
    rewrite app_assoc_str, app_cons.
    change (EmptyString +:+ rest) with rest.
    rewrite matchQuoted_doubleQuotes.
    + eexists. split; [done|]. cbn [matches1 endIndex]. split; [done|].
      split.
      * unfold matchValue. cbn [matches2].
        by rewrite nonEmpty_doubleQuotes, Hs, unescape_doubleQuotes.
      * f_equal. rewrite <- Hlen. unfold escapeCSV.
        by rewrite !app_cons, !app_assoc_str.
    + destruct rest as [|c rest]; [done|].
      destruct Hrest as [->| ->]; done.
  - assert (match u +:+ rest with
            | String c s2 =>
                if Ascii.eqb c DQUOTE then matchQuoted s2 else None
            | EmptyString => None
            end = None) as ->.
    { destruct u as [|c u].
      - change (EmptyString +:+ rest) with rest.
        destruct rest as [|c rest]; [done|].
        destruct Hrest as [->| ->]; [|done].
        assert (Ascii.eqb delimiter DQUOTE = false) as ->; [|done].
        by apply Ascii.eqb_neq.
      - rewrite app_cons. cbn [safeText] in Hu.
        apply andb_true_iff in Hu as [Hc _].
        apply unquotedChar_inv in Hc as (H1 & _).
        apply Ascii.eqb_neq in H1. by rewrite H1. }
    rewrite matchUnquoted_safeText by done.
    eexists. split; [done|]. cbn [matches1 endIndex]. split; [done|].
    split; [done|]. by rewrite Hlen.
Qed.

Lemma search_matchAt (delimiter : ascii) (index : nat) (s : string) (m : Match) :
  matchAt delimiter index s = Some m → search delimiter index s = Some m.
Proof. intros H. destruct s; simpl; by rewrite H. Qed.

Lemma addMatch_field (delimiter : ascii) (m : Match) (sep : Separator)
    (pre : list (list Cell)) (cur : list Cell) :
  DelimiterOK delimiter →
  matches1 m = separatorText delimiter sep →
  addMatch delimiter m (pre ++ [cur])
  = match sep with
    | AfterLineBreak => (pre ++ [cur]) ++ [[matchValue m]]
    | _ => pre ++ [cur ++ [matchValue m]]
    end.
Proof.
  intros (_ & _ & _ & HdLF) Hm. unfold addMatch.
  rewrite Hm. destruct sep; unfold separatorText.
  - simpl. apply pushToLast_snoc.
  - rewrite String.eqb_refl. simpl. apply pushToLast_snoc.
  - assert (String.eqb (String LF EmptyString) (String delimiter EmptyString)
            = false) as ->.
    { apply String.eqb_neq. by intros [= <-]. }
    simpl. apply (pushToLast_snoc (pre ++ [cur]) []).
Qed.

(** One iteration of the loop at a field. *)
Lemma csvToArrayLoop_field (fuel : nat) (delimiter : ascii) (str : string)
    (lastIndex : nat) (sep : Separator) (t : string) (cell : Cell)
    (rest : string) (pre : list (list Cell)) (cur : list Cell) :
  DelimiterOK delimiter →
  lastIndex ≤ String.length str →
  str_drop lastIndex str = separatorText delimiter sep +:+ t +:+ rest →
  CellForm delimiter t cell →
  AfterField delimiter rest →
  (sep = AtStart → lastIndex = 0 ∧ nonEmpty t = true) →
  let next := lastIndex + String.length (separatorText delimiter sep +:+ t) in
  csvToArrayLoop (S fuel) delimiter str lastIndex (pre ++ [cur])
  = csvToArrayLoop fuel delimiter str next
      (match sep with
       | AfterLineBreak => (pre ++ [cur]) ++ [[cell]]
       | _ => pre ++ [cur ++ [cell]]
       end)
  ∧ str_drop next str = rest
  ∧ next ≤ String.length str.
Proof.
  intros Hd Hle Hdrop Hform Hrest Hstart next.
  destruct (matchAt_field delimiter lastIndex sep t cell rest Hd Hform Hrest
              Hstart) as (m & Hm & Hm1 & Hval & Hend).
  rewrite <- Hdrop in Hm. apply search_matchAt in Hm.
  assert (exec delimiter str lastIndex = Some m) as Hexec.
  { unfold exec.
    assert ((String.length str <? lastIndex) = false) as ->; [|done].
    apply Nat.ltb_ge. lia. }
  cbn [csvToArrayLoop]. rewrite Hexec, Hend.
  rewrite (addMatch_field delimiter m sep pre cur Hd Hm1), Hval.
  split; [done|].
  pose proof (f_equal String.length Hdrop) as Hlen.
  rewrite length_str_drop, <- app_assoc_str, length_app_str in Hlen.
  split.
  - subst next. rewrite str_drop_add, Hdrop, <- app_assoc_str.
    apply str_drop_app_length.
  - subst next. lia.
Qed.

Lemma AfterField_restOfRow (delimiter : ascii) (cells : list (string * Cell))
    (rest : string) :
  AfterField delimiter rest →
  AfterField delimiter (restOfRow delimiter cells +:+ rest).
Proof.
  intros Hrest. destruct cells as [|[t cell] cells]; [done|].
  cbn [restOfRow]. rewrite app_cons. by left.
Qed.

(** The loop over the cells of a row after the first one. *)
Lemma csvToArrayLoop_row (fuel : nat) (delimiter : ascii) (str : string)
    (cells : list (string * Cell)) (rest : string)
    (pre : list (list Cell)) :
  DelimiterOK delimiter →
  Forall (λ tc, CellForm delimiter tc.1 tc.2) cells →
  AfterField delimiter rest →
  ∀ (lastIndex : nat) (cur : list Cell),
    lastIndex ≤ String.length str →
    str_drop lastIndex str = restOfRow delimiter cells +:+ rest →
    ∃ next,
      csvToArrayLoop (length cells + fuel) delimiter str lastIndex
        (pre ++ [cur])
      = csvToArrayLoop fuel delimiter str next (pre ++ [cur ++ cells.*2])
      ∧ str_drop next str = rest
      ∧ lastIndex ≤ next ≤ String.length str.
Proof.
  intros Hd Hcells Hrest.
  induction Hcells as [|[t cell] cells Hcell Hcells IH];
    intros lastIndex cur Hle Hdrop.
  - exists lastIndex. simpl. rewrite app_nil_r. split_and!; try done.
  - cbn [restOfRow] in Hdrop. rewrite app_cons in Hdrop.
    destruct (csvToArrayLoop_field (length cells + fuel) delimiter str
                lastIndex AfterDelimiter t cell
                (restOfRow delimiter cells +:+ rest) pre cur Hd Hle)
      as (Hloop & Hnext & Hle'); try done.
    { unfold separatorText. by rewrite Hdrop, app_assoc_str. }
    { by apply AfterField_restOfRow. }
    destruct (IH _ (cur ++ [cell]) Hle' Hnext)
      as (next & Hloop' & Hdrop' & Hle1 & Hle2).
    exists next. cbn [length Nat.add]. rewrite Hloop, Hloop'.
    rewrite <- app_assoc. split_and!; try done. lia.
Qed.

Lemma AfterField_restOfGrid (delimiter : ascii)
    (rows : list (list (string * Cell))) :
  AfterField delimiter (restOfGrid delimiter rows).
Proof. destruct rows; [done|]. by right. Qed.

Lemma cellCount_cons (row : list (string * Cell))
    (rows : list (list (string * Cell))) :
  cellCount (row :: rows) = length row + cellCount rows.
Proof. done. Qed.

(** The loop over the rows after the first one. *)
Lemma csvToArrayLoop_rows (fuel : nat) (delimiter : ascii) (str : string)
    (rows : list (list (string * Cell))) :
  DelimiterOK delimiter →
  Forall (RowOK delimiter) rows →
  ∀ (lastIndex : nat) (pre : list (list Cell)) (cur : list Cell),
    lastIndex ≤ String.length str →
    str_drop lastIndex str = restOfGrid delimiter rows →
    ∃ next,
      csvToArrayLoop (cellCount rows + fuel) delimiter str lastIndex
        (pre ++ [cur])
      = csvToArrayLoop fuel delimiter str next
          ((pre ++ [cur]) ++ ((λ row, row.*2) <$> rows))
      ∧ str_drop next str = EmptyString
      ∧ lastIndex ≤ next ≤ String.length str.
Proof.
  intros Hd Hrows.
  induction Hrows as [|row rows Hrow Hrows IH];
    intros lastIndex pre cur Hle Hdrop.
  - exists lastIndex. simpl. rewrite app_nil_r. split_and!; try done.
  - destruct row as [|[t cell] cells]; [done|].
    destruct Hrow as (Hne & Hcell & Hcells).
    cbn [restOfGrid rowText] in Hdrop.
    destruct (csvToArrayLoop_field (length cells + (cellCount rows + fuel))
                delimiter str lastIndex AfterLineBreak t cell
                (restOfRow delimiter cells +:+ restOfGrid delimiter rows)
                pre cur Hd Hle)
      as (Hloop & Hnext & Hle'); try done.
    { unfold separatorText. by rewrite Hdrop, app_assoc_str. }
    { apply AfterField_restOfRow, AfterField_restOfGrid. }
    destruct (csvToArrayLoop_row (cellCount rows + fuel) delimiter str cells
                (restOfGrid delimiter rows) (pre ++ [cur]) Hd Hcells
                (AfterField_restOfGrid delimiter rows) _ [cell] Hle' Hnext)
      as (next1 & Hloop1 & Hdrop1 & Hle1 & Hle1').
    destruct (IH next1 (pre ++ [cur]) ([cell] ++ cells.*2) Hle1' Hdrop1)
      as (next & Hloop2 & Hdrop2 & Hle2 & Hle2').
    exists next. rewrite cellCount_cons. cbn [length].
    replace (S (length cells) + cellCount rows + fuel)
      with (S (length cells + (cellCount rows + fuel))) by lia.
    rewrite Hloop, Hloop1, Hloop2.
    split_and!; try done; [|lia].
    f_equal. rewrite <- (app_assoc (pre ++ [cur])). done.
Qed.

(** The tokenizer on the text of a grid of well-formed cells returns the
    cells that are read back, row by row, when it is given more iterations
    than there are cells. *)
Lemma csvToArray_gridText (delimiter : ascii)
    (rows : list (list (string * Cell))) (fuel : nat) :
  DelimiterOK delimiter →
  rows ≠ [] →
  Forall (RowOK delimiter) rows →
  cellCount rows < fuel →
  csvToArray fuel (gridText delimiter rows) delimiter
  = Some ((λ row, row.*2) <$> rows).
Proof.
  intros Hd Hne Hrows Hfuel.
  destruct rows as [|row rows]; [done|]. clear Hne.
  apply Forall_cons in Hrows as [Hrow Hrows].
  destruct row as [|[t cell] cells]; [done|].
  destruct Hrow as (Hne & Hcell & Hcells).
  unfold csvToArray. cbn [gridText rowText].
  set (str := (t +:+ restOfRow delimiter cells)
              +:+ restOfGrid delimiter (rows)).
  rewrite cellCount_cons in Hfuel. cbn [length] in Hfuel.
  replace fuel
    with (S (length cells + (cellCount rows
            + S (fuel - S (S (length cells + cellCount rows))))))
    by lia.
  destruct (csvToArrayLoop_field
              (length cells + (cellCount rows
                + S (fuel - S (S (length cells + cellCount rows)))))
              delimiter str 0 AtStart t cell
              (restOfRow delimiter cells +:+ restOfGrid delimiter rows)
              [] [] Hd) as (Hloop & Hnext & Hle); try done.
  { lia. }
  { subst str. unfold separatorText. by rewrite app_assoc_str. }
  { apply AfterField_restOfRow, AfterField_restOfGrid. }
  destruct (csvToArrayLoop_row
              (cellCount rows + S (fuel - S (S (length cells + cellCount rows))))
              delimiter str cells
              (restOfGrid delimiter rows) [] Hd Hcells
              (AfterField_restOfGrid delimiter rows) _ [cell] Hle Hnext)
    as (next1 & Hloop1 & Hdrop1 & Hle1 & Hle1').
  destruct (csvToArrayLoop_rows
              (S (fuel - S (S (length cells + cellCount rows))))
              delimiter str rows Hd Hrows
              next1 [] ([cell] ++ cells.*2) Hle1' Hdrop1)
    as (next & Hloop2 & Hdrop2 & Hle2 & Hle2').
  etrans; [exact Hloop|]. etrans; [exact Hloop1|].
  etrans; [exact Hloop2|].
  cbn [csvToArrayLoop]. unfold exec.
  assert ((String.length str <? next) = false) as ->.
  { apply Nat.ltb_ge. lia. }
  rewrite Hdrop2.
  assert (0 < next) as Hpos.
  { unfold separatorText in Hle1. destruct t; [done|].
    change (EmptyString +:+ ?x) with x in Hle1. simpl in Hle1. lia. }
  destruct next as [|next]; [lia|]. done.
Qed.

(** The loop over the rows after the first one, whose first cells may be
    empty. *)
Lemma csvToArrayLoop_lines (fuel : nat) (delimiter : ascii) (str : string)
    (rows : list (list (string * Cell))) :
  DelimiterOK delimiter →
  Forall (RowCells delimiter) rows →
  ∀ (lastIndex : nat) (pre : list (list Cell)) (cur : list Cell),
    lastIndex ≤ String.length str →
    str_drop lastIndex str = restOfGrid delimiter rows →
    ∃ next,
      csvToArrayLoop (cellCount rows + fuel) delimiter str lastIndex
        (pre ++ [cur])
      = csvToArrayLoop fuel delimiter str next
          ((pre ++ [cur]) ++ ((λ row, row.*2) <$> rows))
      ∧ str_drop next str = EmptyString
      ∧ lastIndex ≤ next ≤ String.length str.
Proof.
  intros Hd Hrows.
  induction Hrows as [|row rows Hrow Hrows IH];
    intros lastIndex pre cur Hle Hdrop.
  - exists lastIndex. simpl. rewrite app_nil_r. split_and!; try done.
  - destruct Hrow as [Hne Hall].
    destruct row as [|[t cell] cells]; [done|].
    apply Forall_cons in Hall as [Hcell Hcells].
    cbn [restOfGrid rowText] in Hdrop.
    destruct (csvToArrayLoop_field (length cells + (cellCount rows + fuel))
                delimiter str lastIndex AfterLineBreak t cell
                (restOfRow delimiter cells +:+ restOfGrid delimiter rows)
                pre cur Hd Hle)
      as (Hloop & Hnext & Hle'); try done.
    { unfold separatorText. by rewrite Hdrop, app_assoc_str. }
    { apply AfterField_restOfRow, AfterField_restOfGrid. }
    destruct (csvToArrayLoop_row (cellCount rows + fuel) delimiter str cells
                (restOfGrid delimiter rows) (pre ++ [cur]) Hd Hcells
                (AfterField_restOfGrid delimiter rows) _ [cell] Hle' Hnext)
      as (next1 & Hloop1 & Hdrop1 & Hle1 & Hle1').
    destruct (IH next1 (pre ++ [cur]) ([cell] ++ cells.*2) Hle1' Hdrop1)
      as (next & Hloop2 & Hdrop2 & Hle2 & Hle2').
    exists next. rewrite cellCount_cons. cbn [length].
    replace (S (length cells) + cellCount rows + fuel)
      with (S (length cells + (cellCount rows + fuel))) by lia.
    rewrite Hloop, Hloop1, Hloop2.
    split_and!; try done; [|lia].
    f_equal. rewrite <- (app_assoc (pre ++ [cur])). done.
Qed.

Lemma csvToArrayLoop_end (fuel : nat) (delimiter : ascii) (str : string)
    (next : nat) (results : list (list Cell)) :
  0 < next ≤ String.length str →
  str_drop next str = EmptyString →
  csvToArrayLoop (S fuel) delimiter str next results = Some results.
Proof.
  intros [Hpos Hle] Hdrop. cbn [csvToArrayLoop]. unfold exec.
  assert ((String.length str <? next) = false) as ->.
  { apply Nat.ltb_ge. lia. }
  rewrite Hdrop. destruct next as [|next]; [lia|]. done.
Qed.

(** The tokenizer on the text of a grid of well-formed cells whose first
    row is not the empty text: an empty first cell of the text is not
    read, every other cell is. *)
Lemma csvToArray_grid (delimiter : ascii) (first : list (string * Cell))
    (rows : list (list (string * Cell))) (fuel : nat) :
  DelimiterOK delimiter →
  Forall (λ tc, CellForm delimiter tc.1 tc.2) first →
  nonEmpty (rowText delimiter first) = true →
  Forall (RowCells delimiter) rows →
  cellCount (first :: rows) < fuel →
  csvToArray fuel (gridText delimiter (first :: rows)) delimiter
  = Some (firstRowRead first :: ((λ row, row.*2) <$> rows)).
Proof.
  intros Hd Hfirst Hne Hrows Hfuel.
  destruct first as [|[t cell] cells]; [done|].
  apply Forall_cons in Hfirst as [Hcell Hcells].
  unfold csvToArray. cbn [gridText rowText firstRowRead] in *.
  set (str := (t +:+ restOfRow delimiter cells)
              +:+ restOfGrid delimiter rows).
  rewrite cellCount_cons in Hfuel. cbn [length] in Hfuel.
  set (k := fuel - S (S (length cells + cellCount rows))).
  destruct (nonEmpty t) eqn:Ht.
  - replace fuel with (S (length cells + (cellCount rows + S k))) by lia.
    destruct (csvToArrayLoop_field
                (length cells + (cellCount rows + S k))
                delimiter str 0 AtStart t cell
                (restOfRow delimiter cells +:+ restOfGrid delimiter rows)
                [] [] Hd) as (Hloop & Hnext & Hle); try done.
    { lia. }
    { subst str. unfold separatorText. by rewrite app_assoc_str. }
    { apply AfterField_restOfRow, AfterField_restOfGrid. }
    destruct (csvToArrayLoop_row (cellCount rows + S k)
                delimiter str cells
                (restOfGrid delimiter rows) [] Hd Hcells
                (AfterField_restOfGrid delimiter rows) _ [cell] Hle Hnext)
      as (next1 & Hloop1 & Hdrop1 & Hle1 & Hle1').
    destruct (csvToArrayLoop_lines (S k) delimiter str rows Hd Hrows
                next1 [] ([cell] ++ cells.*2) Hle1' Hdrop1)
      as (next & Hloop2 & Hdrop2 & Hle2 & Hle2').
    etrans; [exact Hloop|]. etrans; [exact Hloop1|].
    etrans; [exact Hloop2|].
    apply csvToArrayLoop_end; [|done].
    unfold separatorText in Hle1. destruct t; [done|].
    change (EmptyString +:+ ?x) with x in Hle1. simpl in Hle1. lia.
  - destruct t; [|done].
    change (EmptyString +:+ ?x) with x in *.
    replace fuel with (length cells + (cellCount rows + S (S k))) by lia.
    destruct (csvToArrayLoop_row (cellCount rows + S (S k))
                delimiter str cells
                (restOfGrid delimiter rows) [] Hd Hcells
                (AfterField_restOfGrid delimiter rows) 0 [])
      as (next1 & Hloop1 & Hdrop1 & Hle1 & Hle1'); [lia|done|].
    destruct (csvToArrayLoop_lines (S (S k)) delimiter str rows Hd Hrows
                next1 [] ([] ++ cells.*2) Hle1' Hdrop1)
      as (next & Hloop2 & Hdrop2 & Hle2 & Hle2').
    etrans; [exact Hloop1|]. etrans; [exact Hloop2|].
    apply csvToArrayLoop_end; [|done].
    pose proof (f_equal String.length Hdrop1) as Hlen.
    rewrite length_str_drop in Hlen. subst str.
    rewrite length_app_str in Hlen.
    destruct (restOfRow delimiter cells); [done|]. simpl in Hlen. lia.
Qed.

(** ** Texts that the pre-processing leaves alone *)

Lemma collapseLineBreaks_noBlankLine (s : string) :
  noBlankLine s = true → collapseLineBreaks false s = s.
Proof.
  induction s as [|c s IH]; [done|]. cbn [noBlankLine collapseLineBreaks].
  intros [Hc Hs]%andb_true_iff. rewrite (IH Hs).
  destruct (Ascii.eqb c LF) eqn:E; [|done].
  apply Ascii.eqb_eq in E as ->.
  destruct s as [|c' s]; [done|]. cbn [startsWithLineBreak] in Hc.
  simpl in Hc. apply negb_true_iff in Hc. by rewrite Hc.
Qed.

Lemma removeFinalLineBreak_id (s : string) :
  endsWithLineBreak s = false → removeFinalLineBreak s = s.
Proof.
  induction s as [|c s IH]; [done|]. cbn [endsWithLineBreak removeFinalLineBreak].
  destruct s as [|c' s]; [by intros ->|]. intros H. by rewrite IH.
Qed.

Lemma preprocess_Tight (s : string) : Tight s → preprocess s = s.
Proof.
  intros (H1 & H2 & H3). unfold preprocess.
  rewrite collapseLineBreaks_noBlankLine by done.
  destruct s as [|c s]; [done|]. unfold stripLineBreak.
  cbn [startsWithLineBreak] in H2. rewrite H2.
  by apply removeFinalLineBreak_id.
Qed.

Lemma startsWithLineBreak_app (a b : string) :
  startsWithLineBreak (a +:+ b)
  = if nonEmpty a then startsWithLineBreak a else startsWithLineBreak b.
Proof. by destruct a. Qed.

Lemma endsWithLineBreak_app (a b : string) :
  endsWithLineBreak (a +:+ b)
  = if nonEmpty b then endsWithLineBreak b else endsWithLineBreak a.
Proof.
  induction a as [|c a IH].
  - by destruct b.
  - rewrite app_cons. cbn [endsWithLineBreak]. rewrite IH.
    destruct a as [|c' a].
    + change (EmptyString +:+ b) with b. by destruct b.
    + rewrite app_cons. by destruct b.
Qed.

Lemma noBlankLine_app (a b : string) :
  noBlankLine a = true → noBlankLine b = true →
  endsWithLineBreak a = false ∨ startsWithLineBreak b = false →
  noBlankLine (a +:+ b) = true.
Proof.
  intros Ha Hb Hab. induction a as [|c a IH]; [done|].
  rewrite app_cons. cbn [noBlankLine] in *.
  apply andb_true_iff in Ha as [Hc Ha].
  rewrite startsWithLineBreak_app.
  destruct a as [|c' a].
  - change (EmptyString +:+ b) with b. rewrite Hb, andb_true_r.
    cbn [nonEmpty]. cbn [endsWithLineBreak] in Hab.
    destruct Hab as [-> | ->]; [done|]. by rewrite andb_false_r.
  - cbn [nonEmpty]. rewrite Hc. apply IH; [done|].
    by cbn [endsWithLineBreak] in Hab.
Qed.

Lemma Tight_app (a b : string) : Tight a → Tight b → Tight (a +:+ b).
Proof.
  intros (Ha1 & Ha2 & Ha3) (Hb1 & Hb2 & Hb3). split_and!.
  - apply noBlankLine_app; auto.
  - rewrite startsWithLineBreak_app. by destruct (nonEmpty a).
  - rewrite endsWithLineBreak_app. by destruct (nonEmpty b).
Qed.

Lemma Tight_char (c : ascii) : c ≠ LF → Tight (String c EmptyString).
Proof.
  intros Hc%Ascii.eqb_neq. unfold Tight. simpl. rewrite Hc. done.
Qed.

Lemma Tight_lines (a b : string) :
  Tight a → nonEmpty a = true → Tight b → nonEmpty b = true →
  Tight (a +:+ String LF b).
Proof.
  intros (Ha1 & Ha2 & Ha3) Ha (Hb1 & Hb2 & Hb3) Hb. split_and!.
  - apply noBlankLine_app; [done| |by left].
    cbn [noBlankLine]. by rewrite Hb2, Hb1, andb_false_r.
  - rewrite startsWithLineBreak_app. by rewrite Ha.
  - rewrite endsWithLineBreak_app. cbn [nonEmpty endsWithLineBreak].
    by destruct b.
Qed.

Lemma startsWithLineBreak_doubleQuotes (s : string) :
  startsWithLineBreak (doubleQuotes s) = startsWithLineBreak s.
Proof.
  destruct s as [|c s]; [done|]. simpl.
  destruct (Ascii.eqb c DQUOTE) eqn:E; [|done].
  by apply Ascii.eqb_eq in E as ->.
Qed.

Lemma noBlankLine_doubleQuotes (s : string) :
  noBlankLine (doubleQuotes s) = noBlankLine s.
Proof.
  induction s as [|c s IH]; [done|]. cbn [doubleQuotes noBlankLine].
  destruct (Ascii.eqb c DQUOTE) eqn:E.
  - apply Ascii.eqb_eq in E as ->. cbn [noBlankLine startsWithLineBreak].
    rewrite IH. done.
  - cbn [noBlankLine]. by rewrite startsWithLineBreak_doubleQuotes, IH.
Qed.

Lemma Tight_escapeCSV (s : string) :
  noBlankLine s = true → Tight (escapeCSV s).
Proof.
  intros Hs. unfold escapeCSV.
  change (String DQUOTE (doubleQuotes s +:+ String DQUOTE EmptyString))
    with (String DQUOTE EmptyString
          +:+ (doubleQuotes s +:+ String DQUOTE EmptyString)).
  assert (noBlankLine (doubleQuotes s +:+ String DQUOTE EmptyString) = true)
    as Hbody.
  { apply noBlankLine_app; [by rewrite noBlankLine_doubleQuotes|done|].
    by right. }
  split_and!.
  - apply noBlankLine_app; [done..|by left].
  - done.
  - rewrite endsWithLineBreak_app.
    assert (nonEmpty (doubleQuotes s +:+ String DQUOTE EmptyString) = true)
      as -> by (by destruct (doubleQuotes s)).
    by rewrite endsWithLineBreak_app.
Qed.

Lemma Tight_safeText (delimiter : ascii) (u : string) :
  safeText delimiter u = true → Tight u.
Proof.
  induction u as [|c u IH]; [done|]. cbn [safeText].
  intros [Hc Hu]%andb_true_iff.
  apply unquotedChar_inv in Hc as (_ & _ & _ & Hc).
  change (String c u) with (String c EmptyString +:+ u).
  apply Tight_app; [by apply Tight_char|by apply IH].
Qed.

Lemma Tight_CellForm (delimiter : ascii) (t : string) (cell : Cell) :
  CellForm delimiter t cell → noBlankLine t = true → Tight t.
Proof.
  intros [s Hs|u Hu] Ht.
  - apply Tight_escapeCSV. unfold escapeCSV in Ht. cbn [noBlankLine] in Ht.
    apply andb_true_iff in Ht as [_ Ht].
    rewrite <- noBlankLine_doubleQuotes.
    clear Hs. induction (doubleQuotes s) as [|c d IH]; [done|].
    rewrite app_cons in Ht. cbn [noBlankLine] in *.
    apply andb_true_iff in Ht as [Hc Ht]. rewrite IH by done.
    rewrite andb_true_r. rewrite startsWithLineBreak_app in Hc.
    destruct d; [|done]. simpl. by rewrite andb_false_r.
  - by apply (Tight_safeText delimiter).
Qed.

Lemma Tight_restOfRow (delimiter : ascii) (cells : list (string * Cell)) :
  DelimiterOK delimiter →
  Forall (λ tc, CellForm delimiter tc.1 tc.2) cells →
  RowTight cells →
  Tight (restOfRow delimiter cells).
Proof.
  intros (_ & _ & _ & Hd) Hcells Htight.
  induction Hcells as [|[t cell] cells Hcell Hcells IH]; [done|].
  apply Forall_cons in Htight as [Ht Htight]. cbn [restOfRow].
  change (String delimiter (t +:+ restOfRow delimiter cells))
    with (String delimiter EmptyString +:+ (t +:+ restOfRow delimiter cells)).
  apply Tight_app; [by apply Tight_char|].
  apply Tight_app; [by apply (Tight_CellForm delimiter t cell)|by apply IH].
Qed.

Lemma Tight_rowText (delimiter : ascii) (row : list (string * Cell)) :
  DelimiterOK delimiter → RowOK delimiter row → RowTight row →
  Tight (rowText delimiter row) ∧ nonEmpty (rowText delimiter row) = true.
Proof.
  intros Hd Hrow Htight. destruct row as [|[t cell] cells]; [done|].
  destruct Hrow as (Hne & Hcell & Hcells).
  apply Forall_cons in Htight as [Ht Htight]. cbn [rowText]. split.
  - apply Tight_app; [by apply (Tight_CellForm delimiter t cell)|].
    by apply Tight_restOfRow.
  - by destruct t.
Qed.

Lemma Tight_gridText (delimiter : ascii)
    (rows : list (list (string * Cell))) :
  DelimiterOK delimiter →
  Forall (RowOK delimiter) rows → Forall RowTight rows →
  Tight (gridText delimiter rows).
Proof.
  intros Hd Hrows Htight. destruct rows as [|row rows]; [done|].
  apply Forall_cons in Hrows as [Hrow Hrows].
  apply Forall_cons in Htight as [Ht Htight]. cbn [gridText].
  destruct (Tight_rowText delimiter row Hd Hrow Ht) as [Ha Hne].
  revert Ha Hne. generalize (rowText delimiter row). clear Hrow Ht.
  induction Hrows as [|row' rows Hrow' Hrows IH]; intros a Ha Hne.
  - cbn [restOfGrid]. by rewrite app_empty_r.
  - apply Forall_cons in Htight as [Ht' Htight]. cbn [restOfGrid].
    destruct (Tight_rowText delimiter row' Hd Hrow' Ht') as [Hb Hbne].
    change (String LF (rowText delimiter row' +:+ restOfGrid delimiter rows))
      with (String LF (rowText delimiter row') +:+ restOfGrid delimiter rows).
    rewrite <- app_assoc_str. apply IH; [done| |].
    + by apply Tight_lines.
    + by destruct a.
Qed.

Lemma Tight_row (delimiter : ascii) (row : list (string * Cell)) :
  DelimiterOK delimiter →
  Forall (λ tc : string * Cell,
            CellForm delimiter tc.1 tc.2 ∧ noBlankLine tc.1 = true) row →
  Tight (rowText delimiter row).
Proof.
  intros Hd Hrow. destruct row as [|[t cell] cells]; [done|].
  apply Forall_cons in Hrow as [[Hcell Ht] Hcells]. cbn [rowText].
  apply Tight_app; [by apply (Tight_CellForm delimiter t cell)|].
  apply Tight_restOfRow; [done|..].
  - eapply Forall_impl; [exact Hcells|]. by intros tc [? ?].
  - eapply Forall_impl; [exact Hcells|]. by intros tc [? ?].
Qed.

(** The text of a grid of lines that are not empty, of cells with no blank
    line, is left as it is by the pre-processing. *)
Lemma Tight_grid (delimiter : ascii) (rows : list (list (string * Cell))) :
  DelimiterOK delimiter →
  Forall (λ row,
            Forall (λ tc : string * Cell,
                      CellForm delimiter tc.1 tc.2
                      ∧ noBlankLine tc.1 = true) row
            ∧ nonEmpty (rowText delimiter row) = true) rows →
  Tight (gridText delimiter rows).
Proof.
  intros Hd Hrows. destruct rows as [|row rows]; [done|].
  apply Forall_cons in Hrows as [[Hrow Hne] Hrows]. cbn [gridText].
  pose proof (Tight_row delimiter row Hd Hrow) as Ha.
  revert Ha Hne. generalize (rowText delimiter row). clear Hrow.
  induction Hrows as [|row' rows [Hrow' Hne'] Hrows IH]; intros a Ha Hne.
  - cbn [restOfGrid]. by rewrite app_empty_r.
  - cbn [restOfGrid].
    pose proof (Tight_row delimiter row' Hd Hrow') as Hb.
    change (String LF (rowText delimiter row' +:+ restOfGrid delimiter rows))
      with (String LF (rowText delimiter row') +:+ restOfGrid delimiter rows).
    rewrite <- app_assoc_str. apply IH; [|by destruct a].
    by apply Tight_lines.
Qed.

(** ** The text of toCSV as a grid of cells *)

Lemma concat_rowText (delimiter : ascii) (row : list (string * Cell)) :
  String.concat (String delimiter EmptyString) row.*1
  = rowText delimiter row.
Proof.
  destruct row as [|[t cell] cells]; [done|]. cbn [rowText].
  revert t cell. induction cells as [|[t' cell'] cells IH]; intros t cell.
  - simpl. by rewrite app_empty_r.
  - change (String.concat (String delimiter EmptyString)
              ((t, cell) :: (t', cell') :: cells).*1)
      with (t +:+ String delimiter EmptyString
            +:+ String.concat (String delimiter EmptyString)
                  ((t', cell') :: cells).*1).
    rewrite (IH t' cell'). done.
Qed.

Lemma concat_gridText (delimiter : ascii)
    (rows : list (list (string * Cell))) :
  String.concat (String LF EmptyString) (rowText delimiter <$> rows)
  = gridText delimiter rows.
Proof.
  destruct rows as [|row rows]; [done|]. cbn [gridText].
  revert row. induction rows as [|row' rows IH]; intros row.
  - simpl. by rewrite app_empty_r.
  - change (String.concat (String LF EmptyString)
              (rowText delimiter <$> row :: row' :: rows))
      with (rowText delimiter row +:+ String LF EmptyString
            +:+ String.concat (String LF EmptyString)
                  (rowText delimiter <$> row' :: rows)).
    rewrite (IH row'). done.
Qed.

Lemma toCSV_processColumn_columnValue startIndex obj r column c :
  toCSV_processColumn startIndex obj r column c
  = finishCell (columnValue startIndex obj r column c).
Proof. by destruct column. Qed.

Lemma toCSV_getLine_rowText columns options obj r :
  toCSV_getLine columns options obj r
  = rowText (delimiterOf options) (dataRow columns options obj r).
Proof.
  rewrite <- concat_rowText. unfold toCSV_getLine, join. f_equal.
  unfold toCSV_cells, dataRow.
  rewrite fmap_imap, fmap_imap. apply imap_ext. intros c column _. simpl.
  by rewrite toCSV_processColumn_columnValue.
Qed.

Lemma toCSV_header_rowText columns options :
  join (String (delimiterOf options) EmptyString) (toCSV_headerCells columns)
  = rowText (delimiterOf options) (headerPair <$> columns).
Proof.
  rewrite <- concat_rowText. unfold join, toCSV_headerCells. f_equal.
  rewrite <- !list_fmap_compose. apply list_fmap_ext. intros _ column _.
  unfold headerPair. simpl.
  destruct (column ≫= header) as [h|]; [|done]. by destruct (nonEmpty h).
Qed.

Lemma toCSV_gridText rows columns options :
  toCSV rows (Some columns) options
  = gridText (delimiterOf options)
      (gridOf rows (detectColumn <$> columns) options).
Proof.
  unfold toCSV. rewrite <- concat_gridText. f_equal.
  unfold toCSV_lines, gridOf.
  assert (imap (λ rowIndex obj,
                  toCSV_getLine (detectColumn <$> columns) options obj rowIndex)
            rows
          = rowText (delimiterOf options)
              <$> imap (λ r obj,
                          dataRow (detectColumn <$> columns) options obj r)
                    rows) as ->.
  { rewrite fmap_imap. apply imap_ext. intros r obj _. simpl.
    apply toCSV_getLine_rowText. }
  destruct (includeHeader options); [|done].
  simpl. by rewrite toCSV_header_rowText.
Qed.

Lemma shouldEscape_cleared (v : Value) :
  shouldEscape (if canClear v then VString EmptyString else v)
  = shouldEscape v.
Proof. by destruct v. Qed.

Lemma cellPair_readable (delimiter : ascii) (v : Value) :
  readable delimiter v = true →
  CellForm delimiter (cellPair v).1 (cellPair v).2
  ∧ noBlankLine (cellPair v).1 = true
  ∧ nonEmpty (cellPair v).1 = nonEmpty (clearedText v).
Proof.
  unfold readable, cellPair, finishCell, clearedText. cbn [fst snd].
  intros [Hblank Hform]%andb_true_iff. rewrite shouldEscape_cleared.
  destruct (shouldEscape v) eqn:Hesc.
  - destruct v as [| |b|n|s|fields]; try done. cbn in *.
    apply andb_true_iff in Hesc as [[Hs _]%andb_true_iff _].
    split_and!.
    + by constructor.
    + by apply Tight_escapeCSV.
    + by rewrite Hs.
  - simpl in Hform. split_and!; [by constructor|done..].
Qed.

Lemma Forall_imap {A B} (P : B → Prop) (f : nat → A → B) (l : list A) :
  (∀ i x, l !! i = Some x → P (f i x)) → Forall P (imap f l).
Proof.
  intros H. apply Forall_lookup. intros i y.
  rewrite list_lookup_imap. intros (x & Hx & ->)%fmap_Some. eauto.
Qed.

Lemma nonEmpty_app_l (a b : string) :
  nonEmpty a = true → nonEmpty (a +:+ b) = true.
Proof. by destruct a. Qed.

Lemma nonEmpty_app_r (a b : string) :
  nonEmpty b = true → nonEmpty (a +:+ b) = true.
Proof. by destruct a. Qed.

Lemma nonEmpty_restOfRow (delimiter : ascii) (cells : list (string * Cell)) :
  cells ≠ [] → nonEmpty (restOfRow delimiter cells) = true.
Proof. by destruct cells as [|[t cell] cells]. Qed.

Lemma dataRow_cells columns options obj r :
  RecordOK options columns obj r →
  Forall (λ tc : string * Cell,
            CellForm (delimiterOf options) tc.1 tc.2
            ∧ noBlankLine tc.1 = true)
    (dataRow columns options obj r)
  ∧ nonEmpty (rowText (delimiterOf options) (dataRow columns options obj r))
    = true
  ∧ length (dataRow columns options obj r) = length columns.
Proof.
  intros [Hread Hline _ _ _ _].
  split_and!.
  - apply Forall_imap. intros c column Hc.
    destruct (cellPair_readable _ _ (Hread c column Hc)) as (H1 & H2 & _).
    done.
  - destruct columns as [|column columns].
    { destruct Hline as [Hlen|(column & [=] & _)]. simpl in Hlen. lia. }
    unfold dataRow. cbn [imap].
    destruct (cellPair_readable _ _ (Hread 0 column eq_refl))
      as (_ & _ & Hne).
    destruct (cellPair _) as [t cell]. cbn [fst rowText] in *.
    destruct Hline as [Hlen|(column' & [= <-] & Hfirst)].
    + apply nonEmpty_app_r, nonEmpty_restOfRow.
      destruct columns as [|column' columns]; [|done].
      simpl in Hlen. lia.
    + apply nonEmpty_app_l. congruence.
  - unfold dataRow. by rewrite length_imap.
Qed.

Lemma dataRow_first columns options obj r :
  RecordOK options columns obj r →
  FirstCellOK options columns obj r →
  firstRowRead (dataRow columns options obj r)
  = (dataRow columns options obj r).*2.
Proof.
  intros [Hread _ _ _ _ _] (column & Hcolumn & Hfirst).
  destruct columns as [|column' columns]; [done|].
  injection Hcolumn as ->. unfold dataRow. cbn [imap].
  destruct (cellPair_readable _ _ (Hread 0 column eq_refl))
    as (_ & _ & Hne).
  destruct (cellPair _) as [t cell]. cbn [fst firstRowRead] in *.
  by rewrite Hne, Hfirst.
Qed.

Lemma dataRow_ok columns options obj r :
  RecordOK options columns obj r →
  FirstCellOK options columns obj r →
  RowOK (delimiterOf options) (dataRow columns options obj r)
  ∧ RowTight (dataRow columns options obj r)
  ∧ length (dataRow columns options obj r) = length columns.
Proof.
  intros Hok (col0 & Hcol0 & Hfirst).
  destruct (dataRow_cells columns options obj r Hok) as (Hall & _ & Hlen).
  destruct Hok as [Hread _ _ _ _ _].
  split_and!; [|by eapply Forall_impl; [exact Hall|]; intros tc [? ?]|done].
  destruct columns as [|column columns]; [done|].
  injection Hcol0 as ->. unfold dataRow in *. cbn [imap] in *.
  apply Forall_cons in Hall as [[Hc0 _] Hall].
  destruct (cellPair_readable _ _ (Hread 0 col0 eq_refl)) as (_ & _ & Hne).
  destruct (cellPair _) as [t cell] eqn:Hpair.
  cbn [fst snd] in *. split_and!; [congruence|done|].
  eapply Forall_impl; [exact Hall|]. by intros tc [? ?].
Qed.

Lemma headerRow_cells (delimiter : ascii) (columns : list (option Column)) :
  HeaderOK columns →
  Forall (λ tc : string * Cell,
            CellForm delimiter tc.1 tc.2 ∧ noBlankLine tc.1 = true)
    (headerPair <$> columns)
  ∧ nonEmpty (rowText delimiter (headerPair <$> columns)) = true.
Proof.
  intros [Hline Hblank]. split.
  - apply Forall_fmap, Forall_lookup. intros c column Hc. simpl.
    unfold headerPair.
    destruct column as [column|]; simpl; [|split; by constructor].
    destruct (header column) as [h|] eqn:Hh; [|split; by constructor].
    destruct (nonEmpty h) eqn:Hne; [|split; by constructor].
    cbn [fst snd]. split; [by constructor|].
    by apply Tight_escapeCSV, (Hblank c column h).
  - destruct columns as [|column columns].
    { destruct Hline as [Hlen|(column & h & [=] & _)]. simpl in Hlen. lia. }
    cbn [fmap list_fmap].
    destruct Hline as [Hlen|(column' & h & [= ->] & Hh & Hne)].
    + destruct (headerPair column) as [t cell]. cbn [rowText].
      apply nonEmpty_app_r, nonEmpty_restOfRow.
      destruct columns as [|column' columns]; [|done].
      simpl in Hlen. lia.
    + unfold headerPair. simpl. by rewrite Hh, Hne.
Qed.

Lemma headerRow_ok (delimiter : ascii) (columns : list (option Column)) :
  HeaderOK columns → FirstHeaderOK columns →
  RowOK delimiter (headerPair <$> columns)
  ∧ RowTight (headerPair <$> columns).
Proof.
  intros Hheader (col0 & h0 & Hcol0 & Hh0 & Hne0).
  destruct (headerRow_cells delimiter columns Hheader) as [Hall _].
  split; [|by eapply Forall_impl; [exact Hall|]; intros tc [? ?]].
  destruct columns as [|column columns]; [done|].
  injection Hcol0 as ->. cbn [fmap list_fmap] in *.
  apply Forall_cons in Hall as [[Hc0 _] Hall].
  unfold headerPair in *. simpl in *. rewrite Hh0, Hne0 in *.
  split_and!; [done..|].
  eapply Forall_impl; [exact Hall|]. by intros tc [? ?].
Qed.

Lemma cellCount_uniform (n : nat) (rows : list (list (string * Cell))) :
  Forall (λ row, length row = n) rows → cellCount rows = length rows * n.
Proof.
  induction 1 as [|row rows Hrow Hrows IH]; [done|].
  rewrite cellCount_cons, IH, Hrow. simpl. lia.
Qed.

Lemma gridOf_ok rows columns options :
  DelimiterOK (delimiterOf options) →
  (includeHeader options = true → HeaderOK columns ∧ FirstHeaderOK columns) →
  (∀ r obj, rows !! r = Some obj →
     RecordOK options columns obj r ∧ FirstCellOK options columns obj r) →
  Forall (RowOK (delimiterOf options)) (gridOf rows columns options)
  ∧ Forall RowTight (gridOf rows columns options)
  ∧ cellCount (gridOf rows columns options)
    ≤ (length rows + 1) * length columns.
Proof.
  intros Hd Hheader Hrows.
  assert (Forall (λ row, RowOK (delimiterOf options) row ∧ RowTight row
                         ∧ length row = length columns)
            (gridOf rows columns options)) as Hall.
  { unfold gridOf. apply Forall_app. split.
    - destruct (includeHeader options); [|done].
      apply Forall_singleton.
      destruct (Hheader eq_refl) as [H1 H2].
      destruct (headerRow_ok (delimiterOf options) columns H1 H2).
      split_and!; [done..|]. by rewrite length_fmap.
    - apply Forall_imap. intros r obj Hr.
      destruct (Hrows r obj Hr). by apply dataRow_ok. }
  split_and!.
  - eapply Forall_impl; [exact Hall|]. by intros row (? & ? & ?).
  - eapply Forall_impl; [exact Hall|]. by intros row (? & ? & ?).
  - rewrite (cellCount_uniform (length columns)).
    + unfold gridOf. rewrite length_app, length_imap.
      destruct (includeHeader options); simpl; lia.
    + eapply Forall_impl; [exact Hall|]. by intros row (? & ? & ?).
Qed.

(** The lines of the text of [toCSV]: the pre-processing leaves the text
    as it is, and the tokenizer reads the cells of the records back. *)
Lemma csvToArray_gridOf rows columns options fuel :
  DelimiterOK (delimiterOf options) →
  includeHeader options = true ∨ rows ≠ [] →
  (includeHeader options = true → HeaderOK columns) →
  (∀ r obj, rows !! r = Some obj → RecordOK options columns obj r) →
  (length rows + 1) * length columns < fuel →
  Tight (gridText (delimiterOf options) (gridOf rows columns options))
  ∧ ∃ results,
      csvToArray fuel
        (gridText (delimiterOf options) (gridOf rows columns options))
        (delimiterOf options)
      = Some results
      ∧ drop (startIndexOf options) results
        = imap (λ r obj, lineRead columns options obj r) rows.
Proof.
  intros Hd Hne Hheader Hrows Hfuel.
  set (d := delimiterOf options) in *.
  assert (Forall (λ row,
                    (Forall (λ tc : string * Cell,
                               CellForm d tc.1 tc.2
                               ∧ noBlankLine tc.1 = true) row
                     ∧ nonEmpty (rowText d row) = true)
                    ∧ length row = length columns)
            (imap (λ r obj, dataRow columns options obj r) rows)) as Hdata.
  { apply Forall_imap. intros r obj Hr.
    destruct (dataRow_cells columns options obj r (Hrows r obj Hr))
      as (H1 & H2 & H3). done. }
  assert (∀ rows' : list (list (string * Cell)),
            Forall (λ row,
                      (Forall (λ tc : string * Cell,
                                 CellForm d tc.1 tc.2
                                 ∧ noBlankLine tc.1 = true) row
                       ∧ nonEmpty (rowText d row) = true)
                      ∧ length row = length columns) rows' →
            Forall (RowCells d) rows'
            ∧ cellCount rows' = length rows' * length columns) as Hweak.
  { intros rows' Hall. split.
    - eapply Forall_impl; [exact Hall|]. intros row [[Hcells Hrow] _].
      split; [by destruct row|].
      eapply Forall_impl; [exact Hcells|]. by intros tc [? ?].
    - apply cellCount_uniform.
      eapply Forall_impl; [exact Hall|]. by intros row [_ ?]. }
  unfold gridOf, startIndexOf.
  destruct (includeHeader options) eqn:Hinc.
  - destruct (headerRow_cells d columns (Hheader eq_refl)) as [Hcells Hline].
    split.
    + apply Tight_grid; [done|]. apply Forall_cons. split; [done|].
      eapply Forall_impl; [exact Hdata|]. by intros row [? _].
    + destruct (Hweak _ Hdata) as [Hlines Hcount].
      rewrite length_imap in Hcount.
      eexists. split.
      * apply (csvToArray_grid d (headerPair <$> columns)); [done| |done..|].
        -- eapply Forall_impl; [exact Hcells|]. by intros tc [? ?].
        -- rewrite cellCount_cons, Hcount, length_fmap. lia.
      * simpl. rewrite fmap_imap. apply imap_ext. intros r obj _.
        unfold lineRead. rewrite Hinc. by destruct r.
  - destruct Hne as [[=]|Hne].
    destruct rows as [|obj rows]; [done|]. cbn [imap app] in *.
    apply Forall_cons in Hdata as [[[Hcells Hline] Hlen] Hdata].
    split.
    + apply Tight_grid; [done|]. apply Forall_cons. split; [done|].
      eapply Forall_impl; [exact Hdata|]. by intros row [? _].
    + destruct (Hweak _ Hdata) as [Hlines Hcount].
      rewrite length_imap in Hcount.
      eexists. split.
      * apply (csvToArray_grid d (dataRow columns options obj 0));
          [done| |done..|].
        -- eapply Forall_impl; [exact Hcells|]. by intros tc [? ?].
        -- rewrite cellCount_cons, Hcount, Hlen. simpl in Hfuel. lia.
      * simpl. rewrite fmap_imap. unfold lineRead at 1. rewrite Hinc.
        f_equal.
Qed.

(** ** Decoding the cells that were read back *)

Lemma reduceColumns_inverts options line r obj columns :
  ∀ columnIndex result,
    (∀ i column k,
       columns !! i = Some (Some column) →
       key column = Some k → nonEmpty k = true →
       let v := parsedValue column k (startIndexOf options)
                  (cellAt line (columnIndex + i)) r (columnIndex + i) in
       k ≠ "__proto__"
       ∧ fieldOf obj k
         = (if includeEmptyValues options || negb (isEmpty v)
            then Some v else None)
       ∧ (required column = true → isEmpty v = false)) →
    (∀ k, fieldOf result k = fieldOf obj k ∨ fieldOf result k = None) →
    ∃ result',
      reduceColumns options line r columns columnIndex result
      = Return result'
      ∧ ∀ k,
          fieldOf result' k = fieldOf obj k
          ∨ ((¬ ∃ i column, columns !! i = Some (Some column)
                            ∧ key column = Some k ∧ nonEmpty k = true)
             ∧ fieldOf result' k = fieldOf result k).
Proof.
  induction columns as [|head columns IH];
    intros columnIndex result Hinv Hresult.
  - exists result. split; [done|]. intros k. right. split; [|done].
    by intros (i & column & ? & _).
  - cbn [reduceColumns].
    assert (∀ i column k,
              columns !! i = Some (Some column) →
              key column = Some k → nonEmpty k = true →
              let v := parsedValue column k (startIndexOf options)
                         (cellAt line (S columnIndex + i)) r
                         (S columnIndex + i) in
              k ≠ "__proto__"
              ∧ fieldOf obj k
                = (if includeEmptyValues options || negb (isEmpty v)
                   then Some v else None)
              ∧ (required column = true → isEmpty v = false)) as Hinv'.
    { intros i column k Hi Hk Hne.
      replace (S columnIndex + i) with (columnIndex + S i) by lia.
      by apply (Hinv (S i)). }
    assert (∀ result1,
              (∀ k, fieldOf result1 k = fieldOf obj k
                    ∨ ((¬ key (default (keyColumn EmptyString) head) = Some k
                        ∨ nonEmpty k = false ∨ head = None)
                       ∧ fieldOf result1 k = fieldOf result k)) →
              ∃ result',
                reduceColumns options line r columns (S columnIndex) result1
                = Return result'
                ∧ ∀ k,
                    fieldOf result' k = fieldOf obj k
                    ∨ ((¬ ∃ i column,
                          (head :: columns) !! i = Some (Some column)
                          ∧ key column = Some k ∧ nonEmpty k = true)
                       ∧ fieldOf result' k = fieldOf result k)) as Hrest.
    { intros result1 H1.
      destruct (IH (S columnIndex) result1 Hinv') as (result' & Hred & Hk).
      { intros k. destruct (H1 k) as [?|[_ Heq]]; [by left|].
        rewrite Heq. apply Hresult. }
      exists result'. split; [done|]. intros k.
      destruct (Hk k) as [?|[Hnot Heq]]; [by left|].
      destruct (H1 k) as [?|[Hhead Heq1]]; [left; congruence|].
      right. split; [|congruence].
      intros (i & column & Hi & Hkey & Hne).
      destruct i as [|i]; [|apply Hnot; eauto].
      injection Hi as ->. simpl in Hhead.
      destruct Hhead as [?|[?|?]]; congruence. }
    unfold fromCSV_processColumn.
    destruct head as [column|]; [|apply Hrest; intros k; right; auto].
    simpl in Hrest.
    destruct (key column) as [k0|] eqn:Hk0;
      [|apply Hrest; intros k; right; auto].
    destruct (nonEmpty k0) eqn:Hne0; simpl.
    + destruct (Hinv 0 column k0 eq_refl Hk0 Hne0)
        as (Hproto & Hfield & Hrequired).
      rewrite Nat.add_0_r in Hfield, Hrequired.
      assert ((required column
               && isEmpty (parsedValue column k0 (startIndexOf options)
                             (cellAt line columnIndex) r columnIndex))
              = false) as ->.
      { destruct (required column); [|done]. by rewrite Hrequired. }
      destruct (includeEmptyValues options || negb (isEmpty _)) eqn:Hcond.
      * apply Hrest. intros k.
        destruct (decide (k0 = k)) as [<-|Hneq].
        -- left. by rewrite fieldOf_setField_eq.
        -- right. rewrite fieldOf_setField_ne by done. split; [|done].
           left. congruence.
      * apply Hrest. intros k.
        destruct (decide (k0 = k)) as [<-|Hneq].
        -- left. rewrite Hfield. destruct (Hresult k0) as [H|H]; [|done].
           by rewrite H.
        -- right. split; [|done]. left. congruence.
    + apply Hrest. intros k. right. split; [|done].
      destruct (decide (k0 = k)) as [<-|Hneq]; [auto|].
      left. congruence.
Qed.

Lemma cellAt_dataRow columns options obj r c column :
  columns !! c = Some column →
  cellAt (dataRow columns options obj r).*2 c
  = Some (clearedText (columnValue (startIndexOf options) obj r column c)).
Proof.
  intros Hc. unfold cellAt, dataRow.
  by rewrite list_lookup_fmap, list_lookup_imap, Hc.
Qed.

Lemma getRow_dataRow columns options obj r :
  RecordOK options columns obj r →
  ∃ row,
    fromCSV_getRow columns options (dataRow columns options obj r).*2 r
    = Return row
    ∧ sameFields row obj.
Proof.
  intros [_ _ _ Hstored Hinv Hfields]. unfold fromCSV_getRow.
  destruct (reduceColumns_inverts options (dataRow columns options obj r).*2
              r obj columns 0 []) as (row & Hrow & Hk).
  { intros i column k Hi Hkey Hne. simpl.
    rewrite (cellAt_dataRow _ _ _ _ _ _ Hi). split.
    - intros ->. by apply (Hstored i column Hi).
    - by apply Hinv. }
  { intros k. by right. }
  exists row. split; [done|]. intros k.
  destruct (Hk k) as [?|[Hnot Heq]]; [done|].
  rewrite Heq. simpl.
  destruct (fieldOf obj k) as [v|] eqn:Hv; [|done].
  destruct Hnot. apply Hfields. by rewrite Hv.
Qed.

Lemma cellAt_shifted column columns options obj c :
  cellAt (imap ((λ c column,
                   cellPair (columnValue (startIndexOf options) obj 0
                               column c)) ∘ S) columns).*2 c
  = (λ next, clearedText (columnValue (startIndexOf options) obj 0 next (S c)))
      <$> (column :: columns) !! S c.
Proof.
  unfold cellAt. rewrite list_lookup_fmap, list_lookup_imap.
  cbn [lookup list_lookup]. by destruct (columns !! c).
Qed.

(** The first record when its line is read one cell to the left. *)
Lemma getRow_shifted column columns options obj :
  RecordOK options (column :: columns) obj 0 →
  ShiftedOK options (column :: columns) obj →
  ∃ row,
    fromCSV_getRow (column :: columns) options
      (imap ((λ c column,
                cellPair (columnValue (startIndexOf options) obj 0
                            column c)) ∘ S) columns).*2 0
    = Return row
    ∧ sameFields row obj.
Proof.
  intros [_ _ _ Hstored Hinv Hfields] Hshift. unfold fromCSV_getRow.
  destruct (reduceColumns_inverts options
              (imap ((λ c column,
                        cellPair (columnValue (startIndexOf options) obj 0
                                    column c)) ∘ S) columns).*2
              0 obj (column :: columns) 0 []) as (row & Hrow & Hk).
  { intros i col k Hi Hkey Hne. cbn [Nat.add].
    rewrite (cellAt_shifted column). split.
    { intros ->. by apply (Hstored i col Hi). }
    destruct (Hinv i col k Hi Hkey Hne) as [Hfield Hreq].
    destruct (Hshift i col k Hi Hkey Hne) as [->|(Hinc & Hv & Hv')];
      [done|].
    cbv zeta in Hfield, Hreq. rewrite Hinc, Hv in Hfield.
    rewrite Hinc, Hv'. split; [done|].
    intros Hr. apply Hreq in Hr. congruence. }
  { intros k. by right. }
  exists row. split; [done|]. intros k.
  destruct (Hk k) as [?|[Hnot Heq]]; [done|].
  rewrite Heq. simpl.
  destruct (fieldOf obj k) as [v|] eqn:Hv; [|done].
  destruct Hnot. apply Hfields. by rewrite Hv.
Qed.

Lemma getRow_lineRead columns options obj r :
  RecordOK options columns obj r →
  (r = 0 → includeHeader options = false →
   FirstCellOK options columns obj 0 ∨ ShiftedOK options columns obj) →
  ∃ row,
    fromCSV_getRow columns options (lineRead columns options obj r) r
    = Return row
    ∧ sameFields row obj.
Proof.
  intros Hok Hfirst. destruct r as [|r]; [|by apply getRow_dataRow].
  unfold lineRead.
  destruct (includeHeader options) eqn:Hinc; [by apply getRow_dataRow|].
  destruct (Hfirst eq_refl eq_refl) as [Hcell|Hshift].
  { rewrite (dataRow_first _ _ _ _ Hok Hcell). by apply getRow_dataRow. }
  destruct columns as [|column columns].
  { by apply (getRow_dataRow [] options obj 0). }
  unfold dataRow. cbn [imap firstRowRead].
  destruct (cellPair (columnValue (startIndexOf options) obj 0 column 0))
    as [t cell] eqn:Hpair.
  destruct (nonEmpty t) eqn:Ht.
  - pose proof (getRow_dataRow _ _ _ _ Hok) as H.
    unfold dataRow in H. cbn [imap] in H. by rewrite Hpair in H.
  - by apply getRow_shifted.
Qed.

Lemma mapRows_imap columns options (g : nat → Obj → list Cell) rows :
  ∀ rowIndex,
    (∀ r obj, rows !! r = Some obj →
       ∃ row,
         fromCSV_getRow columns options (g (rowIndex + r) obj) (rowIndex + r)
         = Return row
         ∧ sameFields row obj) →
    ∃ rows',
      mapRows columns options (imap (λ r obj, g (rowIndex + r) obj) rows)
        rowIndex
      = Return rows'
      ∧ Forall2 sameFields rows' rows.
Proof.
  induction rows as [|obj rows IH]; intros rowIndex Hrows.
  - by exists [].
  - cbn [imap mapRows].
    destruct (Hrows 0 obj eq_refl) as (row & Hrow & Hsame).
    rewrite Nat.add_0_r in *. rewrite Hrow.
    destruct (IH (S rowIndex)) as (rows' & Hrows' & Hall).
    { intros r obj' Hr.
      replace (S rowIndex + r) with (rowIndex + S r) by lia.
      by apply (Hrows (S r)). }
    assert (imap ((λ r obj0, g (rowIndex + r) obj0) ∘ S) rows
            = imap (λ r obj0, g (S rowIndex + r) obj0) rows) as ->.
    { apply imap_ext. intros r obj' _. simpl. f_equal. lia. }
    rewrite Hrows'. exists (row :: rows'). split; [done|].
    by constructor.
Qed.

(** C1, as the code has it: decoding the encoding, with the same columns
    and options, returns a record sequence equal to the original field for
    field when the delimiter is a literal one and neither the quote nor a
    line break character; there is a record or a header line; the header
    line (if any) is not empty (two columns or more, or a header on the
    only column) and has no header with two consecutive line breaks;
    without a header line, the first cell of the first record is not
    empty, or the tokenizer, which does not read that cell, gives each
    column of that record a cell of which [fromCSV] stores what it stores
    of the column's own ([ShiftedOK]); and every record satisfies
    [RecordOK]: the text of each cell
    has no two consecutive line breaks and, unless the cell is escaped, no
    delimiter, quote or line break character; its line is not empty (two
    columns or more, or a cell that is not empty); the columns read fields
    of the record itself and none has the key [__proto__]; for each column
    with a key, the record has the value that the parser makes of the text
    of the cell when empty values are included or that value is not empty,
    and has no such field otherwise; that value is not empty when the
    column is required; and the record has no field besides the keys of
    the columns.  The loop of the tokenizer ends: more iterations than
    there are cells (at most one line more than records, times the
    columns) are enough. *)
Theorem fromCSV_toCSV_roundtrip (fuel : nat) (rows : list Obj)
    (columns : list ColumnInput) (options : Options) :
  DelimiterOK (delimiterOf options) →
  rows ≠ [] ∨ includeHeader options = true →
  (includeHeader options = true → HeaderOK (detectColumn <$> columns)) →
  (includeHeader options = false →
   ∀ obj, rows !! 0 = Some obj →
     FirstCellOK options (detectColumn <$> columns) obj 0
     ∨ ShiftedOK options (detectColumn <$> columns) obj) →
  (∀ r obj, rows !! r = Some obj →
     RecordOK options (detectColumn <$> columns) obj r) →
  (length rows + 1) * length columns < fuel →
  ∃ rows',
    fromCSV fuel (toCSV rows (Some columns) options) (Some columns) options
    = Some (Return rows')
    ∧ Forall2 sameFields rows' rows.
Proof.
  intros Hd Hne Hheader Hfirst Hrows Hfuel.
  destruct (csvToArray_gridOf rows (detectColumn <$> columns) options fuel)
    as (Htight & results & Hresults & Hdrop); try done.
  { destruct Hne; auto. }
  { by rewrite length_fmap. }
  rewrite toCSV_gridText. unfold fromCSV.
  rewrite (preprocess_Tight _ Htight). rewrite Hresults, Hdrop.
  destruct (mapRows_imap (detectColumn <$> columns) options
              (λ r obj, lineRead (detectColumn <$> columns) options obj r)
              rows 0) as (rows' & Hmap & Hall).
  { intros r obj Hr. apply getRow_lineRead; [by apply Hrows|].
    intros Hr0 Hinc. cbn [Nat.add] in Hr0. subst r. by apply Hfirst. }
  exists rows'. split; [|done]. f_equal. exact Hmap.
Qed.

(** The example of the specification, the text [A, 'B'$C] (with ' the
    double quote and $ the line feed), next to an empty text, under two
    columns given by name, with a header line, which is a single
    delimiter, and with the empty values included. *)
Lemma fromCSV_toCSV_roundtrip_witness :
  ∃ rows',
    fromCSV 5
      (toCSV [[("name", VString (js "A, 'B'$C")); ("note", VString EmptyString)]]
         (Some [ColumnName "name"; ColumnName "note"])
         {| includeHeader := true; includeEmptyValues := true;
            delimiter := None |})
      (Some [ColumnName "name"; ColumnName "note"])
      {| includeHeader := true; includeEmptyValues := true;
         delimiter := None |}
    = Some (Return rows')
    ∧ Forall2 sameFields rows'
        [[("name", VString (js "A, 'B'$C")); ("note", VString EmptyString)]].
Proof.
  apply (fromCSV_toCSV_roundtrip 5
           [[("name", VString (js "A, 'B'$C")); ("note", VString EmptyString)]]
           [ColumnName "name"; ColumnName "note"]
           {| includeHeader := true; includeEmptyValues := true;
              delimiter := None |}).
  - by split_and!.
  - by right.
  - intros _. split; [left; simpl; lia|].
    intros c column h Hc.
    destruct c as [|[|c]]; [| |done]; injection Hc as <-; intros [=].
  - intros [=].
  - intros r obj Hr. destruct r as [|r]; [|done]. injection Hr as <-.
    constructor.
    + intros c column Hc.
      destruct c as [|[|c]]; [| |done]; injection Hc as <-; reflexivity.
    + left. simpl. lia.
    + intros c column Hc. right.
      destruct c as [|[|c]]; [| |done]; injection Hc as <-; reflexivity.
    + intros c column Hc.
      destruct c as [|[|c]]; [| |done]; injection Hc as <-; intros [=].
    + intros c column k Hc.
      destruct c as [|[|c]]; [| |done]; injection Hc as <-;
        intros [= <-] _; (split; [reflexivity|intros [=]]).
    + intros k [v Hv]. cbn [fieldOf] in Hv.
      destruct (String.eqb "name" k) eqn:E1.
      { apply String.eqb_eq in E1 as <-.
        exists 0, (keyColumn "name"). by split_and!. }
      destruct (String.eqb "note" k) eqn:E2; [|done].
      apply String.eqb_eq in E2 as <-.
      exists 1, (keyColumn "note"). by split_and!.
  - simpl. lia.
Defined.

(** C1, as stated, fails: a text with a delimiter, quotes and two
    consecutive line breaks, under a single text column, comes back with
    one line break, the pre-processing of [fromCSV] having collapsed the
    two of the encoded text. *)
Lemma fromCSV_toCSV_blank_line_lost :
  toCSV [[("name", VString (js "A, 'B'$$C"))]] (Some [ColumnName "name"])
    noOptions
  = js "'A, ''B''$$C'"
  ∧ (∀ n, fromCSV (2 + n) (js "'A, ''B''$$C'") (Some [ColumnName "name"])
            noOptions
          = Some (Return [[("name", VString (js "A, 'B'$C"))]]))
  ∧ ¬ Forall2 sameFields [[("name", VString (js "A, 'B'$C"))]]
        [[("name", VString (js "A, 'B'$$C"))]].
Proof.
  split_and!; [reflexivity|intros n; reflexivity|].
  intros H. apply Forall2_cons_1 in H as [H _].
  specialize (H "name"). discriminate H.
Qed.

(** A first record without fields under two columns and no header line:
    its line is a single delimiter, which the tokenizer reads as one
    empty cell, and the record comes back as it is ([ShiftedOK] holds of
    it). *)
Lemma fromCSV_toCSV_empty_first_record :
  toCSV [[]; [("a", VString "x"); ("b", VString "y")]]
    (Some [ColumnName "a"; ColumnName "b"]) noOptions
  = js ",$'x','y'"
  ∧ (∀ n, fromCSV (4 + n) (js ",$'x','y'")
            (Some [ColumnName "a"; ColumnName "b"]) noOptions
          = Some (Return [[]; [("a", VString "x"); ("b", VString "y")]]))
  ∧ ShiftedOK noOptions (detectColumn <$> [ColumnName "a"; ColumnName "b"])
      [].
Proof.
  split_and!; [reflexivity|intros n; reflexivity|].
  intros c column k Hc.
  destruct c as [|[|c]]; [| |done]; injection Hc as <-; intros [= <-] _.
  - by left.
  - right. by split_and!.
Qed.

(** ** When the loop of the tokenizer ends *)

Lemma matchQuoted_length (s captured rest : string) :
  matchQuoted s = Some (captured, rest) →
  String.length rest < String.length s.
Proof.
  revert captured rest.
  induction s as [s IH] using (induction_ltof1 _ String.length).
  unfold ltof in IH. intros captured rest.
  destruct s as [|c s]; [done|]. cbn [matchQuoted].
  destruct (Ascii.eqb c DQUOTE).
  - destruct s as [|c' s'].
    + intros [= _ <-]. simpl. lia.
    + destruct (Ascii.eqb c' DQUOTE).
      * destruct (matchQuoted s') as [[captured' rest']|] eqn:E.
        -- intros [= _ <-]. apply IH in E; simpl in *; lia.
        -- intros [= _ <-]. simpl. lia.
      * intros [= _ <-]. simpl. lia.
  - destruct (matchQuoted s) as [[captured' rest']|] eqn:E; [|done].
    intros [= _ <-]. apply IH in E; simpl in *; lia.
Qed.

Lemma matchUnquoted_length (delimiter : ascii) (s value rest : string) :
  matchUnquoted delimiter s = (value, rest) →
  String.length rest ≤ String.length s.
Proof.
  revert value rest. induction s as [|c s IH]; intros value rest.
  - by intros [= _ <-].
  - cbn [matchUnquoted]. destruct (unquotedChar delimiter c).
    + destruct (matchUnquoted delimiter s) as [value' rest'] eqn:E.
      intros [= _ <-]. specialize (IH _ _ eq_refl). simpl. lia.
    + by intros [= _ <-].
Qed.

Lemma matchDelimiter_length (delimiter : ascii) (index : nat)
    (s matched s1 : string) :
  matchDelimiter delimiter index s = Some (matched, s1) →
  String.length s1 ≤ String.length s
  ∧ (0 < index → String.length s1 < String.length s).
Proof.
  unfold matchDelimiter.
  assert ((if Nat.eqb index 0 then Some (EmptyString, s) else None)
          = Some (matched, s1) →
          String.length s1 ≤ String.length s
          ∧ (0 < index → String.length s1 < String.length s)) as Hstart.
  { destruct index; [|done]. intros [= _ <-]. split; [done|lia]. }
  destruct s as [|c s]; [done|].
  destruct (Ascii.eqb c delimiter).
  { intros [= _ <-]. simpl. split; lia. }
  destruct (Ascii.eqb c CR).
  { destruct s as [|c' s']; [intros [= _ <-]; simpl; split; lia|].
    destruct (Ascii.eqb c' LF); intros [= _ <-]; simpl; split; lia. }
  destruct (Ascii.eqb c LF); [|done].
  intros [= _ <-]. simpl. split; lia.
Qed.

(** A match ends at or after the index where it starts, within the text,
    and after it when it does not start at index 0. *)
Lemma matchAt_endIndex (delimiter : ascii) (index : nat) (s : string)
    (m : Match) :
  matchAt delimiter index s = Some m →
  index ≤ endIndex m ≤ index + String.length s
  ∧ (0 < index → index < endIndex m).
Proof.
  unfold matchAt.
  destruct (matchDelimiter delimiter index s) as [[matched s1]|] eqn:Hd;
    [|done].
  apply matchDelimiter_length in Hd as [Hle Hlt].
  assert (∀ rest, String.length rest ≤ String.length s1 →
            index ≤ index + (String.length s - String.length rest)
                  ≤ index + String.length s
            ∧ (0 < index →
               index < index + (String.length s - String.length rest)))
    as Hbound.
  { intros rest Hrest. split; [lia|]. intros Hpos. specialize (Hlt Hpos). lia. }
  destruct (match s1 with
            | String c s2 =>
                if Ascii.eqb c DQUOTE then matchQuoted s2 else None
            | EmptyString => None
            end) as [[captured rest]|] eqn:Hq.
  - intros [= <-]. cbn [endIndex]. apply Hbound.
    destruct s1 as [|c s2]; [done|].
    destruct (Ascii.eqb c DQUOTE); [|done].
    apply matchQuoted_length in Hq. simpl. lia.
  - destruct (matchUnquoted delimiter s1) as [value rest] eqn:Hu.
    intros [= <-]. cbn [endIndex]. apply Hbound.
    by apply matchUnquoted_length in Hu.
Qed.

Lemma search_endIndex (delimiter : ascii) (s : string) :
  ∀ (index : nat) (m : Match),
    search delimiter index s = Some m →
    index ≤ endIndex m ≤ index + String.length s
    ∧ (0 < index → index < endIndex m).
Proof.
  induction s as [|c s IH]; intros index m; cbn [search].
  - destruct (matchAt delimiter index EmptyString) eqn:E; [|done].
    intros [= <-]. by apply matchAt_endIndex in E.
  - destruct (matchAt delimiter index (String c s)) eqn:E.
    + intros [= <-]. by apply matchAt_endIndex in E.
    + intros H. apply IH in H as [[H1 H2] H3]. simpl. split; [lia|].
      intros _. specialize (H3 ltac:(lia)). lia.
Qed.

Lemma exec_endIndex (delimiter : ascii) (str : string) (lastIndex : nat)
    (m : Match) :
  exec delimiter str lastIndex = Some m →
  lastIndex ≤ endIndex m ≤ String.length str
  ∧ (0 < lastIndex → lastIndex < endIndex m).
Proof.
  unfold exec. destruct (String.length str <? lastIndex) eqn:E; [done|].
  apply Nat.ltb_ge in E. intros H%search_endIndex.
  rewrite length_str_drop in H. lia.
Qed.

(** Once [lastIndex] has left 0 every match moves it forward, so the loop
    ends. *)
Lemma csvToArrayLoop_returns (delimiter : ascii) (str : string) (n : nat) :
  ∀ (lastIndex : nat) (results : list (list Cell)),
    0 < lastIndex →
    String.length str + 1 - lastIndex < n →
    ∃ rows, ∀ k,
      csvToArrayLoop (n + k) delimiter str lastIndex results = Some rows.
Proof.
  induction n as [|n IH]; intros lastIndex results Hpos Hn; [lia|].
  destruct (exec delimiter str lastIndex) as [m|] eqn:Hexec.
  - destruct (exec_endIndex _ _ _ _ Hexec) as [[H1 H2] H3].
    specialize (H3 Hpos).
    destruct (IH (endIndex m) (addMatch delimiter m results)) as [rows Hrows];
      [lia..|].
    exists rows. intros k. cbn [Nat.add csvToArrayLoop]. by rewrite Hexec.
  - exists results. intros k. cbn [Nat.add csvToArrayLoop]. by rewrite Hexec.
Qed.

Lemma csvToArrayLoop_more_fuel (delimiter : ascii) (str : string)
    (fuel : nat) :
  ∀ lastIndex results rows,
    csvToArrayLoop fuel delimiter str lastIndex results = Some rows →
    ∀ k, csvToArrayLoop (fuel + k) delimiter str lastIndex results
         = Some rows.
Proof.
  induction fuel as [|fuel IH]; intros lastIndex results rows; [done|].
  cbn [Nat.add csvToArrayLoop].
  destruct (exec delimiter str lastIndex) as [m|]; [|done].
  apply IH.
Qed.

(** For a literal delimiter, the tokenizer returns exactly on the texts
    whose first match is not empty, and then within as many iterations as
    the text has characters, plus two; on the other texts (the empty text,
    and a text that starts with a quote which is never closed) it returns
    for no number of iterations. *)
Theorem csvToArray_returns_iff (str : string) (delimiter : ascii) :
  literalDelimiter delimiter = true →
  ((∃ fuel rows, csvToArray fuel str delimiter = Some rows)
   ↔ ∀ m, exec delimiter str 0 = Some m → endIndex m ≠ 0)
  ∧ ((∀ m, exec delimiter str 0 = Some m → endIndex m ≠ 0) →
     ∃ rows, ∀ fuel, String.length str + 2 ≤ fuel →
                     csvToArray fuel str delimiter = Some rows).
Proof.
  intros _.
  assert ((∀ m, exec delimiter str 0 = Some m → endIndex m ≠ 0) →
          ∃ rows, ∀ fuel, String.length str + 2 ≤ fuel →
                          csvToArray fuel str delimiter = Some rows) as Hret.
  { intros Hfirst. unfold csvToArray.
    destruct (exec delimiter str 0) as [m|] eqn:Hexec.
    - specialize (Hfirst m eq_refl).
      destruct (exec_endIndex _ _ _ _ Hexec) as [[_ Hle] _].
      destruct (csvToArrayLoop_returns delimiter str (String.length str + 1)
                  (endIndex m) (addMatch delimiter m [[]])) as [rows Hrows];
        [lia..|].
      exists rows. intros fuel Hfuel.
      replace fuel
        with (S (String.length str + 1 + (fuel - (String.length str + 2))))
        by lia.
      cbn [csvToArrayLoop]. by rewrite Hexec.
    - exists [[]]. intros fuel Hfuel. destruct fuel as [|fuel]; [lia|].
      cbn [csvToArrayLoop]. by rewrite Hexec. }
  split; [|done]. split.
  - intros (fuel & rows & Hrows) m Hexec Hend.
    unfold csvToArray in Hrows.
    by rewrite (csvToArrayLoop_stuck _ _ _ _ Hexec Hend) in Hrows.
  - intros Hfirst. destruct (Hret Hfirst) as [rows Hrows].
    exists (String.length str + 2), rows. by apply Hrows.
Qed.

Lemma csvToArray_returns_iff_witness :
  ((∃ fuel rows, csvToArray fuel "a,b" "," = Some rows)
   ↔ ∀ m, exec "," "a,b" 0 = Some m → endIndex m ≠ 0)
  ∧ ((∀ m, exec "," "a,b" 0 = Some m → endIndex m ≠ 0) →
     ∃ rows, ∀ fuel, String.length "a,b" + 2 ≤ fuel →
                     csvToArray fuel "a,b" "," = Some rows).
Proof. apply (csvToArray_returns_iff "a,b" ","). reflexivity. Defined.

(** ** The examples of the documentation *)

(** Without columns and without a header line the keys are [col1],
    [col2], ...; with a header line they are the cells of the first line,
    which is not a data row. *)
Lemma fromCSV_default_columns :
  (∀ n, fromCSV (3 + n) (js "'Cat Chow',5.29") None noOptions
        = Some (Return [[("col1", VString "Cat Chow");
                         ("col2", VString "5.29")]]))
  ∧ (∀ n, fromCSV (5 + n) (js "'Name','Price'$'Cat Chow',5.29") None
            withHeader
          = Some (Return [[("Name", VString "Cat Chow");
                           ("Price", VString "5.29")]])).
Proof. split; intros n; reflexivity. Qed.

(** The two tests of the repository on a text column and a column with a
    parser, whatever the parser is. *)
Lemma kitty_cat (parse : Parser) :
  let columns :=
    [ColumnName "name";
     ColumnObject {| header := None; key := Some "amount"; required := false;
                     converter := None; parser := Some parse;
                     parseEmpty := false |}] in
  let amount :=
    parse "2" {| p_key := "amount"; p_row := 1; p_column := 1 |} in
  toCSV [[("name", VString "Kitty cat");
          ("amount", VNumber (Finite false "2" 1))]]
    (Some columns) noOptions
  = js "'Kitty cat',2"
  ∧ (isEmpty amount = false →
     ∀ n, fromCSV (3 + n) (js "'Kitty cat',2") (Some columns) noOptions
          = Some (Return [[("name", VString "Kitty cat");
                           ("amount", amount)]])).
Proof.
  intros columns amount. split; [reflexivity|]. intros Hamount n.
  change (fromCSV (3 + n) (js "'Kitty cat',2") (Some columns) noOptions)
    with (Some (mapRows (detectColumn <$> columns) noOptions
                  [[Some "Kitty cat"; Some "2"]] 0)).
  f_equal. cbn. fold amount. by rewrite Hamount.
Qed.

(** Without columns [toCSV] takes the keys of the first record, and a field
    that holds an object is emitted as an empty cell. *)
Lemma toCSV_ignores_object_values :
  toCSV
    [[("name", VString "Cat Chow"); ("price", VNumber (Finite false "529" 3));
      ("data", VObject [("sku", VString "53;3")])];
     [("name", VString "Pizza"); ("price", VNumber (Finite false "699" 3));
      ("data", VObject [("sku", VString "109;2")])]]
    None withHeader
  = js "'name','price','data'$'Cat Chow',529,$'Pizza',699,".
Proof. reflexivity. Qed.

(** The tokenizer reads back what the rules of [toCSV] emit: on the text of
    rows of cells, each cell a non-empty text between quotes with its
    quotes doubled or a text without delimiter, quote, CR and LF, the first
    cell of each row not empty, it returns the rows of the unescaped texts,
    given more iterations than there are cells. *)
Theorem csvToArray_reads_cells_back (delimiter : ascii)
    (rows : list (list (string * Cell))) (fuel : nat) :
  DelimiterOK delimiter →
  rows ≠ [] →
  Forall (RowOK delimiter) rows →
  cellCount rows < fuel →
  csvToArray fuel (gridText delimiter rows) delimiter
  = Some ((λ row, row.*2) <$> rows)
  ∧ gridText delimiter rows
    = String.concat (String LF EmptyString)
        ((λ row, String.concat (String delimiter EmptyString) row.*1)
           <$> rows).
Proof.
  intros Hd Hne Hrows Hfuel. split.
  - by apply csvToArray_gridText.
  - rewrite <- concat_gridText. f_equal. apply list_fmap_ext.
    intros _ row _. by rewrite concat_rowText.
Qed.

Lemma csvToArray_reads_cells_back_witness :
  csvToArray 5
    (gridText ","
       [[(js "'a''b'", Some (js "a'b")); ("1", Some "1")];
        [("x", Some "x"); (EmptyString, Some EmptyString)]])
    ","
  = Some [[Some (js "a'b"); Some "1"]; [Some "x"; Some EmptyString]]
  ∧ gridText ","
      [[(js "'a''b'", Some (js "a'b")); ("1", Some "1")];
       [("x", Some "x"); (EmptyString, Some EmptyString)]]
    = js "'a''b',1$x,".
Proof.
  destruct (csvToArray_reads_cells_back ","
              [[(js "'a''b'", Some (js "a'b")); ("1", Some "1")];
               [("x", Some "x"); (EmptyString, Some EmptyString)]] 5)
    as [H1 H2].
  - by split_and!.
  - done.
  - repeat constructor; try done.
    apply (quotedCell "," (js "a'b")). done.
  - unfold cellCount. simpl. lia.
  - split; [exact H1|reflexivity].
Defined.

(** ** The records that fromCSV returns *)

Lemma mapRows_length columns options csvLines rowIndex rows :
  mapRows columns options csvLines rowIndex = Return rows →
  length rows = length csvLines.
Proof.
  revert rowIndex rows.
  induction csvLines as [|line csvLines IH]; intros rowIndex rows.
  - by intros [= <-].
  - cbn [mapRows].
    destruct (fromCSV_getRow columns options line rowIndex); [|done].
    destruct (mapRows columns options csvLines (S rowIndex)) eqn:E; [|done].
    intros [= <-]. simpl. f_equal. by eapply IH.
Qed.

Lemma fromCSV_return_inv fuel csvStr columns options rows :
  fromCSV fuel csvStr (Some columns) options = Some (Return rows) →
  ∃ results,
    csvToArray fuel (preprocess csvStr) (delimiterOf options) = Some results
    ∧ mapRows (detectColumn <$> columns) options
        (drop (startIndexOf options) results) 0
      = Return rows.
Proof.
  unfold fromCSV.
  destruct (csvToArray fuel (preprocess csvStr) (delimiterOf options))
    as [results|]; [|done].
  intros [= H]. by exists results.
Qed.

(** When [fromCSV] returns, it returns one record for each row of the
    tokenizer after the header row, in the same order: the number of
    records is the number of rows less the header row. *)
Theorem fromCSV_record_count (fuel : nat) (csvStr : string)
    (columns : list ColumnInput) (options : Options) (rows : list Obj) :
  fromCSV fuel csvStr (Some columns) options = Some (Return rows) →
  ∃ results,
    csvToArray fuel (preprocess csvStr) (delimiterOf options) = Some results
    ∧ length rows = length results - (if includeHeader options then 1 else 0)
    ∧ ∀ r line,
        drop (if includeHeader options then 1 else 0) results !! r
        = Some line →
        ∃ row, rows !! r = Some row
               ∧ fromCSV_getRow (detectColumn <$> columns) options line r
                 = Return row.
Proof.
  intros (results & Htok & Hmap)%fromCSV_return_inv.
  exists results. split; [done|]. split.
  - apply mapRows_length in Hmap. by rewrite Hmap, length_drop.
  - intros r line Hr.
    by destruct (mapRows_lookup _ _ _ _ _ _ _ Hmap Hr) as (row & ? & ?);
      exists row.
Qed.

Lemma fromCSV_record_count_witness :
  ∃ results,
    csvToArray 9 (preprocess (js "x,y$a,b$c,d")) (delimiterOf withHeader)
    = Some results
    ∧ length [[("k", VString "a")]; [("k", VString "c")]]
      = length results - 1
    ∧ ∀ r line,
        drop 1 results !! r = Some line →
        ∃ row, [[("k", VString "a")]; [("k", VString "c")]] !! r = Some row
               ∧ fromCSV_getRow (detectColumn <$> [ColumnName "k"])
                   withHeader line r
                 = Return row.
Proof.
  apply (fromCSV_record_count 9 (js "x,y$a,b$c,d") [ColumnName "k"]
           withHeader [[("k", VString "a")]; [("k", VString "c")]]).
  reflexivity.
Defined.

Lemma fieldOf_setField_inv (obj : Obj) (k k' : string) (v v' : Value) :
  fieldOf (setField obj k v) k' = Some v' →
  (k = k' ∧ v' = v) ∨ fieldOf obj k' = Some v'.
Proof.
  destruct (decide (k = "__proto__")) as [Hp|Hp].
  { rewrite setField_proto by done. by right. }
  destruct (decide (k = k')) as [<-|Hne].
  - rewrite fieldOf_setField_eq by done. intros [= <-]. by left.
  - rewrite fieldOf_setField_ne by done. by right.
Qed.

Lemma fieldOf_None (obj : Obj) (k : string) :
  fieldOf obj k = None ↔ k ∉ obj.*1.
Proof.
  induction obj as [|[k0 v0] obj IH]; simpl.
  - split; [intros _|done]. apply not_elem_of_nil.
  - rewrite not_elem_of_cons. destruct (String.eqb k0 k) eqn:E.
    + apply String.eqb_eq in E as ->. split; [done|]. by intros [? _].
    + apply String.eqb_neq in E. rewrite IH. split; [|by intros [_ ?]].
      intros ?. split; [congruence|done].
Qed.

Lemma storeField_keys (obj : Obj) (k : string) (v : Value) :
  (storeField obj k v).*1
  = if decide (k ∈ obj.*1) then obj.*1 else obj.*1 ++ [k].
Proof.
  induction obj as [|[k0 v0] obj IH].
  - destruct (decide (k ∈ ([] : Obj).*1)) as [H|H]; [|done].
    by apply elem_of_nil in H.
  - cbn [storeField]. destruct (String.eqb k0 k) eqn:E.
    + apply String.eqb_eq in E as ->. rewrite !fmap_cons. cbn [fst].
      destruct (decide (k ∈ k :: obj.*1)) as [H|H]; [done|].
      destruct H. by left.
    + apply String.eqb_neq in E. rewrite !fmap_cons, IH. cbn [fst].
      destruct (decide (k ∈ obj.*1)) as [H1|H1];
        destruct (decide (k ∈ k0 :: obj.*1)) as [H2|H2]; try done.
      * destruct H2. by right.
      * apply elem_of_cons in H2 as [?|?]; congruence.
Qed.

Lemma setField_keys (obj : Obj) (k : string) (v : Value) :
  k ≠ "__proto__" →
  (setField obj k v).*1
  = if decide (k ∈ obj.*1) then obj.*1 else obj.*1 ++ [k].
Proof. intros Hp. rewrite setField_store by done. apply storeField_keys. Qed.

Lemma setField_NoDup (obj : Obj) (k : string) (v : Value) :
  NoDup obj.*1 → NoDup (setField obj k v).*1.
Proof.
  intros H. destruct (decide (k = "__proto__")) as [Hp|Hp].
  { by rewrite setField_proto. }
  rewrite setField_keys by done. destruct (decide (k ∈ obj.*1)); [done|].
  apply NoDup_app. split_and!; [done| |apply NoDup_singleton].
  intros x Hx ->%list_elem_of_singleton. done.
Qed.

Lemma ColumnKey_cons (head : option Column) (columns : list (option Column))
    (k : string) :
  ColumnKey (head :: columns) k
  ↔ (∃ column, head = Some column ∧ key column = Some k ∧ nonEmpty k = true)
    ∨ ColumnKey columns k.
Proof.
  unfold ColumnKey. split.
  - intros (c & column & Hc & Hk & Hne). destruct c as [|c].
    + left. injection Hc as ->. by exists column.
    + right. by exists c, column.
  - intros [(column & -> & Hk & Hne)|(c & column & Hc & Hk & Hne)].
    + by exists 0, column.
    + by exists (S c), column.
Qed.

(** The two ways in which a step of the fold returns. *)
Lemma processColumn_return_cases options line rowIndex result column
    columnIndex result' :
  fromCSV_processColumn options line rowIndex result column columnIndex
  = Return result' →
  (result' = result
   ∧ ((¬ ∃ col k, column = Some col ∧ key col = Some k ∧ nonEmpty k = true)
      ∨ includeEmptyValues options = false))
  ∨ ∃ col k,
      column = Some col ∧ key col = Some k ∧ nonEmpty k = true
      ∧ result' = setField result k
                    (parsedValue col k (startIndexOf options)
                       (cellAt line columnIndex) rowIndex columnIndex)
      ∧ (includeEmptyValues options = false →
         isEmpty (parsedValue col k (startIndexOf options)
                    (cellAt line columnIndex) rowIndex columnIndex) = false).
Proof.
  unfold fromCSV_processColumn.
  destruct column as [col|].
  2: { intros [= <-]. left. split; [done|]. left. by intros (? & ? & ? & _). }
  destruct (key col) as [k|] eqn:Hk.
  2: { intros [= <-]. left. split; [done|]. left.
       intros (? & ? & [= <-] & ? & _). congruence. }
  destruct (nonEmpty k) eqn:Hne; simpl.
  2: { intros [= <-]. left. split; [done|]. left.
       intros (? & ? & [= <-] & ? & ?). congruence. }
  destruct (required col && isEmpty _); [done|].
  destruct (includeEmptyValues options) eqn:Hinc; simpl.
  - intros [= <-]. right. by exists col, k.
  - destruct (isEmpty _) eqn:Hemp; simpl.
    + intros [= <-]. left. split; [done|]. by right.
    + intros [= <-]. right. exists col, k. by split_and!.
Qed.

Lemma reduceColumns_shape options line rowIndex columns :
  ∀ columnIndex result result',
    reduceColumns options line rowIndex columns columnIndex result
    = Return result' →
    (NoDup result.*1 → NoDup result'.*1)
    ∧ (∀ k v, fieldOf result' k = Some v →
              fieldOf result k = Some v
              ∨ (ColumnKey columns k
                 ∧ (includeEmptyValues options = false → isEmpty v = false)))
    ∧ (includeEmptyValues options = true →
       ∀ k, (ColumnKey columns k ∧ k ≠ "__proto__")
            ∨ is_Some (fieldOf result k) →
            is_Some (fieldOf result' k)).
Proof.
  induction columns as [|head columns IH]; intros columnIndex result result'.
  - intros [= <-]. split_and!; [done|by left|].
    intros _ k [[(c & ? & ? & _) _]|?]; done.
  - cbn [reduceColumns].
    destruct (fromCSV_processColumn options line rowIndex result head
                columnIndex) as [result1|] eqn:Hstep; [|done].
    intros (IH1 & IH2 & IH3)%IH.
    apply processColumn_return_cases in Hstep
      as [[-> Hcase]|(col & k0 & -> & Hk0 & Hne0 & -> & Hval)].
    + split_and!; [done| |].
      * intros k v [?|[Hkey ?]]%IH2; [by left|]. right. split; [|done].
        apply ColumnKey_cons. by right.
      * intros Hinc k Hk. apply (IH3 Hinc).
        destruct Hk as [[[Hhead|?]%ColumnKey_cons ?]|?];
          [|by left|by right].
        destruct Hcase as [Hno|?]; [|congruence].
        destruct Hno. destruct Hhead as (column & ? & ? & ?). eauto.
    + split_and!.
      * intros Hnd. by apply IH1, setField_NoDup.
      * intros k v [Hin|[Hkey ?]]%IH2.
        -- apply fieldOf_setField_inv in Hin as [[<- ->]|?]; [|by left].
           right. split; [|done]. apply ColumnKey_cons. left. eauto.
        -- right. split; [|done]. apply ColumnKey_cons. by right.
      * intros Hinc k Hk. apply (IH3 Hinc).
        destruct (decide (k0 = k)) as [<-|Hneq].
        { destruct Hk as [[_ Hp]|Hk].
          - right. by rewrite fieldOf_setField_eq.
          - destruct (decide (k0 = "__proto__")) as [Hp|Hp].
            + right. by rewrite setField_proto.
            + right. by rewrite fieldOf_setField_eq. }
        rewrite fieldOf_setField_ne by done.
        destruct Hk as [[[Hhead|?]%ColumnKey_cons ?]|?];
          [|by left|by right].
        destruct Hhead as (column & [= <-] & ? & ?). congruence.
Qed.

(** The records that [fromCSV] returns have distinct keys, each the
    non-empty key of a column, and hold no null, undefined or empty string
    unless empty values are included; when they are included, every
    record has a field for every such key but [__proto__], which an
    assignment does not store. *)
Theorem fromCSV_record_fields (fuel : nat) (csvStr : string)
    (columns : list ColumnInput) (options : Options) (rows : list Obj)
    (r : nat) (row : Obj) :
  fromCSV fuel csvStr (Some columns) options = Some (Return rows) →
  rows !! r = Some row →
  RecordShape options (detectColumn <$> columns) row
  ∧ (includeEmptyValues options = true →
     ∀ k, ColumnKey (detectColumn <$> columns) k → k ≠ "__proto__" →
          is_Some (fieldOf row k)).
Proof.
  intros (results & Htok & Hmap)%fromCSV_return_inv Hr.
  assert (∃ line, drop (startIndexOf options) results !! r = Some line)
    as [line Hline].
  { apply lookup_lt_is_Some. rewrite <- (mapRows_length _ _ _ _ _ Hmap).
    by apply lookup_lt_Some in Hr. }
  destruct (mapRows_lookup _ _ _ _ _ _ _ Hmap Hline) as (row' & Hrow' & Hget).
  assert (row' = row) as -> by congruence.
  unfold fromCSV_getRow in Hget.
  apply reduceColumns_shape in Hget as (H1 & H2 & H3).
  split; [split|].
  - apply H1. constructor.
  - intros k v [?|?]%H2; done.
  - intros Hinc k Hk Hp. apply (H3 Hinc). by left.
Qed.

(** A line with an empty second cell, and a column with the key
    [__proto__], with the empty values included. *)
Lemma fromCSV_record_fields_witness :
  RecordShape withEmptyValues
    (detectColumn <$> [ColumnName "a"; ColumnName "b"; ColumnName "__proto__"])
    [("a", VString "x"); ("b", VString EmptyString)]
  ∧ (includeEmptyValues withEmptyValues = true →
     ∀ k, ColumnKey
            (detectColumn
               <$> [ColumnName "a"; ColumnName "b"; ColumnName "__proto__"])
            k →
          k ≠ "__proto__" →
          is_Some (fieldOf [("a", VString "x"); ("b", VString EmptyString)] k)).
Proof.
  apply (fromCSV_record_fields 5 "x,,y"
           [ColumnName "a"; ColumnName "b"; ColumnName "__proto__"]
           withEmptyValues
           [[("a", VString "x"); ("b", VString EmptyString)]] 0);
    reflexivity.
Defined.

(** ** When fromCSV throws *)

Lemma mapRows_throw_inv columns options csvLines e :
  ∀ rowIndex,
    mapRows columns options csvLines rowIndex = Throw e →
    ∃ r line c column k,
      csvLines !! r = Some line ∧ columns !! c = Some (Some column)
      ∧ RequiredEmpty options line (rowIndex + r) column c k
      ∧ e = requiredMessage k.
Proof.
  induction csvLines as [|head csvLines IH]; intros rowIndex; [done|].
  cbn [mapRows]. unfold fromCSV_getRow.
  destruct (reduceColumns options head rowIndex columns 0 [])
    as [row|e'] eqn:Hrow.
  - destruct (mapRows columns options csvLines (S rowIndex))
      as [rows|e'] eqn:Hrows; [done|].
    intros [= ->].
    destruct (IH _ Hrows) as (r & line & c & column & k & Hr & Hc & Hbad & ->).
    exists (S r), line, c, column, k.
    by replace (rowIndex + S r) with (S rowIndex + r) by lia.
  - intros [= ->].
    apply reduceColumns_throw_inv in Hrow as (c & column & k & Hc & Hbad & ->).
    exists 0, head, c, column, k. by rewrite Nat.add_0_r.
Qed.





(** ** The field of a column whose key no other column has *)

Lemma processColumn_keyed options line rowIndex result column columnIndex k :
  key column = Some k → nonEmpty k = true →
  ∀ result',
    fromCSV_processColumn options line rowIndex result (Some column)
      columnIndex = Return result' →
    let v := parsedValue column k (startIndexOf options)
               (cellAt line columnIndex) rowIndex columnIndex in
    result' = if includeEmptyValues options || negb (isEmpty v)
              then setField result k v else result.
Proof.
  intros Hk Hne result'. unfold fromCSV_processColumn.
  rewrite Hk, Hne. simpl.
  destruct (required column && isEmpty _); [done|].
  destruct (includeEmptyValues options || _); by intros [= <-].
Qed.

Lemma getRow_field_of_column columns options line r row c column k :
  fromCSV_getRow columns options line r = Return row →
  columns !! c = Some (Some column) →
  key column = Some k → nonEmpty k = true → k ≠ "__proto__" →
  (∀ c' column', columns !! c' = Some (Some column') →
                 key column' = Some k → c' = c) →
  let v := parsedValue column k (startIndexOf options) (cellAt line c) r c in
  fieldOf row k
  = if includeEmptyValues options || negb (isEmpty v) then Some v else None.
Proof.
  intros Hget Hc Hk Hne Hp Huniq v. unfold fromCSV_getRow in Hget.
  destruct (list_elem_of_split_length _ _ _ Hc) as (pre & post & Hcols & Hlen).
  rewrite Hcols in Hget, Huniq.
  rewrite reduceColumns_app in Hget.
  destruct (reduceColumns options line r pre 0 []) as [row1|] eqn:Hpre;
    [|done].
  cbn [reduceColumns] in Hget.
  destruct (fromCSV_processColumn options line r row1 (Some column)
              (0 + length pre)) as [row2|] eqn:Hstep; [|done].
  rewrite (reduceColumns_other_keys _ _ _ _ _ _ _ _ Hget).
  2: { intros c' column' Hc' Hk'.
       assert (length pre + S c' = c); [|lia].
       apply (Huniq _ column'); [|done].
       rewrite lookup_app_r by lia.
       by replace (length pre + S c' - length pre) with (S c') by lia. }
  apply (processColumn_keyed _ _ _ _ _ _ _ Hk Hne) in Hstep.
  simpl in Hstep. rewrite <- Hlen in Hstep. fold v in Hstep.
  assert (fieldOf row1 k = None) as Hnone.
  { rewrite (reduceColumns_other_keys _ _ _ _ _ _ _ _ Hpre); [done|].
    intros c' column' Hc' Hk'.
    assert (c' = c); [|apply lookup_lt_Some in Hc'; lia].
    apply (Huniq _ column'); [|done]. by apply lookup_app_l_Some. }
  rewrite Hstep. destruct (includeEmptyValues options || negb (isEmpty v)).
  - by apply fieldOf_setField_eq.
  - done.
Qed.

(** When the key of column [c] is not empty, is not [__proto__] (which an
    assignment does not store) and no other column has it, the record of a
    data row holds under that key the value of cell [c] after parsing; it
    has no such field when that value is null, undefined or the empty
    string and empty values are not included. *)
Theorem fromCSV_field_of_column (fuel : nat) (csvStr : string)
    (columns : list ColumnInput) (options : Options) (rows : list Obj)
    (results : list (list Cell)) (r : nat) (line : list Cell) (row : Obj)
    (c : nat) (column : Column) (k : string) :
  fromCSV fuel csvStr (Some columns) options = Some (Return rows) →
  csvToArray fuel (preprocess csvStr) (delimiterOf options) = Some results →
  drop (startIndexOf options) results !! r = Some line →
  rows !! r = Some row →
  (detectColumn <$> columns) !! c = Some (Some column) →
  key column = Some k → nonEmpty k = true → k ≠ "__proto__" →
  (∀ c' column', (detectColumn <$> columns) !! c' = Some (Some column') →
                 key column' = Some k → c' = c) →
  let v := parsedValue column k (startIndexOf options) (cellAt line c) r c in
  fieldOf row k
  = if includeEmptyValues options || negb (isEmpty v) then Some v else None.
Proof.
  intros (results' & Htok' & Hmap)%fromCSV_return_inv Htok Hr Hrow Hc Hk Hne
    Hp Huniq v.
  assert (results' = results) as -> by congruence.
  destruct (mapRows_lookup _ _ _ _ _ _ _ Hmap Hr) as (row' & Hrow' & Hget).
  assert (row' = row) as -> by congruence.
  by apply (getRow_field_of_column _ _ _ _ _ _ _ _ Hget Hc Hk Hne Hp Huniq).
Qed.

Lemma fromCSV_field_of_column_witness :
  fieldOf [("a", VString "x")] "b"
  = if includeEmptyValues noOptions
       || negb (isEmpty (parsedValue (keyColumn "b") "b"
                           (startIndexOf noOptions)
                           (cellAt [Some "x"; Some EmptyString] 1) 0 1))
    then Some (parsedValue (keyColumn "b") "b" (startIndexOf noOptions)
                 (cellAt [Some "x"; Some EmptyString] 1) 0 1)
    else None.
Proof.
  apply (fromCSV_field_of_column 5 "x," [ColumnName "a"; ColumnName "b"]
           noOptions [[("a", VString "x")]] [[Some "x"; Some EmptyString]]
           0 [Some "x"; Some EmptyString] [("a", VString "x")] 1
           (keyColumn "b") "b"); try reflexivity.
  - intros [=].
  - intros [|[|c']] column'; [by intros [= <-] [=]|done..].
Defined.

(** ** The lines that the pre-processing keeps *)

Lemma linesOf_line_feed (s : string) :
  linesOf (String LF s) = EmptyString :: linesOf s.
Proof. done. Qed.

Lemma linesOf_char (c : ascii) (s : string) :
  c ≠ LF →
  ∃ line lines, linesOf s = line :: lines
                ∧ linesOf (String c s) = String c line :: lines.
Proof.
  intros Hc%Ascii.eqb_neq. cbn [linesOf]. rewrite Hc.
  destruct s as [|c' s']; [by exists EmptyString, []|].
  cbn [linesOf]. destruct (Ascii.eqb c' LF); [by eexists _, _|].
  destruct (linesOf s'); by eexists _, _.
Qed.

Lemma nonEmptyLines_line_feed (s : string) :
  nonEmptyLines (String LF s) = nonEmptyLines s.
Proof. done. Qed.

Lemma nonEmptyLines_nil (s : string) :
  nonEmptyLines s = [] ↔ lineBreaksOnly s = true.
Proof.
  induction s as [|c s IH]; [done|].
  destruct (decide (c = LF)) as [->|Hc].
  - by rewrite nonEmptyLines_line_feed.
  - cbn [lineBreaksOnly]. pose proof Hc as Hc'%Ascii.eqb_neq. rewrite Hc'.
    destruct (linesOf_char c s Hc) as (line & lines & _ & Hl).
    unfold nonEmptyLines. rewrite Hl. rewrite filter_cons_True by done.
    done.
Qed.

Lemma lineBreaksOnly_ends (s : string) :
  lineBreaksOnly s = true → nonEmpty s = true → endsWithLineBreak s = true.
Proof.
  induction s as [|c s IH]; [done|]. cbn [lineBreaksOnly].
  intros [Hc Hs]%andb_true_iff _. cbn [endsWithLineBreak].
  destruct s; [done|]. by apply IH.
Qed.

Lemma lineBreaksOnly_starts (s : string) :
  startsWithLineBreak s = false → lineBreaksOnly s = true → s = EmptyString.
Proof.
  destruct s as [|c s]; [done|]. cbn [startsWithLineBreak lineBreaksOnly].
  by intros ->.
Qed.

Lemma concat_cons_cons (sep x y : string) (ls : list string) :
  String.concat sep (x :: y :: ls)
  = x +:+ sep +:+ String.concat sep (y :: ls).
Proof. done. Qed.

(** What [collapseLineBreaks] yields, after the line feed it starts with
    when it keeps one. *)
Lemma collapseLineBreaks_lines (s : string) :
  ∀ inRun,
    collapseLineBreaks inRun s
    = (if negb inRun && startsWithLineBreak s then String LF EmptyString
       else EmptyString)
      +:+ String.concat (String LF EmptyString) (nonEmptyLines s)
      +:+ (if endsWithLineBreak s && negb (lineBreaksOnly s)
           then String LF EmptyString else EmptyString).
Proof.
  induction s as [|c s IH]; intros inRun.
  - by destruct inRun.
  - destruct (decide (c = LF)) as [->|Hc].
    + rewrite nonEmptyLines_line_feed.
      assert ((if endsWithLineBreak (String LF s)
                    && negb (lineBreaksOnly (String LF s))
               then String LF EmptyString else EmptyString)
              = (if endsWithLineBreak s && negb (lineBreaksOnly s)
                 then String LF EmptyString else EmptyString)) as ->.
      { destruct s; [done|]. done. }
      cbn [collapseLineBreaks startsWithLineBreak].
      rewrite Ascii.eqb_refl, andb_true_r.
      destruct inRun; cbn [negb].
      * by rewrite (IH true).
      * destruct s as [|c' s'].
        { done. }
        destruct (Ascii.eqb c' LF) eqn:Hc'.
        -- by rewrite (IH true).
        -- rewrite (IH false). cbn [startsWithLineBreak negb andb].
           by rewrite Hc'.
    + pose proof Hc as Hc'%Ascii.eqb_neq.
      cbn [collapseLineBreaks startsWithLineBreak]. rewrite Hc'.
      rewrite andb_false_r. rewrite (IH false). cbn [negb andb].
      change (EmptyString +:+ ?x) with x.
      destruct (linesOf_char c s Hc) as (line & lines & Hs & Hcs).
      cbn [lineBreaksOnly]. rewrite Hc'. cbn [andb negb].
      rewrite andb_true_r.
      destruct s as [|c' s'].
      { unfold nonEmptyLines. rewrite Hcs. injection Hs as <- <-.
        cbn [endsWithLineBreak]. by rewrite Hc'. }
      change (endsWithLineBreak (String c (String c' s')))
        with (endsWithLineBreak (String c' s')).
      unfold nonEmptyLines at 2. rewrite Hcs.
      rewrite filter_cons_True by done.
      cbn [startsWithLineBreak].
      destruct (Ascii.eqb c' LF) eqn:Ec'.
      * apply Ascii.eqb_eq in Ec' as ->.
        rewrite linesOf_line_feed in Hs. injection Hs as <- <-.
        rewrite nonEmptyLines_line_feed.
        destruct (lineBreaksOnly (String LF s')) eqn:Hlbo.
        -- pose proof (lineBreaksOnly_ends _ Hlbo eq_refl) as ->.
           apply nonEmptyLines_nil in Hlbo.
           rewrite nonEmptyLines_line_feed in Hlbo.
           rewrite Hlbo. unfold nonEmptyLines in Hlbo. by rewrite Hlbo.
        -- rewrite andb_true_r.
           destruct (filter _ (linesOf s')) as [|y ls] eqn:Hf.
           { assert (lineBreaksOnly (String LF s') = true); [|congruence].
             apply nonEmptyLines_nil. by rewrite nonEmptyLines_line_feed. }
           change (nonEmptyLines s') with (filter (λ line : string, nonEmpty line = true) (linesOf s')).
           rewrite Hf. rewrite concat_cons_cons.
           by rewrite !app_cons, !app_assoc_str.
      * assert (lineBreaksOnly (String c' s') = false) as ->.
        { cbn [lineBreaksOnly]. by rewrite Ec'. }
        rewrite andb_true_r.
        assert (c' ≠ LF) as Hne by by apply Ascii.eqb_neq.
        destruct (linesOf_char c' s' Hne) as (line' & lines' & _ & Hs').
        rewrite Hs in Hs'. injection Hs' as -> ->.
        unfold nonEmptyLines. rewrite Hs.
        rewrite filter_cons_True by done.
        destruct (filter _ lines') as [|y ls]; [done|].
        by rewrite !concat_cons_cons, !app_cons.
Qed.

Lemma concat_nonEmptyLines_start (s : string) :
  startsWithLineBreak
    (String.concat (String LF EmptyString) (nonEmptyLines s)) = false.
Proof.
  unfold nonEmptyLines.
  destruct (filter _ (linesOf s)) as [|x ls] eqn:Hf; [done|].
  assert (x ∈ filter (λ line : string, nonEmpty line = true) (linesOf s))
    as [Hx Hin]%list_elem_of_filter by (rewrite Hf; left).
  clear Hf. destruct x as [|c x]; [done|].
  assert (Ascii.eqb c LF = false) as Hc.
  { clear Hx. revert c x Hin. induction s as [|c' s IH]; intros c x.
    - by intros ?%list_elem_of_singleton.
    - cbn [linesOf]. destruct (Ascii.eqb c' LF) eqn:E.
      + intros [?|?]%elem_of_cons; [done|by apply (IH c x)].
      + destruct (linesOf s) as [|line lines] eqn:Hl.
        * intros [= -> ->]%list_elem_of_singleton. done.
        * intros [[= -> ->]|Hin]%elem_of_cons; [done|].
          apply (IH c x). by right. }
  destruct ls; cbn [String.concat]; by rewrite ?app_cons; simpl; rewrite Hc.
Qed.

Lemma linesOf_ends (s : string) :
  Forall (λ line, endsWithLineBreak line = false) (linesOf s).
Proof.
  induction s as [|c s IH]; [by constructor|].
  cbn [linesOf]. destruct (Ascii.eqb c LF) eqn:Hc; [by constructor|].
  destruct (linesOf s) as [|line lines]; [constructor; [|done]|].
  - cbn [endsWithLineBreak]. done.
  - apply Forall_cons in IH as [Hline Hlines]. constructor; [|done].
    cbn [endsWithLineBreak]. by destruct line.
Qed.

Lemma concat_lines_end (lines : list string) :
  Forall (λ line, nonEmpty line = true ∧ endsWithLineBreak line = false)
    lines →
  endsWithLineBreak (String.concat (String LF EmptyString) lines) = false
  ∧ (lines ≠ [] →
     nonEmpty (String.concat (String LF EmptyString) lines) = true).
Proof.
  induction 1 as [|x ls [Hx Hend] Hls [IH1 IH2]]; [done|].
  destruct ls as [|y ls]; [done|]. rewrite concat_cons_cons.
  specialize (IH2 ltac:(done)). split.
  - rewrite endsWithLineBreak_app. rewrite app_cons. cbn [nonEmpty].
    cbn [endsWithLineBreak]. change (EmptyString +:+ ?x) with x.
    destruct (String.concat _ (y :: ls)); done.
  - intros _. by destruct x.
Qed.

Lemma removeFinalLineBreak_snoc (s : string) :
  removeFinalLineBreak (s +:+ String LF EmptyString) = s.
Proof.
  induction s as [|c s IH]; [done|]. rewrite app_cons.
  cbn [removeFinalLineBreak]. rewrite IH. by destruct s.
Qed.

(** The text that [fromCSV] hands to the tokenizer is the lines of the
    text that are not empty, in their order and joined by single line
    feeds; one line feed follows them when the text both starts and ends
    with a line feed (and has a line that is not empty). *)
Theorem preprocess_nonEmptyLines (csvStr : string) :
  preprocess csvStr
  = String.concat (String LF EmptyString) (nonEmptyLines csvStr)
    +:+ (if startsWithLineBreak csvStr && endsWithLineBreak csvStr
            && negb (lineBreaksOnly csvStr)
         then String LF EmptyString else EmptyString).
Proof.
  unfold preprocess. rewrite (collapseLineBreaks_lines csvStr false).
  cbn [negb andb].
  destruct (startsWithLineBreak csvStr) eqn:Hstart; cbn [andb].
  { done. }
  change (EmptyString +:+ ?x) with x.
  pose proof (concat_nonEmptyLines_start csvStr) as HJ.
  assert (Forall (λ line, nonEmpty line = true
                          ∧ endsWithLineBreak line = false)
            (nonEmptyLines csvStr)) as Hall.
  { apply Forall_forall. intros line [Hne Hin]%list_elem_of_filter.
    split; [done|].
    by apply (proj1 (Forall_forall _ _) (linesOf_ends csvStr)). }
  apply concat_lines_end in Hall as [Hend Hne].
  destruct (lineBreaksOnly csvStr) eqn:Hlbo.
  - rewrite (lineBreaksOnly_starts _ Hstart Hlbo). done.
  - assert (nonEmptyLines csvStr ≠ []) as Hnil.
    { intros H%nonEmptyLines_nil. congruence. }
    specialize (Hne Hnil).
    destruct (String.concat _ (nonEmptyLines csvStr)) as [|c J] eqn:HJeq;
      [done|].
    cbn [startsWithLineBreak] in HJ. rewrite andb_true_r.
    unfold stripLineBreak. rewrite app_cons, HJ. rewrite <- app_cons.
    destruct (endsWithLineBreak csvStr).
    + by rewrite removeFinalLineBreak_snoc, app_empty_r.
    + rewrite app_empty_r. by apply removeFinalLineBreak_id.
Qed.

(** ** toCSV without a column list *)

Lemma detectColumnsFromJSON_lookup (rows : list Obj) (options : Options)
    (i : nat) (k : string) :
  objectKeys (default [] (head rows)) !! i = Some k →
  detectColumnsFromJSON rows options !! i
  = Some (if nonEmpty k
          then Some {| header := if includeHeader options then Some k
                                 else None;
                       key := Some k; required := false;
                       converter := None; parser := None;
                       parseEmpty := false |}
          else None).
Proof.
  intros Hk. unfold detectColumnsFromJSON.
  rewrite list_lookup_imap.
  rewrite (list_lookup_fmap (λ key, detectColumn (ColumnName key))).
  rewrite Hk. simpl.
  destruct (nonEmpty k); [|done].
  by destruct (includeHeader options).
Qed.

Lemma detectColumnsFromJSON_length (rows : list Obj) (options : Options) :
  length (detectColumnsFromJSON rows options)
  = length (objectKeys (default [] (head rows))).
Proof.
  unfold detectColumnsFromJSON. by rewrite length_imap, length_fmap.
Qed.

(** ** Distinct cells have distinct labels *)

Lemma pretty_N_go_digits (x : N) :
  ∀ s, digitsOnly s = true → digitsOnly (pretty_N_go x s) = true.
Proof.
  induction (N.lt_wf_0 x) as [x _ IH]; intros s Hs.
  assert (x = 0 ∨ 0 < x)%N as [->|Hx] by lia.
  - by rewrite pretty_N_go_0.
  - rewrite pretty_N_go_step by done. apply IH.
    { by apply N.div_lt. }
    cbn [digitsOnly]. rewrite Hs, andb_true_r.
    unfold pretty_N_char. by repeat case_match.
Qed.

Lemma pretty_nat_digits (n : nat) : digitsOnly (pretty n) = true.
Proof.
  unfold pretty, pretty_nat, pretty, pretty_N.
  destruct (decide _); [done|]. by apply pretty_N_go_digits.
Qed.

Lemma letter_not_digit (c : ascii) :
  isLetter c = true → isDigit c = true → False.
Proof.
  unfold isLetter, isDigit.
  intros [H1 H2]%andb_true_iff [H3 H4]%andb_true_iff.
  apply Nat.leb_le in H1, H2, H3, H4. lia.
Qed.

(** A text of letters followed by a text of digits is so in one way. *)
Lemma letters_digits_split (a b x y : string) :
  lettersOnly a = true → lettersOnly b = true →
  digitsOnly x = true → digitsOnly y = true →
  a +:+ x = b +:+ y → a = b ∧ x = y.
Proof.
  revert b. induction a as [|c a IH]; intros [|c' b] Ha Hb Hx Hy.
  - done.
  - change (EmptyString +:+ x) with x. rewrite app_cons. intros ->.
    cbn [lettersOnly digitsOnly] in *.
    apply andb_true_iff in Hb as [Hb _], Hx as [Hx _].
    destruct (letter_not_digit _ Hb Hx).
  - change (EmptyString +:+ y) with y. rewrite app_cons. intros <-.
    cbn [lettersOnly digitsOnly] in *.
    apply andb_true_iff in Ha as [Ha _], Hy as [Hy _].
    destruct (letter_not_digit _ Ha Hy).
  - rewrite !app_cons. intros [= -> Hrest].
    cbn [lettersOnly] in *.
    apply andb_true_iff in Ha as [_ Ha], Hb as [_ Hb].
    destruct (IH b Ha Hb Hx Hy Hrest) as [-> ->]. done.
Qed.

(** Two cells have the same label only when they are the same cell: the
    label tells the row number and the column number. *)
Theorem cellLabel_injective (rowNumber columnNumber rowNumber'
    columnNumber' : nat) :
  cellLabel rowNumber columnNumber = cellLabel rowNumber' columnNumber' →
  rowNumber = rowNumber' ∧ columnNumber = columnNumber'.
Proof.
  unfold cellLabel. intros H.
  destruct (columnLabel_value columnNumber) as [Hl Hv].
  destruct (columnLabel_value columnNumber') as [Hl' Hv'].
  apply letters_digits_split in H as [Hcol Hrow];
    [|done|done|apply pretty_nat_digits..].
  split.
  - by apply (inj pretty).
  - rewrite Hcol in Hv. lia.
Qed.

Lemma cellLabel_injective_witness : 9 = 9 ∧ 4 = 4.
Proof. apply (cellLabel_injective 9 4 9 4). reflexivity. Defined.

(** ** The rows that the tokenizer returns *)

Lemma addMatch_rows (delimiter : ascii) (m : Match) (first : list Cell)
    (rest : list (list Cell)) :
  Forall (λ row, row ≠ []) rest →
  (first = [] → rest ≠ []) →
  ∃ first' rest',
    addMatch delimiter m (first :: rest) = first' :: rest'
    ∧ Forall (λ row, row ≠ []) rest'
    ∧ (first' = [] → rest' ≠ [])
    ∧ (first' = [] ↔ first = []).
Proof.
  intros Hrest Hfirst. unfold addMatch.
  destruct ((0 <? String.length (matches1 m)) && _).
  - change ((first :: rest) ++ [[]]) with (first :: rest ++ [[]]).
    rewrite app_comm_cons, pushToLast_snoc. simpl.
    exists first, (rest ++ [[matchValue m]]). split_and!; [done| | |done].
    + apply Forall_app. split; [done|]. by constructor.
    + intros _. by destruct rest.
  - destruct (decide (rest = [])) as [->|Hne].
    + exists (first ++ [matchValue m]), []. simpl. split_and!; [done..| |].
      * by destruct first.
      * split; [by destruct first|]. intros H. by destruct (Hfirst H).
    + destruct (exists_last Hne) as (pre & row & ->).
      rewrite app_comm_cons, pushToLast_snoc. simpl.
      exists first, (pre ++ [row ++ [matchValue m]]).
      split_and!; [done| | |done].
      * apply Forall_app in Hrest as [Hpre _].
        apply Forall_app. split; [done|]. constructor; [|done].
        by destruct row.
      * intros _. by destruct pre.
Qed.

Lemma csvToArrayLoop_shape (delimiter : ascii) (str : string) (fuel : nat) :
  ∀ lastIndex first rest results,
    Forall (λ row, row ≠ []) rest →
    (first = [] → rest ≠ []) →
    csvToArrayLoop fuel delimiter str lastIndex (first :: rest)
    = Some results →
    ∃ first' rest',
      results = first' :: rest'
      ∧ Forall (λ row, row ≠ []) rest'
      ∧ (first' = [] ↔ first = []).
Proof.
  induction fuel as [|fuel IH]; intros lastIndex first rest results
    Hrest Hfirst; [done|].
  cbn [csvToArrayLoop].
  destruct (exec delimiter str lastIndex) as [m|].
  - destruct (addMatch_rows delimiter m first rest Hrest Hfirst)
      as (first1 & rest1 & -> & Hrest1 & Hfirst1 & Hiff).
    intros (first' & rest' & -> & Hrest' & Hiff')%IH; [|done..].
    exists first', rest'. split_and!; [done..|]. by rewrite Hiff'.
  - intros [= <-]. by exists first, rest.
Qed.

Lemma matchAt_start (delimiter : ascii) (str : string) :
  delimiter ≠ CR → delimiter ≠ LF →
  ∃ m, matchAt delimiter 0 str = Some m
       ∧ ((0 <? String.length (matches1 m))
          && negb (String.eqb (matches1 m) (String delimiter EmptyString))
          = startsWithRowBreak str).
Proof.
  intros Hcr%Ascii.eqb_neq Hlf%Ascii.eqb_neq. unfold matchAt.
  destruct (matchDelimiter delimiter 0 str) as [[matched s1]|] eqn:Hd.
  2: { unfold matchDelimiter in Hd. cbn [Nat.eqb] in Hd.
       destruct str as [|c str]; [done|].
       destruct (Ascii.eqb c delimiter); [done|].
       destruct (Ascii.eqb c CR); [by destruct str as [|c' ?];
                                    [|destruct (Ascii.eqb c' LF)]|].
       by destruct (Ascii.eqb c LF). }
  assert ((0 <? String.length matched)
          && negb (String.eqb matched (String delimiter EmptyString))
          = startsWithRowBreak str) as Hrow.
  { unfold matchDelimiter in Hd. cbn [Nat.eqb] in Hd.
    destruct str as [|c str]; [by injection Hd as <- <-|].
    cbn [startsWithRowBreak].
    destruct (Ascii.eqb c delimiter) eqn:Ec.
    { injection Hd as <- <-. apply Ascii.eqb_eq in Ec as ->.
      rewrite Hcr, Hlf. cbn [String.length Nat.ltb Nat.leb andb orb].
      by rewrite String.eqb_refl. }
    destruct (Ascii.eqb c CR) eqn:Er.
    { apply Ascii.eqb_eq in Er as ->. rewrite Ascii.eqb_sym in Hcr.
      destruct str as [|c' str]; [|destruct (Ascii.eqb c' LF)];
        injection Hd as <- <-; cbn [orb];
        cbn [String.length Nat.ltb Nat.leb andb String.eqb];
        by rewrite ?Hcr. }
    destruct (Ascii.eqb c LF) eqn:El.
    { apply Ascii.eqb_eq in El as ->. rewrite Ascii.eqb_sym in Hlf.
      injection Hd as <- <-. cbn [orb].
      cbn [String.length Nat.ltb Nat.leb andb String.eqb].
      by rewrite Hlf. }
    by injection Hd as <- <-. }
  destruct (match s1 with
            | String c s2 => if Ascii.eqb c DQUOTE then matchQuoted s2 else None
            | EmptyString => None
            end) as [[captured rest]|].
  - by eexists.
  - destruct (matchUnquoted delimiter s1). by eexists.
Qed.

(** The array that the tokenizer returns has a first row, and no row after
    it is empty: a row is added only with its first cell.  The first row
    is empty exactly when the text starts with a carriage return or a line
    feed, for a literal delimiter that is neither. *)
Theorem csvToArray_rows (fuel : nat) (str : string) (delimiter : ascii)
    (results : list (list Cell)) :
  literalDelimiter delimiter = true →
  delimiter ≠ CR → delimiter ≠ LF →
  csvToArray fuel str delimiter = Some results →
  ∃ first rest,
    results = first :: rest
    ∧ Forall (λ row, row ≠ []) rest
    ∧ (first = [] ↔ startsWithRowBreak str = true).
Proof.
  intros _ Hcr Hlf. unfold csvToArray.
  destruct fuel as [|fuel]; [done|]. cbn [csvToArrayLoop].
  destruct (matchAt_start delimiter str Hcr Hlf) as (m & Hm & Hrow).
  assert (exec delimiter str 0 = Some m) as ->.
  { unfold exec. cbn [str_drop Nat.ltb Nat.leb].
    destruct str; cbn [search]; by rewrite Hm. }
  unfold addMatch. rewrite Hrow.
  destruct (startsWithRowBreak str).
  - cbn [app pushToLast].
    intros (first' & rest' & -> & Hrest' & Hiff)%csvToArrayLoop_shape;
      [|by repeat constructor|done].
    exists first', rest'. split_and!; [done..|]. by rewrite Hiff.
  - cbn [pushToLast app].
    intros (first' & rest' & -> & Hrest' & Hiff)%csvToArrayLoop_shape;
      [|done..].
    exists first', rest'. split_and!; [done..|]. rewrite Hiff. done.
Qed.

Lemma csvToArray_rows_witness :
  ∃ first rest,
    [[]; [Some "a"; Some "b"]; [Some "c"]] = first :: rest
    ∧ Forall (λ row : list Cell, row ≠ []) rest
    ∧ (first = [] ↔ startsWithRowBreak (String LF (js "a,b$c")) = true).
Proof.
  apply (csvToArray_rows 9 (String LF (js "a,b$c")) ","); done.
Defined.

(** ** The round trip with the columns that are detected *)

Lemma fieldOf_is_Some (obj : Obj) (k : string) :
  is_Some (fieldOf obj k) → k ∈ obj.*1.
Proof.
  intros [v Hv]. destruct (decide (k ∈ obj.*1)) as [|Hnot]; [done|].
  apply fieldOf_None in Hnot. congruence.
Qed.

Lemma noLineFeed_noBlankLine (s : string) :
  noLineFeed s = true → noBlankLine s = true.
Proof.
  induction s as [|c s IH]; [done|]. cbn [noLineFeed noBlankLine].
  intros [Hc Hs]%andb_true_iff. apply negb_true_iff in Hc.
  rewrite Hc. by apply IH.
Qed.

Lemma noLineFeed_app (a b : string) :
  noLineFeed (a +:+ b) = noLineFeed a && noLineFeed b.
Proof.
  induction a as [|c a IH]; [done|]. rewrite app_cons. cbn [noLineFeed].
  by rewrite IH, andb_assoc.
Qed.

Lemma noLineFeed_escapeCSV (s : string) :
  noLineFeed (escapeCSV s) = noLineFeed s.
Proof.
  unfold escapeCSV. cbn [noLineFeed]. rewrite noLineFeed_app.
  change (noLineFeed (String DQUOTE EmptyString)) with true.
  rewrite andb_true_r. change (negb (Ascii.eqb DQUOTE LF)) with true.
  cbn [andb].
  induction s as [|c s IH]; [done|]. cbn [doubleQuotes noLineFeed].
  destruct (Ascii.eqb c DQUOTE) eqn:E.
  - apply Ascii.eqb_eq in E as ->. cbn [noLineFeed]. by rewrite IH.
  - cbn [noLineFeed]. by rewrite IH.
Qed.

Lemma firstLineOf_line (a b : string) :
  noLineFeed a = true →
  b = EmptyString ∨ startsWithLineBreak b = true →
  firstLineOf (a +:+ b) = a.
Proof.
  intros Ha Hb. induction a as [|c a IH].
  - change (EmptyString +:+ b) with b.
    destruct Hb as [->|Hb]; [done|]. destruct b as [|c b]; [done|].
    cbn [startsWithLineBreak] in Hb. cbn [firstLineOf]. by rewrite Hb.
  - cbn [noLineFeed] in Ha. apply andb_true_iff in Ha as [Hc Ha].
    apply negb_true_iff in Hc. rewrite app_cons. cbn [firstLineOf].
    by rewrite Hc, IH.
Qed.

Lemma noLineFeed_headerRow (delimiter : ascii) (keys : list string) :
  delimiter ≠ LF →
  Forall (λ k, noLineFeed k = true) keys →
  noLineFeed (rowText delimiter ((λ k, (escapeCSV k, Some k)) <$> keys))
  = true.
Proof.
  intros Hd%Ascii.eqb_neq Hkeys. rewrite <- concat_rowText.
  rewrite <- list_fmap_compose.
  induction Hkeys as [|k keys Hk Hkeys IH]; [done|].
  destruct keys as [|k' keys].
  - change (noLineFeed (escapeCSV k) = true).
    by rewrite noLineFeed_escapeCSV.
  - change (noLineFeed (escapeCSV k +:+ String delimiter EmptyString
                        +:+ String.concat (String delimiter EmptyString)
                              (fst ∘ (λ k, (escapeCSV k, Some k))
                                 <$> k' :: keys)) = true).
    rewrite noLineFeed_app, noLineFeed_escapeCSV, Hk. rewrite app_cons.
    cbn [noLineFeed andb]. rewrite Hd. exact IH.
Qed.

Lemma namedColumns_lookup (h : string → option string) (keys : list string)
    (c : nat) (column : option Column) :
  ((λ k, Some (namedColumn (h k) k)) <$> keys) !! c = Some column →
  ∃ k, keys !! c = Some k ∧ column = Some (namedColumn (h k) k).
Proof.
  rewrite list_lookup_fmap. destruct (keys !! c) as [k|]; [|done].
  intros [= <-]. by exists k.
Qed.

Lemma getField_text (obj : Obj) (k s : string) :
  fieldOf obj k = Some (VString s) → getField obj k = VString s.
Proof. unfold getField. by intros ->. Qed.

Lemma convertedValue_named startIndex obj r (h : option string) k c :
  convertedValue startIndex obj r (namedColumn h k) c = getField obj k.
Proof. done. Qed.

(** A record of texts is one that the round trip takes back, under the
    columns of its keys, whatever their headers. *)
Lemma TextRecord_RecordOK (h : string → option string) (options : Options)
    (keys : list string) (obj : Obj) (r : nat) :
  keys ≠ [] →
  Forall (λ k, nonEmpty k = true) keys →
  "__proto__" ∉ keys →
  TextRecord (delimiterOf options) keys obj →
  RecordOK options ((λ k, Some (namedColumn (h k) k)) <$> keys) obj r
  ∧ FirstCellOK options ((λ k, Some (namedColumn (h k) k)) <$> keys) obj r.
Proof.
  intros Hne Hkeys Hproto [Hfields Htexts].
  assert (FirstCellOK options ((λ k, Some (namedColumn (h k) k)) <$> keys)
            obj r) as Hfirst.
  { destruct keys as [|k keys]; [done|]. eexists. split; [done|].
    destruct (Htexts k) as (s & Hs & Hnes & _); [left|].
    cbn [columnValue]. rewrite convertedValue_named.
    by rewrite (getField_text _ _ _ Hs). }
  split; [|done]. constructor.
  - intros c column (k & Hk & ->)%namedColumns_lookup.
    destruct (Htexts k) as (s & Hs & _ & Hread);
      [by eapply list_elem_of_lookup_2|].
    cbn [columnValue]. rewrite convertedValue_named.
    by rewrite (getField_text _ _ _ Hs).
  - by right.
  - intros c column (k & Hk & [= ->])%namedColumns_lookup.
    destruct (Htexts k) as (s & Hs & _); [by eapply list_elem_of_lookup_2|].
    left. change (is_Some (fieldOf obj k)). by rewrite Hs.
  - intros c column (k & Hk & [= ->])%namedColumns_lookup [= ->].
    apply Hproto. by eapply list_elem_of_lookup_2.
  - intros c column k (k' & Hk' & [= ->])%namedColumns_lookup [= <-] Hnek.
    destruct (Htexts k') as (s & Hs & Hnes & _);
      [by eapply list_elem_of_lookup_2|].
    rewrite convertedValue_named, (getField_text _ _ _ Hs).
    unfold parsedValue. cbn [namedColumn parser required].
    change (clearedText (VString s)) with s.
    cbn [isEmpty]. rewrite Hnes. cbn [negb]. rewrite orb_true_r.
    by split.
  - intros k Hk. apply Hfields in Hk.
    apply list_elem_of_lookup_1 in Hk as [c Hc].
    exists c, (namedColumn (h k) k). split_and!.
    + by rewrite list_lookup_fmap, Hc.
    + done.
    + by apply (proj1 (Forall_lookup _ _) Hkeys c k).
Qed.

Lemma dataRow_namedColumns (h : string → option string) (options : Options)
    (keys : list string) (obj : Obj) (r : nat) :
  dataRow ((λ k, Some (namedColumn (h k) k)) <$> keys) options obj r
  = (λ k, cellPair (getField obj k)) <$> keys.
Proof.
  unfold dataRow. apply list_eq. intros c.
  rewrite list_lookup_imap, !list_lookup_fmap.
  by destruct (keys !! c).
Qed.

Lemma detectColumnsFromJSON_header (rows : list Obj) (options : Options) :
  includeHeader options = true →
  Forall (λ k, nonEmpty k = true) (objectKeys (default [] (head rows))) →
  detectColumnsFromJSON rows options
  = (λ k, Some (namedColumn (Some k) k))
      <$> objectKeys (default [] (head rows)).
Proof.
  intros Hinc Hkeys. apply list_eq. intros c.
  destruct (objectKeys (default [] (head rows)) !! c) as [k|] eqn:Hk.
  - rewrite (detectColumnsFromJSON_lookup _ _ _ _ Hk), Hinc.
    rewrite (proj1 (Forall_lookup _ _) Hkeys c k Hk).
    by rewrite list_lookup_fmap, Hk.
  - rewrite list_lookup_fmap, Hk.
    apply lookup_ge_None. rewrite detectColumnsFromJSON_length.
    by apply lookup_ge_None.
Qed.

(** With a header line and no column list on either side, decoding the
    encoding returns the records field for field, when every record is
    a record of texts under the keys of the first one, which has a key
    (no other fields; under each key a string that is not empty, has no
    two consecutive line feeds and, unless [toCSV] escapes it, no
    delimiter, quote or line break character), these keys are not empty,
    have no line feed and are not [__proto__], and the delimiter is a
    literal one.  The keys are those of [Object.keys], the array indices
    first; the columns are read off the header line, which holds them.
    More iterations than there are cells are enough. *)
Theorem fromCSV_toCSV_detected_columns (fuel : nat) (rows : list Obj)
    (options : Options) (first : Obj) :
  includeHeader options = true →
  DelimiterOK (delimiterOf options) →
  head rows = Some first → objectKeys first ≠ [] →
  Forall (λ k, nonEmpty k = true ∧ noLineFeed k = true ∧ k ≠ "__proto__")
    (objectKeys first) →
  Forall (TextRecord (delimiterOf options) (objectKeys first)) rows →
  (length rows + 1) * length (objectKeys first) < fuel →
  ∃ rows',
    fromCSV fuel (toCSV rows None options) None options
    = Some (Return rows')
    ∧ Forall2 sameFields rows' rows.
Proof.
  intros Hinc Hd Hhead Hkne Hkeys Hrecs Hfuel.
  set (keys := objectKeys first) in *.
  set (d := delimiterOf options) in *.
  assert (Forall (λ k, nonEmpty k = true) keys) as Hnonempty.
  { eapply Forall_impl; [exact Hkeys|]. by intros k (? & ? & ?). }
  assert (Forall (λ k, noLineFeed k = true) keys) as Hnolf.
  { eapply Forall_impl; [exact Hkeys|]. by intros k (? & ? & ?). }
  assert ("__proto__" ∉ keys) as Hproto.
  { intros Hin. by destruct (proj1 (Forall_forall _ _) Hkeys _ Hin)
                     as (_ & _ & ?). }
  set (colsJ := (λ k, Some (namedColumn (Some k) k)) <$> keys).
  set (colsC := (λ k, Some (namedColumn None k)) <$> keys).
  assert (length colsJ = length keys) as HlenJ.
  { subst colsJ. by rewrite length_fmap. }
  assert (detectColumnsFromJSON rows options = colsJ) as HJ.
  { rewrite detectColumnsFromJSON_header; rewrite ?Hhead; done. }
  assert (∀ r obj, rows !! r = Some obj →
            RecordOK options colsJ obj r ∧ FirstCellOK options colsJ obj r)
    as HokJ.
  { intros r obj Hr. apply TextRecord_RecordOK; [done..|].
    by apply (proj1 (Forall_lookup _ _) Hrecs r obj). }
  assert (∀ r obj, rows !! r = Some obj → RecordOK options colsC obj r)
    as HokC.
  { intros r obj Hr. apply TextRecord_RecordOK; [done..|].
    by apply (proj1 (Forall_lookup _ _) Hrecs r obj). }
  assert (HeaderOK colsJ ∧ FirstHeaderOK colsJ) as Hheader.
  { assert (FirstHeaderOK colsJ) as Hfirst.
    { destruct keys as [|k keys'] eqn:Ek; [done|].
      exists (namedColumn (Some k) k), k. split_and!; [done..|].
      by apply Forall_cons in Hnonempty as [? _]. }
    split; [|done]. split; [by right|].
    intros c column h (k & Hk & [= ->])%namedColumns_lookup [= ->].
    apply noLineFeed_noBlankLine.
    by apply (proj1 (Forall_lookup _ _) Hnolf c h). }
  destruct (gridOf_ok rows colsJ options Hd (λ _, Hheader) HokJ)
    as (Hok & Htight & Hcount).
  assert (toCSV rows None options = gridText d (gridOf rows colsJ options))
    as Htext.
  { pose proof (toCSV_gridText rows
                  ((λ k, ColumnObject (namedColumn (Some k) k)) <$> keys)
                  options) as H.
    unfold toCSV in *. rewrite <- !list_fmap_compose in H.
    rewrite HJ. exact H. }
  set (headerRow := (λ k, (escapeCSV k, Some k)) <$> keys).
  set (dataRows := (λ obj, (λ k, cellPair (getField obj k)) <$> keys)
                     <$> rows).
  assert (gridOf rows colsJ options = headerRow :: dataRows) as Hgrid.
  { unfold gridOf. rewrite Hinc. cbn [app]. f_equal.
    - unfold colsJ, headerRow. rewrite <- list_fmap_compose.
      apply list_fmap_ext. intros i k Hk. unfold headerPair. simpl.
      apply list_elem_of_lookup_2 in Hk.
      by rewrite (proj1 (Forall_forall _ _) Hnonempty k Hk).
    - unfold dataRows. apply list_eq. intros r.
      rewrite list_lookup_imap, list_lookup_fmap.
      destruct (rows !! r); [|done]. simpl. unfold colsJ.
      by rewrite dataRow_namedColumns. }
  rewrite Hgrid in *.
  apply Forall_cons in Hok as [HokH HokD].
  apply Forall_cons in Htight as [HtightH HtightD].
  assert (Tight (gridText d (headerRow :: dataRows))) as HT.
  { apply Tight_gridText; [done|by constructor..]. }
  assert (nonEmpty (gridText d (headerRow :: dataRows)) = true) as Hne.
  { cbn [gridText].
    destruct (Tight_rowText d headerRow Hd HokH HtightH) as [_ H].
    by destruct (rowText d headerRow). }
  assert (length headerRow = length keys) as HlenH.
  { unfold headerRow. by rewrite length_fmap. }
  assert (detectColumnsFromCSV fuel (gridText d (headerRow :: dataRows))
            options = Some colsC) as HC.
  { unfold detectColumnsFromCSV. fold d.
    assert (firstLineOf (gridText d (headerRow :: dataRows))
            = gridText d [headerRow]) as ->.
    { cbn [gridText restOfGrid]. rewrite app_empty_r.
      apply firstLineOf_line.
      - apply noLineFeed_headerRow; [|done]. by destruct Hd as (_ & _ & _ & ?).
      - destruct dataRows; [by left|by right]. }
    rewrite (csvToArray_gridText d [headerRow] fuel Hd);
      [|done|by constructor|].
    2: { rewrite cellCount_cons. change (cellCount []) with 0. lia. }
    rewrite Hinc. cbn [fmap list_fmap head default]. f_equal.
    unfold headerRow, colsC, id. rewrite <- !list_fmap_compose.
    apply list_fmap_ext. intros i k Hk. simpl.
    apply list_elem_of_lookup_2 in Hk.
    by rewrite (proj1 (Forall_forall _ _) Hnonempty k Hk). }
  rewrite Htext. unfold fromCSV.
  rewrite (preprocess_Tight _ HT), Hne, HC. fold d. cbn [fmap option_fmap option_map].
  rewrite (csvToArray_gridText d (headerRow :: dataRows) fuel Hd);
    [|done|by constructor|lia].
  destruct (mapRows_imap colsC options
              (λ r obj, (dataRow colsC options obj r).*2) rows 0)
    as (rows' & Hmap & Hall).
  { intros r obj Hr. by apply getRow_dataRow, HokC. }
  exists rows'. split; [|done]. f_equal. rewrite <- Hmap. f_equal.
  unfold startIndexOf. rewrite Hinc. cbn [fmap list_fmap drop].
  rewrite drop_0. unfold dataRows. apply list_eq. intros r.
  rewrite list_lookup_imap, !list_lookup_fmap.
  destruct (rows !! r); [|done]. simpl. unfold colsC.
  by rewrite dataRow_namedColumns.
Qed.

(** Two records with the keys [name], [2] and [1]: the header line has
    the columns [1], [2] and [name]. *)
Lemma fromCSV_toCSV_detected_columns_witness :
  ∃ rows',
    fromCSV 10
      (toCSV [[("name", VString "Cat Chow"); ("2", VString "food");
               ("1", VString "5.29")];
              [("1", VString "y"); ("name", VString (js "A, 'B'$C"));
               ("2", VString "x")]]
         None withHeader)
      None withHeader
    = Some (Return rows')
    ∧ Forall2 sameFields rows'
        [[("name", VString "Cat Chow"); ("2", VString "food");
          ("1", VString "5.29")];
         [("1", VString "y"); ("name", VString (js "A, 'B'$C"));
          ("2", VString "x")]].
Proof.
  apply (fromCSV_toCSV_detected_columns 10
           [[("name", VString "Cat Chow"); ("2", VString "food");
             ("1", VString "5.29")];
            [("1", VString "y"); ("name", VString (js "A, 'B'$C"));
             ("2", VString "x")]]
           withHeader
           [("name", VString "Cat Chow"); ("2", VString "food");
            ("1", VString "5.29")]).
  - done.
  - by split_and!.
  - done.
  - done.
  - change (Forall (λ k, nonEmpty k = true ∧ noLineFeed k = true
                         ∧ k ≠ "__proto__") ["1"; "2"; "name"]).
    by repeat (apply Forall_cons; split; [by split_and!|]).
  - change (Forall (TextRecord "," ["1"; "2"; "name"])
              [[("name", VString "Cat Chow"); ("2", VString "food");
                ("1", VString "5.29")];
               [("1", VString "y"); ("name", VString (js "A, 'B'$C"));
                ("2", VString "x")]]).
    apply Forall_cons; split; [split|apply Forall_singleton; split].
    + intros k Hk%fieldOf_is_Some.
      apply elem_of_cons in Hk
        as [->|[->|[->|[]%elem_of_nil]%elem_of_cons]%elem_of_cons];
        rewrite !elem_of_cons; auto.
    + intros k [->|[->|[->|[]%elem_of_nil]%elem_of_cons]%elem_of_cons]
               %elem_of_cons;
        eexists; split_and!; reflexivity.
    + intros k Hk%fieldOf_is_Some.
      apply elem_of_cons in Hk
        as [->|[->|[->|[]%elem_of_nil]%elem_of_cons]%elem_of_cons];
        rewrite !elem_of_cons; auto.
    + intros k [->|[->|[->|[]%elem_of_nil]%elem_of_cons]%elem_of_cons]
               %elem_of_cons;
        eexists; split_and!; reflexivity.
  - change (length (objectKeys ?x)) with 3. simpl. lia.
Defined.

(** ** Texts without a line, and cells without a column *)

(** With a column list [fromCSV] does not return on a text that is empty
    or has line feeds only, however many iterations are allowed: the
    tokenizer is called on the empty text.  Such is the text that [toCSV]
    gives for no records and no header line, so the empty record list
    does not come back from its encoding. *)
Theorem fromCSV_blank_text_never_returns :
  (∀ fuel csvStr columns options,
     lineBreaksOnly csvStr = true →
     fromCSV fuel csvStr (Some columns) options = None)
  ∧ (∀ columns options,
       includeHeader options = false →
       toCSV [] columns options = EmptyString)
  ∧ (∀ fuel columns columns' options,
       includeHeader options = false →
       fromCSV fuel (toCSV [] columns options) (Some columns') options
       = None).
Proof.
  assert (∀ fuel csvStr columns options,
            lineBreaksOnly csvStr = true →
            fromCSV fuel csvStr (Some columns) options = None) as Hblank.
  { intros fuel csvStr columns options H. unfold fromCSV.
    rewrite (preprocess_lineBreaksOnly _ H). cbn iota.
    unfold csvToArray.
    by rewrite (csvToArrayLoop_stuck _ _ _ _
                  (exec_empty_text (delimiterOf options))). }
  assert (∀ columns options,
            includeHeader options = false →
            toCSV [] columns options = EmptyString) as Hnone.
  { intros columns options Hinc. unfold toCSV, toCSV_lines.
    by rewrite Hinc. }
  split_and!; [done..|].
  intros fuel columns columns' options Hinc.
  rewrite (Hnone columns options Hinc). by apply Hblank.
Qed.

Lemma cellAt_take (line : list Cell) (n c : nat) :
  c < n → cellAt (take n line) c = cellAt line c.
Proof. intros Hc. unfold cellAt. by rewrite lookup_take_lt. Qed.

Lemma processColumn_cellAt options line line' rowIndex result column
    columnIndex :
  cellAt line columnIndex = cellAt line' columnIndex →
  fromCSV_processColumn options line rowIndex result column columnIndex
  = fromCSV_processColumn options line' rowIndex result column columnIndex.
Proof. intros H. unfold fromCSV_processColumn. by rewrite H. Qed.

Lemma reduceColumns_cellAt options line line' rowIndex columns :
  ∀ columnIndex result,
    (∀ c, c < length columns →
          cellAt line (columnIndex + c) = cellAt line' (columnIndex + c)) →
    reduceColumns options line rowIndex columns columnIndex result
    = reduceColumns options line' rowIndex columns columnIndex result.
Proof.
  induction columns as [|column columns IH]; intros columnIndex result Hcells;
    [done|].
  cbn [reduceColumns].
  rewrite (processColumn_cellAt options line line').
  2: { specialize (Hcells 0). rewrite Nat.add_0_r in Hcells.
       apply Hcells. simpl. lia. }
  destruct (fromCSV_processColumn _ _ _ _ _ _); [|done].
  apply IH. intros c Hc.
  replace (S columnIndex + c) with (columnIndex + S c) by lia.
  apply Hcells. simpl. lia.
Qed.

(** The record of a data row depends on the cells under the columns only:
    the cells of a line beyond the last column are ignored, and a line
    that is shorter than the column list is read as if its missing cells
    were undefined. *)
Theorem fromCSV_getRow_cells (columns : list (option Column))
    (options : Options) (line : list Cell) (rowIndex : nat) :
  fromCSV_getRow columns options (take (length columns) line) rowIndex
  = fromCSV_getRow columns options line rowIndex
  ∧ fromCSV_getRow columns options
      (line ++ replicate (length columns - length line) None) rowIndex
    = fromCSV_getRow columns options line rowIndex.
Proof.
  unfold fromCSV_getRow. split.
  - apply reduceColumns_cellAt. intros c Hc. by apply cellAt_take.
  - apply reduceColumns_cellAt. intros c Hc. unfold cellAt. simpl.
    destruct (decide (c < length line)) as [Hlt|Hge].
    + by rewrite lookup_app_l.
    + rewrite lookup_app_r by lia.
      rewrite (proj2 (lookup_ge_None line c)) by lia.
      destruct (replicate _ _ !! _) as [cell|] eqn:Hcell; [|done].
      by apply lookup_replicate in Hcell as [-> _].
Qed.

(** ** Rows that end in a carriage return, with or without a line feed *)

Lemma FieldEnd_unquotedChar (delimiter c : ascii) (rest : string) :
  FieldEnd delimiter (String c rest) → unquotedChar delimiter c = false.
Proof.
  unfold unquotedChar. intros [->|[->| ->]].
  - rewrite Ascii.eqb_refl. by rewrite !andb_false_r.
  - by rewrite !andb_false_r.
  - by rewrite !andb_false_r.
Qed.

Lemma matchUnquoted_FieldEnd (delimiter : ascii) (u rest : string) :
  safeText delimiter u = true →
  FieldEnd delimiter rest →
  matchUnquoted delimiter (u +:+ rest) = (u, rest).
Proof.
  intros Hu Hrest. induction u as [|c u IH].
  - change (EmptyString +:+ rest) with rest.
    destruct rest as [|c rest]; [done|]. cbn [matchUnquoted].
    by rewrite (FieldEnd_unquotedChar _ _ _ Hrest).
  - cbn [safeText] in Hu. apply andb_true_iff in Hu as [Hc Hu].
    rewrite app_cons. cbn [matchUnquoted]. rewrite Hc. by rewrite IH.
Qed.

(** The pattern at a field, once group 1 has matched. *)
Lemma matchAt_after (delimiter : ascii) (index : nat)
    (sepText t : string) (cell : Cell) (rest : string) :
  DelimiterOK delimiter →
  matchDelimiter delimiter index (sepText +:+ t +:+ rest)
  = Some (sepText, t +:+ rest) →
  ReadCell delimiter t cell →
  FieldEnd delimiter rest →
  ∃ m,
    matchAt delimiter index (sepText +:+ t +:+ rest) = Some m
    ∧ matches1 m = sepText
    ∧ matchValue m = cell
    ∧ endIndex m = index + String.length (sepText +:+ t).
Proof.
  intros (_ & HdQ & HdCR & HdLF) Hdelim Hform Hrest.
  unfold matchAt. rewrite Hdelim.
  assert (String.length (sepText +:+ t +:+ rest) - String.length rest
          = String.length (sepText +:+ t)) as Hlen.
  { rewrite !length_app_str. lia. }
  destruct Hform as [q Hq|u Hu|].
  3: { rewrite !app_cons. change (EmptyString +:+ rest) with rest.
       rewrite Ascii.eqb_refl. cbn [matchQuoted].
       rewrite Ascii.eqb_refl.
       assert (match rest with
               | String c' s'' =>
                   if Ascii.eqb c' DQUOTE
                   then match matchQuoted s'' with
                        | Some (captured, rest0) =>
                            Some (String DQUOTE (String DQUOTE captured),
                                  rest0)
                        | None => Some (EmptyString, rest)
                        end
                   else Some (EmptyString, rest)
               | EmptyString => Some (EmptyString, rest)
               end = Some (EmptyString, rest)) as ->.
       { destruct rest as [|c rest]; [done|].
         assert (Ascii.eqb c DQUOTE = false) as ->; [|done].
         apply Ascii.eqb_neq. destruct Hrest as [->|[->| ->]]; done. }
       eexists. split; [done|]. cbn [matches1 endIndex]. split; [done|].
       split; [done|]. f_equal. rewrite <- Hlen.
       by rewrite !app_cons. }
  - unfold escapeCSV at 1. rewrite app_cons. rewrite Ascii.eqb_refl.
    rewrite app_assoc_str, app_cons.
    change (EmptyString +:+ rest) with rest.
    rewrite matchQuoted_doubleQuotes.
    + eexists. split; [done|]. cbn [matches1 endIndex]. split; [done|].
      split.
      * unfold matchValue. cbn [matches2].
        by rewrite nonEmpty_doubleQuotes, Hq, unescape_doubleQuotes.
      * f_equal. rewrite <- Hlen. unfold escapeCSV.
        by rewrite !app_cons, !app_assoc_str.
    + destruct rest as [|c rest]; [done|].
      destruct Hrest as [->|[->| ->]]; done.
  - assert (match u +:+ rest with
            | String c s2 =>
                if Ascii.eqb c DQUOTE then matchQuoted s2 else None
            | EmptyString => None
            end = None) as ->.
    { destruct u as [|c u].
      - change (EmptyString +:+ rest) with rest.
        destruct rest as [|c rest]; [done|].
        destruct Hrest as [->|[->| ->]]; [|done..].
        assert (Ascii.eqb delimiter DQUOTE = false) as ->; [|done].
        by apply Ascii.eqb_neq.
      - rewrite app_cons. cbn [safeText] in Hu.
        apply andb_true_iff in Hu as [Hc _].
        apply unquotedChar_inv in Hc as (H1 & _).
        apply Ascii.eqb_neq in H1. by rewrite H1. }
    rewrite matchUnquoted_FieldEnd by done.
    eexists. split; [done|]. cbn [matches1 endIndex]. split; [done|].
    split; [done|]. by rewrite Hlen.
Qed.

(** One iteration of the loop at a field, once group 1 has matched. *)
Lemma csvToArrayLoop_step (fuel : nat) (delimiter : ascii) (str : string)
    (lastIndex : nat) (sepText t : string) (cell : Cell) (rest : string)
    (results : list (list Cell)) :
  DelimiterOK delimiter →
  lastIndex ≤ String.length str →
  str_drop lastIndex str = sepText +:+ t +:+ rest →
  matchDelimiter delimiter lastIndex (sepText +:+ t +:+ rest)
  = Some (sepText, t +:+ rest) →
  ReadCell delimiter t cell →
  FieldEnd delimiter rest →
  let next := lastIndex + String.length (sepText +:+ t) in
  csvToArrayLoop (S fuel) delimiter str lastIndex results
  = csvToArrayLoop fuel delimiter str next
      (pushToLast
         (if (0 <? String.length sepText)
             && negb (String.eqb sepText (String delimiter EmptyString))
          then results ++ [[]] else results) cell)
  ∧ str_drop next str = rest
  ∧ next ≤ String.length str.
Proof.
  intros Hd Hle Hdrop Hdelim Hform Hrest next.
  destruct (matchAt_after delimiter lastIndex sepText t cell rest Hd Hdelim
              Hform Hrest) as (m & Hm & Hm1 & Hval & Hend).
  rewrite <- Hdrop in Hm. apply search_matchAt in Hm.
  assert (exec delimiter str lastIndex = Some m) as Hexec.
  { unfold exec.
    assert ((String.length str <? lastIndex) = false) as ->; [|done].
    apply Nat.ltb_ge. lia. }
  cbn [csvToArrayLoop]. rewrite Hexec, Hend.
  unfold addMatch. rewrite Hm1, Hval.
  split; [done|].
  pose proof (f_equal String.length Hdrop) as Hlen.
  rewrite length_str_drop, <- app_assoc_str, length_app_str in Hlen.
  split.
  - subst next. rewrite str_drop_add, Hdrop, <- app_assoc_str.
    apply str_drop_app_length.
  - subst next. lia.
Qed.

Lemma ReadCell_first (delimiter : ascii) (t : string) (cell : Cell) :
  DelimiterOK delimiter →
  ReadCell delimiter t cell → nonEmpty t = true →
  ∃ c t', t = String c t' ∧ c ≠ delimiter ∧ c ≠ CR ∧ c ≠ LF.
Proof.
  intros (_ & HdQ & _ & _) [q Hq|u Hu|] Hne.
  - unfold escapeCSV. eexists _, _. split; [done|]. by split_and!.
  - destruct u as [|c u]; [done|]. cbn [safeText] in Hu.
    apply andb_true_iff in Hu as [Hc _].
    apply unquotedChar_inv in Hc as (_ & ? & ? & ?).
    by exists c, u.
  - eexists _, _. split; [done|]. by split_and!.
Qed.

Lemma matchDelimiter_start (delimiter : ascii) (t : string) (cell : Cell)
    (rest : string) :
  DelimiterOK delimiter →
  ReadCell delimiter t cell → nonEmpty t = true →
  matchDelimiter delimiter 0 (EmptyString +:+ t +:+ rest)
  = Some (EmptyString, t +:+ rest).
Proof.
  intros Hd Hform Hne.
  destruct (ReadCell_first _ _ _ Hd Hform Hne) as (c & t' & -> & H1 & H2 & H3).
  change (EmptyString +:+ ?x) with x. rewrite app_cons.
  unfold matchDelimiter.
  apply Ascii.eqb_neq in H1, H2, H3. by rewrite H1, H2, H3.
Qed.

Lemma matchDelimiter_delimiter (delimiter : ascii) (index : nat)
    (s : string) :
  matchDelimiter delimiter index (String delimiter EmptyString +:+ s)
  = Some (String delimiter EmptyString, s).
Proof.
  rewrite app_cons. unfold matchDelimiter. by rewrite Ascii.eqb_refl.
Qed.

Lemma matchDelimiter_rowBreak (delimiter : ascii) (index : nat)
    (b : RowBreak) (t : string) (cell : Cell) (rest : string) :
  DelimiterOK delimiter →
  ReadCell delimiter t cell → nonEmpty t = true →
  matchDelimiter delimiter index (rowBreakText b +:+ t +:+ rest)
  = Some (rowBreakText b, t +:+ rest).
Proof.
  intros Hd Hform Hne.
  destruct (ReadCell_first _ _ _ Hd Hform Hne) as (c & t' & -> & _ & _ & H3).
  destruct Hd as (_ & _ & HdCR & HdLF).
  assert (Ascii.eqb CR delimiter = false) as Hcr.
  { by apply Ascii.eqb_neq. }
  assert (Ascii.eqb LF delimiter = false) as Hlf.
  { by apply Ascii.eqb_neq. }
  apply Ascii.eqb_neq in H3.
  destruct b; unfold rowBreakText; rewrite !app_cons;
    change (EmptyString +:+ ?x) with x; unfold matchDelimiter.
  - by rewrite Hlf.
  - rewrite Hcr, Ascii.eqb_refl. by rewrite H3.
  - rewrite Hcr, Ascii.eqb_refl. by rewrite Ascii.eqb_refl.
Qed.

Lemma FieldEnd_restOfRow (delimiter : ascii) (cells : list (string * Cell))
    (rest : string) :
  FieldEnd delimiter rest →
  FieldEnd delimiter (restOfRow delimiter cells +:+ rest).
Proof.
  intros Hrest. destruct cells as [|[t cell] cells]; [done|].
  cbn [restOfRow]. rewrite app_cons. by left.
Qed.

Lemma FieldEnd_brokenRows (delimiter : ascii)
    (rows : list (RowBreak * list (string * Cell))) :
  FieldEnd delimiter (brokenRows delimiter rows).
Proof.
  destruct rows as [|[b row] rows]; [done|]. cbn [brokenRows].
  destruct b; unfold rowBreakText; rewrite app_cons; cbn [FieldEnd]; auto.
Qed.

(** The loop over the cells of a row after the first one, whatever row
    break follows the row. *)
Lemma csvToArrayLoop_cells (fuel : nat) (delimiter : ascii) (str : string)
    (cells : list (string * Cell)) (rest : string)
    (pre : list (list Cell)) :
  DelimiterOK delimiter →
  Forall (λ tc, ReadCell delimiter tc.1 tc.2) cells →
  FieldEnd delimiter rest →
  ∀ (lastIndex : nat) (cur : list Cell),
    lastIndex ≤ String.length str →
    str_drop lastIndex str = restOfRow delimiter cells +:+ rest →
    ∃ next,
      csvToArrayLoop (length cells + fuel) delimiter str lastIndex
        (pre ++ [cur])
      = csvToArrayLoop fuel delimiter str next (pre ++ [cur ++ cells.*2])
      ∧ str_drop next str = rest
      ∧ lastIndex ≤ next ≤ String.length str.
Proof.
  intros Hd Hcells Hrest.
  induction Hcells as [|[t cell] cells Hcell Hcells IH];
    intros lastIndex cur Hle Hdrop.
  - exists lastIndex. simpl. rewrite app_nil_r. split_and!; try done.
  - cbn [restOfRow] in Hdrop. rewrite app_cons in Hdrop.
    destruct (csvToArrayLoop_step (length cells + fuel) delimiter str
                lastIndex (String delimiter EmptyString) t cell
                (restOfRow delimiter cells +:+ rest) (pre ++ [cur]) Hd Hle)
      as (Hloop & Hnext & Hle'); try done.
    { by rewrite Hdrop, app_assoc_str. }
    { apply matchDelimiter_delimiter. }
    { by apply FieldEnd_restOfRow. }
    rewrite String.eqb_refl in Hloop. cbn [String.length Nat.ltb Nat.leb
      andb negb] in Hloop. rewrite pushToLast_snoc in Hloop.
    destruct (IH _ (cur ++ [cell]) Hle' Hnext)
      as (next & Hloop' & Hdrop' & Hle1 & Hle2).
    exists next. cbn [length Nat.add]. rewrite Hloop, Hloop'.
    rewrite <- app_assoc. split_and!; try done. lia.
Qed.

Lemma rowBreak_hasRowDelimiter (delimiter : ascii) (b : RowBreak) :
  DelimiterOK delimiter →
  (0 <? String.length (rowBreakText b))
  && negb (String.eqb (rowBreakText b) (String delimiter EmptyString))
  = true.
Proof.
  intros (_ & _ & HdCR & HdLF).
  assert (String.eqb (rowBreakText b) (String delimiter EmptyString) = false)
    as ->; [|by destruct b].
  apply String.eqb_neq. destruct b; unfold rowBreakText; congruence.
Qed.

(** The loop over rows that each follow a row break. *)
Lemma csvToArrayLoop_brokenRows (fuel : nat) (delimiter : ascii)
    (str : string) (rows : list (RowBreak * list (string * Cell))) :
  DelimiterOK delimiter →
  Forall (λ br, RowRead delimiter br.2) rows →
  ∀ (lastIndex : nat) (pre : list (list Cell)) (cur : list Cell),
    lastIndex ≤ String.length str →
    str_drop lastIndex str = brokenRows delimiter rows →
    ∃ next,
      csvToArrayLoop (cellCount rows.*2 + fuel) delimiter str lastIndex
        (pre ++ [cur])
      = csvToArrayLoop fuel delimiter str next
          ((pre ++ [cur]) ++ ((λ br, br.2.*2) <$> rows))
      ∧ str_drop next str = EmptyString
      ∧ lastIndex ≤ next ≤ String.length str.
Proof.
  intros Hd Hrows.
  induction Hrows as [|[b row] rows Hrow Hrows IH];
    intros lastIndex pre cur Hle Hdrop.
  - exists lastIndex. simpl. rewrite app_nil_r. split_and!; try done.
  - destruct row as [|[t cell] cells]; [done|].
    destruct Hrow as (Hne & Hcell & Hcells).
    cbn [brokenRows rowText] in Hdrop.
    destruct (csvToArrayLoop_step (length cells + (cellCount rows.*2 + fuel))
                delimiter str lastIndex (rowBreakText b) t cell
                (restOfRow delimiter cells +:+ brokenRows delimiter rows)
                (pre ++ [cur]) Hd Hle)
      as (Hloop & Hnext & Hle'); try done.
    { by rewrite Hdrop, app_assoc_str. }
    { by apply (matchDelimiter_rowBreak _ _ _ _ cell). }
    { apply FieldEnd_restOfRow, FieldEnd_brokenRows. }
    rewrite (rowBreak_hasRowDelimiter _ _ Hd) in Hloop.
    rewrite (pushToLast_snoc (pre ++ [cur]) []) in Hloop.
    destruct (csvToArrayLoop_cells (cellCount rows.*2 + fuel) delimiter str
                cells (brokenRows delimiter rows) (pre ++ [cur]) Hd Hcells
                (FieldEnd_brokenRows delimiter rows) _ [cell] Hle' Hnext)
      as (next1 & Hloop1 & Hdrop1 & Hle1 & Hle1').
    destruct (IH next1 (pre ++ [cur]) ([cell] ++ cells.*2) Hle1' Hdrop1)
      as (next & Hloop2 & Hdrop2 & Hle2 & Hle2').
    exists next. cbn [fmap list_fmap snd]. rewrite cellCount_cons.
    cbn [length].
    replace (S (length cells) + cellCount rows.*2 + fuel)
      with (S (length cells + (cellCount rows.*2 + fuel))) by lia.
    split_and!; [|done|lia..].
    etrans; [exact Hloop|]. etrans; [exact Hloop1|].
    etrans; [exact Hloop2|].
    f_equal. rewrite <- (app_assoc (pre ++ [cur])). done.
Qed.

(** The tokenizer takes a line feed, a carriage return, and a carriage
    return with a line feed alike as the end of a row.  On rows of cells
    (a non-empty text between quotes with its quotes doubled, a text
    without delimiter, quote, CR and LF, or the empty text between
    quotes; the first cell of each row not empty), each row after the
    first one following any of these row breaks, it returns the rows of
    the unescaped texts, given more iterations than there are cells; the
    cell of the empty text between quotes is undefined, not the empty
    text. *)
Theorem csvToArray_row_breaks (delimiter : ascii)
    (first : list (string * Cell))
    (rest : list (RowBreak * list (string * Cell))) (fuel : nat) :
  DelimiterOK delimiter →
  RowRead delimiter first →
  Forall (λ br, RowRead delimiter br.2) rest →
  cellCount (first :: rest.*2) < fuel →
  csvToArray fuel (rowText delimiter first +:+ brokenRows delimiter rest)
    delimiter
  = Some (first.*2 :: ((λ br, br.2.*2) <$> rest)).
Proof.
  intros Hd Hfirst Hrest Hfuel.
  destruct first as [|[t cell] cells]; [done|].
  destruct Hfirst as (Hne & Hcell & Hcells).
  unfold csvToArray. cbn [rowText].
  set (str := (t +:+ restOfRow delimiter cells)
              +:+ brokenRows delimiter rest).
  rewrite cellCount_cons in Hfuel. cbn [length] in Hfuel.
  set (k := fuel - S (S (length cells + cellCount rest.*2))).
  replace fuel
    with (S (length cells + (cellCount rest.*2 + S k))) by lia.
  destruct (csvToArrayLoop_step
              (length cells + (cellCount rest.*2 + S k))
              delimiter str 0 EmptyString t cell
              (restOfRow delimiter cells +:+ brokenRows delimiter rest)
              [[]] Hd) as (Hloop & Hnext & Hle); try done.
  { lia. }
  { subst str. change (EmptyString +:+ ?x) with x. by rewrite app_assoc_str. }
  { by apply (matchDelimiter_start _ _ cell). }
  { apply FieldEnd_restOfRow, FieldEnd_brokenRows. }
  cbn [String.length Nat.ltb Nat.leb andb pushToLast app] in Hloop.
  destruct (csvToArrayLoop_cells (cellCount rest.*2 + S k) delimiter str cells
              (brokenRows delimiter rest) [] Hd Hcells
              (FieldEnd_brokenRows delimiter rest) _ [cell] Hle Hnext)
    as (next1 & Hloop1 & Hdrop1 & Hle1 & Hle1').
  destruct (csvToArrayLoop_brokenRows (S k) delimiter str rest Hd Hrest
              next1 [] ([cell] ++ cells.*2) Hle1' Hdrop1)
    as (next & Hloop2 & Hdrop2 & Hle2 & Hle2').
  etrans; [exact Hloop|]. etrans; [exact Hloop1|].
  etrans; [exact Hloop2|].
  cbn [csvToArrayLoop]. unfold exec.
  assert ((String.length str <? next) = false) as ->.
  { apply Nat.ltb_ge. lia. }
  rewrite Hdrop2.
  assert (0 < next) as Hpos.
  { destruct t; [done|].
    change (EmptyString +:+ ?x) with x in Hle1. simpl in Hle1. lia. }
  destruct next as [|next]; [lia|]. done.
Qed.

Lemma csvToArray_row_breaks_witness :
  csvToArray 6
    (rowText "," [(js "'a''b'", Some (js "a'b")); ("1", Some "1")]
     +:+ brokenRows ","
           [(CarriageReturnLineFeed,
             [("x", Some "x"); (js "''", None)]);
            (CarriageReturn, [("y", Some "y")])])
    ","
  = Some [[Some (js "a'b"); Some "1"]; [Some "x"; None]; [Some "y"]].
Proof.
  apply (csvToArray_row_breaks ","
           [(js "'a''b'", Some (js "a'b")); ("1", Some "1")]
           [(CarriageReturnLineFeed,
             [("x", Some "x"); (js "''", None)]);
            (CarriageReturn, [("y", Some "y")])] 6).
  - by split_and!.
  - split_and!; [done|apply (readQuoted "," (js "a'b")); done|].
    apply Forall_singleton. by apply readBare.
  - apply Forall_cons; split; [|apply Forall_singleton].
    + split_and!; [done|by apply readBare|].
      apply Forall_singleton. apply readEmptyQuoted.
    + split_and!; [done|by apply readBare|done].
  - vm_compute. lia.
Defined.

(** ** The default columns *)

Lemma defaultColumnName_inj (i j : nat) :
  defaultColumnName i = defaultColumnName j → i = j.
Proof.
  unfold defaultColumnName. intros [= H].
  change (pretty (i + 1) = pretty (j + 1)) in H.
  apply (inj pretty) in H. lia.
Qed.

Lemma defaultColumns_lookup (split : list Cell) (c : nat)
    (column : option Column) :
  (detectColumn <$> imap (λ i _, ColumnName (defaultColumnName i)) split)
    !! c = Some column →
  c < length split
  ∧ column = Some (namedColumn None (defaultColumnName c)).
Proof.
  rewrite list_lookup_fmap, list_lookup_imap.
  destruct (split !! c) as [cell|] eqn:Hcell; [|done].
  intros [= <-]. split; [by apply lookup_lt_Some in Hcell|done].
Qed.

(** Without a column list and without a header line the columns are named
    [col1], [col2], ... after the cells of the first line, and [fromCSV]
    returns (it throws for no text of this kind): there is one record for
    each row of the tokenizer; its field [col(i+1)] is the text of cell [i]
    of the row, left out when the text is empty or the row has no such
    cell, unless empty values are included; and it has no other field,
    so the cells beyond those of the first line are dropped. *)
Theorem fromCSV_default_column_names (fuel : nat) (csvStr : string)
    (options : Options) (firstRows results : list (list Cell)) :
  includeHeader options = false →
  nonEmpty (preprocess csvStr) = true →
  csvToArray fuel (firstLineOf (preprocess csvStr)) (delimiterOf options)
  = Some firstRows →
  csvToArray fuel (preprocess csvStr) (delimiterOf options) = Some results →
  let n := length (default [] (head firstRows)) in
  ∃ rows,
    fromCSV fuel csvStr None options = Some (Return rows)
    ∧ length rows = length results
    ∧ ∀ r line row,
        results !! r = Some line → rows !! r = Some row →
        (∀ i, i < n →
              let v := cellValue (cellAt line i) in
              fieldOf row (defaultColumnName i)
              = if includeEmptyValues options || negb (isEmpty v)
                then Some v else None)
        ∧ (∀ k, is_Some (fieldOf row k) →
                ∃ i, i < n ∧ k = defaultColumnName i).
Proof.
  intros Hinc Hne Hfirst Htok n.
  set (columns := detectColumn
                    <$> imap (λ i _, ColumnName (defaultColumnName i))
                          (default [] (head firstRows))).
  assert (fromCSV fuel csvStr None options
          = Some (mapRows columns options results 0)) as Hfrom.
  { unfold fromCSV. rewrite Hne. unfold detectColumnsFromCSV.
    rewrite Hfirst, Hinc. cbn [fmap option_fmap option_map].
    rewrite Htok. unfold startIndexOf. by rewrite Hinc. }
  destruct (mapRows columns options results 0) as [rows|e] eqn:Hmap.
  2: { apply mapRows_throw_inv in Hmap
         as (r & line & c & column & k & _ & Hc & (_ & _ & Hreq & _) & _).
       apply defaultColumns_lookup in Hc as [_ [= ->]]. done. }
  exists rows. split; [done|].
  split; [by apply (mapRows_length _ _ _ _ _ Hmap)|].
  intros r line row Hline Hrow.
  destruct (mapRows_lookup _ _ _ _ _ _ _ Hmap Hline) as (row' & Hrow' & Hget).
  assert (row' = row) as -> by congruence. simpl in Hget.
  split.
  - intros i Hi v.
    assert (columns !! i
            = Some (Some (namedColumn None (defaultColumnName i)))) as Hc.
    { unfold columns. rewrite list_lookup_fmap, list_lookup_imap.
      destruct (lookup_lt_is_Some_2 (default [] (head firstRows)) i Hi)
        as [cell ->]. done. }
    assert (defaultColumnName i ≠ "__proto__") as Hp.
    { intros H. discriminate H. }
    rewrite (getRow_field_of_column _ _ _ _ _ _ _ _ Hget Hc eq_refl eq_refl
               Hp).
    + unfold parsedValue. cbn [namedColumn parser]. fold v.
      unfold v, cellValue. by destruct (cellAt line i).
    + intros c' column' Hc' Hk'.
      apply defaultColumns_lookup in Hc' as [_ [= ->]].
      apply defaultColumnName_inj. cbn [namedColumn key] in Hk'.
      congruence.
  - intros k [v Hv]. unfold fromCSV_getRow in Hget.
    apply reduceColumns_shape in Hget as (_ & Hkeys & _).
    destruct (Hkeys k v Hv) as [?|[(c & column & Hc & Hk & _) _]]; [done|].
    apply defaultColumns_lookup in Hc as [Hlt [= ->]].
    injection Hk as <-. by exists c.
Qed.

Lemma fromCSV_default_column_names_witness :
  ∃ rows,
    fromCSV 9 (js "'Cat Chow',5.29$Pizza,,x") None noOptions
    = Some (Return rows)
    ∧ length rows = 2
    ∧ ∀ r line row,
        [[Some "Cat Chow"; Some "5.29"];
         [Some "Pizza"; Some EmptyString; Some "x"]] !! r = Some line →
        rows !! r = Some row →
        (∀ i, i < 2 →
              let v := cellValue (cellAt line i) in
              fieldOf row (defaultColumnName i)
              = if includeEmptyValues noOptions || negb (isEmpty v)
                then Some v else None)
        ∧ (∀ k, is_Some (fieldOf row k) →
                ∃ i, i < 2 ∧ k = defaultColumnName i).
Proof.
  apply (fromCSV_default_column_names 9
           (js "'Cat Chow',5.29$Pizza,,x") noOptions
           [[Some "Cat Chow"; Some "5.29"]]
           [[Some "Cat Chow"; Some "5.29"];
            [Some "Pizza"; Some EmptyString; Some "x"]]); reflexivity.
Defined.

(** ** Encoding what was decoded *)

Lemma setField_fresh (obj : Obj) (k : string) (v : Value) :
  k ≠ "__proto__" → k ∉ obj.*1 → setField obj k v = obj ++ [(k, v)].
Proof.
  intros Hp. rewrite setField_store by done.
  induction obj as [|[k' v'] obj IH]; [done|].
  rewrite fmap_cons, not_elem_of_cons. cbn [fst]. intros [Hne Hnot].
  cbn [storeField app].
  assert (String.eqb k' k = false) as ->.
  { apply String.eqb_neq. congruence. }
  by rewrite IH.
Qed.

Lemma reduceColumns_texts options line r :
  ∀ (ks : list string) (ss : list string) (ci : nat) (acc : Obj),
    length ks = length ss →
    Forall (λ k, nonEmpty k = true) ks →
    "__proto__" ∉ ks →
    Forall (λ s, nonEmpty s = true) ss →
    NoDup (acc.*1 ++ ks) →
    (∀ i s, ss !! i = Some s → cellAt line (ci + i) = Some s) →
    reduceColumns options line r
      ((λ k, Some (namedColumn None k)) <$> ks) ci acc
    = Return (acc ++ recordOf ks ss).
Proof.
  unfold recordOf.
  induction ks as [|k ks IH];
    intros [|s ss] ci acc Hlen Hks Hproto Hss Hnd Hcells; try done.
  - simpl. by rewrite app_nil_r.
  - apply Forall_cons in Hks as [Hk Hks].
    apply not_elem_of_cons in Hproto as [Hp Hproto].
    apply Forall_cons in Hss as [Hs Hss].
    cbn [fmap list_fmap reduceColumns].
    assert (fromCSV_processColumn options line r acc
              (Some (namedColumn None k)) ci
            = Return (acc ++ [(k, VString s)])) as ->.
    { unfold fromCSV_processColumn.
      change (key (namedColumn None k)) with (Some k).
      change (required (namedColumn None k)) with false.
      cbn iota beta. rewrite Hk. cbn [negb andb].
      specialize (Hcells 0 s eq_refl). rewrite Nat.add_0_r in Hcells.
      rewrite Hcells.
      change (parsedValue (namedColumn None k) k (startIndexOf options)
                (Some s) r ci) with (VString s).
      cbn [isEmpty]. rewrite Hs. cbn [negb].
      rewrite orb_true_r. rewrite setField_fresh; [done|done|].
      apply NoDup_app in Hnd as (_ & Hnot & _).
      intros Hin. apply (Hnot k Hin). left. }
    rewrite (IH ss (S ci) (acc ++ [(k, VString s)])).
    + by rewrite <- app_assoc.
    + simpl in Hlen. lia.
    + done.
    + done.
    + done.
    + rewrite fmap_app, <- app_assoc. exact Hnd.
    + intros i s' Hi. replace (S ci + i) with (ci + S i) by lia.
      by apply Hcells.
Qed.

Lemma fieldOf_recordOf (ks : list string) :
  ∀ (ss : list string) (i : nat) (k s : string),
    NoDup ks → ks !! i = Some k → ss !! i = Some s →
    fieldOf (recordOf ks ss) k = Some (VString s).
Proof.
  unfold recordOf.
  induction ks as [|k' ks IH]; intros [|s' ss] i k s Hnd Hk Hs; try done.
  apply NoDup_cons in Hnd as [Hnot Hnd].
  cbn [fmap list_fmap zip zip_with fieldOf].
  destruct i as [|i].
  - injection Hk as ->. injection Hs as ->. by rewrite String.eqb_refl.
  - simpl in Hk, Hs.
    assert (String.eqb k' k = false) as ->.
    { apply String.eqb_neq. intros ->.
      apply Hnot. by eapply list_elem_of_lookup_2. }
    by apply (IH ss i).
Qed.

Lemma mapRows_texts options (keys : list string) (rows : list (list string)) :
  NoDup keys →
  Forall (λ k, nonEmpty k = true) keys →
  "__proto__" ∉ keys →
  Forall (λ row : list string,
            length row = length keys
            ∧ Forall (λ s, nonEmpty s = true) row) rows →
  ∀ rowIndex,
    mapRows ((λ k, Some (namedColumn None k)) <$> keys) options
      ((λ row : list string, Some <$> row) <$> rows) rowIndex
    = Return (recordOf keys <$> rows).
Proof.
  intros Hnd Hkeys Hproto Hrows.
  induction Hrows as [|row rows [Hlen Hrow] Hrows IH]; intros rowIndex;
    [done|].
  cbn [fmap list_fmap mapRows]. unfold fromCSV_getRow.
  rewrite (reduceColumns_texts options (Some <$> row) rowIndex keys row 0 []);
    [|done..| |].
  - by rewrite IH.
  - done.
  - intros i s Hi. unfold cellAt. simpl. by rewrite list_lookup_fmap, Hi.
Qed.

Lemma shouldEscape_nonEmpty (s : string) :
  shouldEscape (VString s) = true → nonEmpty s = true.
Proof. cbn [shouldEscape]. by intros [[? _]%andb_true_iff _]%andb_true_iff. Qed.

Lemma toCSV_getLine_recordOf options (keys row : list string) (r : nat) :
  NoDup keys →
  Forall (λ k, nonEmpty k = true) keys →
  length row = length keys →
  Forall (λ s, shouldEscape (VString s) = true) row →
  toCSV_getLine ((λ k, Some (namedColumn None k)) <$> keys) options
    (recordOf keys row) r
  = String.concat (String (delimiterOf options) EmptyString)
      (escapeCSV <$> row).
Proof.
  intros Hnd Hkeys Hlen Hrow. unfold toCSV_getLine, join. f_equal.
  apply list_eq. intros i. unfold toCSV_cells.
  rewrite !list_lookup_fmap, list_lookup_imap, list_lookup_fmap.
  destruct (keys !! i) as [k|] eqn:Hk.
  - destruct (lookup_lt_is_Some_2 row i) as [s Hs].
    { rewrite Hlen. by apply lookup_lt_Some in Hk. }
    rewrite Hs. cbn [fmap option_fmap option_map toCSV_processColumn].
    rewrite convertedValue_named. unfold getField.
    rewrite (fieldOf_recordOf keys row i k s Hnd Hk Hs).
    cbn [default]. unfold finishCell, id. cbn [canClear].
    by rewrite (proj1 (Forall_lookup _ _) Hrow i s Hs).
  - apply lookup_ge_None in Hk. rewrite <- Hlen in Hk.
    apply lookup_ge_None in Hk. by rewrite Hk.
Qed.

(** Encoding what was decoded gives the text back: on a text of rows of
    cells, each cell a text between quotes as [toCSV] emits it (not empty,
    no [=] at its start, not date-like, quotes doubled) that has no two
    consecutive line feeds, and each row with one cell for each column,
    [fromCSV] under columns named by distinct non-empty keys, none of
    them [__proto__], without a header line, returns the records of the
    texts in the order of the keys, and [toCSV] of these records under the same columns is the
    text.  The delimiter is a literal one; more iterations than there are
    cells are enough. *)
Theorem toCSV_fromCSV_roundtrip (fuel : nat) (rows : list (list string))
    (keys : list string) (options : Options) :
  DelimiterOK (delimiterOf options) →
  includeHeader options = false →
  keys ≠ [] → NoDup keys →
  Forall (λ k, nonEmpty k = true) keys →
  "__proto__" ∉ keys →
  rows ≠ [] →
  Forall (λ row,
            length row = length keys
            ∧ Forall (λ s, shouldEscape (VString s) = true
                           ∧ noBlankLine s = true) row) rows →
  length rows * length keys < fuel →
  let text := quotedText (delimiterOf options) rows in
  fromCSV fuel text (Some (ColumnName <$> keys)) options
  = Some (Return (recordOf keys <$> rows))
  ∧ toCSV (recordOf keys <$> rows) (Some (ColumnName <$> keys)) options
    = text.
Proof.
  intros Hd Hinc Hkne Hnd Hkeys Hproto Hrne Hrows Hfuel text.
  set (d := delimiterOf options) in *.
  set (columns := (λ k, Some (namedColumn None k)) <$> keys).
  assert (detectColumn <$> (ColumnName <$> keys) = columns) as Hcols.
  { unfold columns. rewrite <- list_fmap_compose.
    apply list_fmap_ext. intros i k Hk. simpl.
    by rewrite (proj1 (Forall_lookup _ _) Hkeys i k Hk). }
  set (grid := (λ row : list string,
                  (λ s, (escapeCSV s, Some s)) <$> row) <$> rows).
  assert (text = gridText d grid) as Htext.
  { unfold text, quotedText. rewrite <- concat_gridText. f_equal.
    unfold grid. rewrite <- list_fmap_compose.
    apply list_fmap_ext. intros i row _. simpl.
    rewrite <- concat_rowText. f_equal.
    by rewrite <- list_fmap_compose. }
  assert (Forall (λ row, RowOK d row ∧ RowTight row
                         ∧ length row = length keys) grid) as Hgrid.
  { unfold grid. apply Forall_fmap.
    eapply Forall_impl; [exact Hrows|]. intros row [Hlen Hrow]. simpl.
    rewrite length_fmap. split_and!; [| |done].
    - destruct row as [|s row]; [by destruct keys|].
      apply Forall_cons in Hrow as [[Hs _] Hrow].
      cbn [fmap list_fmap RowOK]. split_and!; [done| |].
      + constructor. by apply shouldEscape_nonEmpty.
      + apply Forall_fmap. eapply Forall_impl; [exact Hrow|].
        intros s' [Hs' _]. simpl. constructor.
        by apply shouldEscape_nonEmpty.
    - apply Forall_fmap. eapply Forall_impl; [exact Hrow|].
      intros s' [_ Hs']. simpl. by apply Tight_escapeCSV. }
  assert (Forall (RowOK d) grid) as Hok.
  { eapply Forall_impl; [exact Hgrid|]. by intros row (? & ? & ?). }
  assert (Forall RowTight grid) as Htight.
  { eapply Forall_impl; [exact Hgrid|]. by intros row (? & ? & ?). }
  assert (cellCount grid = length rows * length keys) as Hcount.
  { rewrite (cellCount_uniform (length keys)).
    - unfold grid. by rewrite length_fmap.
    - eapply Forall_impl; [exact Hgrid|]. by intros row (? & ? & ?). }
  assert ((λ row : list (string * Cell), row.*2) <$> grid
          = (λ row : list string, Some <$> row) <$> rows) as Hcells.
  { unfold grid. rewrite <- list_fmap_compose.
    apply list_fmap_ext. intros i row _. simpl.
    by rewrite <- list_fmap_compose. }
  split.
  - unfold fromCSV. rewrite Htext.
    rewrite (preprocess_Tight _ (Tight_gridText _ _ Hd Hok Htight)).
    fold d. rewrite (csvToArray_gridText d grid fuel Hd); [| |done|lia].
    2: { unfold grid. by destruct rows. }
    rewrite Hcols, Hcells. unfold startIndexOf. rewrite Hinc, drop_0.
    f_equal. apply mapRows_texts; [done..|].
    eapply Forall_impl; [exact Hrows|]. intros row [Hlen Hrow].
    split; [done|]. eapply Forall_impl; [exact Hrow|].
    intros s [Hs _]. by apply shouldEscape_nonEmpty.
  - unfold toCSV, toCSV_lines. rewrite Hcols, Hinc.
    unfold text, quotedText. f_equal.
    apply list_eq. intros r.
    rewrite list_lookup_imap, !list_lookup_fmap.
    destruct (rows !! r) as [row|] eqn:Hr; [|done]. simpl. f_equal.
    destruct (proj1 (Forall_lookup _ _) Hrows r row Hr) as [Hlen Hrow].
    apply toCSV_getLine_recordOf; [done..|].
    eapply Forall_impl; [exact Hrow|]. by intros s [? _].
Qed.

Lemma toCSV_fromCSV_roundtrip_witness :
  fromCSV 5 (js "'Cat Chow','5.29'$'A, ''B''','x'")
    (Some [ColumnName "name"; ColumnName "price"]) noOptions
  = Some (Return [[("name", VString "Cat Chow"); ("price", VString "5.29")];
                  [("name", VString (js "A, 'B'")); ("price", VString "x")]])
  ∧ toCSV [[("name", VString "Cat Chow"); ("price", VString "5.29")];
           [("name", VString (js "A, 'B'")); ("price", VString "x")]]
      (Some [ColumnName "name"; ColumnName "price"]) noOptions
    = js "'Cat Chow','5.29'$'A, ''B''','x'".
Proof.
  apply (toCSV_fromCSV_roundtrip 5
           [["Cat Chow"; "5.29"]; [js "A, 'B'"; "x"]]
           ["name"; "price"] noOptions).
  - by split_and!.
  - done.
  - done.
  - apply NoDup_cons. split; [|apply NoDup_singleton].
    by intros [=]%list_elem_of_singleton.
  - by repeat constructor.
  - by intros [[=]|[[=]|[]%elem_of_nil]%elem_of_cons]%elem_of_cons.
  - done.
  - by repeat constructor.
  - simpl. lia.
Defined.

(** ** The texts on which fromCSV returns *)

Lemma matchQuoted_noQuote (s : string) :
  matchQuoted s = None ↔ noQuote s = true.
Proof.
  induction s as [|c s IH]; [done|]. cbn [matchQuoted noQuote].
  destruct (Ascii.eqb c DQUOTE).
  - cbn [negb andb]. split; [|done].
    destruct s as [|c' s']; [done|].
    destruct (Ascii.eqb c' DQUOTE); [|done].
    by destruct (matchQuoted s') as [[? ?]|].
  - cbn [negb andb]. rewrite <- IH.
    by destruct (matchQuoted s) as [[? ?]|].
Qed.

(** The first match is empty exactly on the empty text and on a text that
    starts with a quote which is never closed. *)
Lemma matchAt_start_empty (delimiter : ascii) (s : string) (m : Match) :
  delimiter ≠ DQUOTE →
  matchAt delimiter 0 s = Some m →
  endIndex m = 0 ↔ nonEmpty s = false ∨ startsUnclosed s = true.
Proof.
  intros HdQ. unfold matchAt.
  destruct (matchDelimiter delimiter 0 s) as [[matched s1]|] eqn:Hd; [|done].
  destruct s as [|c s'].
  { injection Hd as <- <-. intros [= <-]. cbn [endIndex]. split; [by left|done]. }
  assert (matched = EmptyString ∧ s1 = String c s'
          ∧ Ascii.eqb c delimiter = false
          ∨ String.length s1 < String.length (String c s')
            ∧ Ascii.eqb c DQUOTE = false) as Hcase.
  { unfold matchDelimiter in Hd. cbn [Nat.eqb] in Hd.
    destruct (Ascii.eqb c delimiter) eqn:Ec.
    { injection Hd as <- <-. right. split; [simpl; lia|].
      apply Ascii.eqb_eq in Ec as ->. by apply Ascii.eqb_neq. }
    destruct (Ascii.eqb c CR) eqn:Er.
    { apply Ascii.eqb_eq in Er as ->. right. split; [|done].
      destruct s' as [|c' s'']; [|destruct (Ascii.eqb c' LF)];
        injection Hd as <- <-; simpl; lia. }
    destruct (Ascii.eqb c LF) eqn:El.
    { apply Ascii.eqb_eq in El as ->. right. split; [|done].
      injection Hd as <- <-. simpl. lia. }
    injection Hd as <- <-. by left. }
  assert (∀ rest, String.length rest < String.length (String c s') →
            Ascii.eqb c DQUOTE && noQuote s' = false →
            0 + (String.length (String c s') - String.length rest) = 0
            ↔ nonEmpty (String c s') = false
              ∨ startsUnclosed (String c s') = true) as Hmoved.
  { intros rest Hlt Hno. cbn [nonEmpty startsUnclosed]. rewrite Hno.
    split; [lia|]. by intros [?|?]. }
  destruct Hcase as [(-> & -> & Ed)|[Hlt Eq]].
  - destruct (Ascii.eqb c DQUOTE) eqn:Eq.
    + destruct (matchQuoted s') as [[captured rest]|] eqn:Hq.
      * intros [= <-]. cbn [endIndex]. apply Hmoved.
        -- apply matchQuoted_length in Hq. simpl. lia.
        -- cbn [andb].
           destruct (noQuote s') eqn:Hn; [|done].
           apply matchQuoted_noQuote in Hn. congruence.
      * cbn [matchUnquoted]. unfold unquotedChar. rewrite Eq.
        cbn [negb andb]. intros [= <-]. cbn [endIndex nonEmpty startsUnclosed].
        rewrite Eq. apply matchQuoted_noQuote in Hq. rewrite Hq.
        split; [by right|]. intros _. lia.
    + destruct (matchUnquoted delimiter (String c s')) as [value rest] eqn:Hu.
      intros [= <-]. cbn [endIndex]. apply Hmoved; [|done].
      cbn [matchUnquoted] in Hu.
      destruct (unquotedChar delimiter c) eqn:Hc.
      * destruct (matchUnquoted delimiter s') as [value' rest'] eqn:Hu'.
        injection Hu as <- <-. apply matchUnquoted_length in Hu'.
        simpl. lia.
      * unfold matchDelimiter in Hd. cbn [Nat.eqb] in Hd. rewrite Ed in Hd.
        unfold unquotedChar in Hc. rewrite Eq, Ed in Hc. cbn [negb andb] in Hc.
        destruct (Ascii.eqb c CR) eqn:Er.
        { by destruct s' as [|c' s'']; [|destruct (Ascii.eqb c' LF)]. }
        destruct (Ascii.eqb c LF) eqn:El; done.
  - assert (∀ rest, String.length rest ≤ String.length s1 →
              0 + (String.length (String c s') - String.length rest) = 0
              ↔ nonEmpty (String c s') = false
                ∨ startsUnclosed (String c s') = true) as Hany.
    { intros rest Hle. apply Hmoved; [lia|]. by rewrite Eq. }
    destruct (match s1 with
              | String c0 s2 =>
                  if Ascii.eqb c0 DQUOTE then matchQuoted s2 else None
              | EmptyString => None
              end) as [[captured rest]|] eqn:Hq.
    + intros [= <-]. cbn [endIndex]. apply Hany.
      destruct s1 as [|c0 s2]; [done|].
      destruct (Ascii.eqb c0 DQUOTE); [|done].
      apply matchQuoted_length in Hq. simpl. lia.
    + destruct (matchUnquoted delimiter s1) as [value rest] eqn:Hu.
      intros [= <-]. cbn [endIndex]. apply Hany.
      by apply matchUnquoted_length in Hu.
Qed.

Lemma exec_start (delimiter : ascii) (s : string) :
  exec delimiter s 0 = matchAt delimiter 0 s
  ∨ matchAt delimiter 0 s = None.
Proof.
  unfold exec. cbn [str_drop Nat.ltb Nat.leb].
  destruct (matchAt delimiter 0 s) eqn:E; [|by right].
  left. destruct s; cbn [search]; by rewrite E.
Qed.

(** The tokenizer returns on the texts that are neither empty nor start
    with a quote that is never closed, and on no other text. *)
Lemma csvToArray_readable (delimiter : ascii) (s : string) :
  DelimiterOK delimiter →
  (nonEmpty s = true → startsUnclosed s = false →
   ∃ rows, ∀ fuel, String.length s + 2 ≤ fuel →
                   csvToArray fuel s delimiter = Some rows)
  ∧ (nonEmpty s = false ∨ startsUnclosed s = true →
     ∀ fuel, csvToArray fuel s delimiter = None).
Proof.
  intros (_ & HdQ & HdCR & HdLF).
  destruct (matchAt_start delimiter s HdCR HdLF) as (m & Hm & _).
  assert (exec delimiter s 0 = Some m) as Hexec.
  { destruct (exec_start delimiter s); congruence. }
  pose proof (matchAt_start_empty delimiter s m HdQ Hm) as Hempty.
  split.
  - intros Hne Hclosed.
    assert (endIndex m ≠ 0) as Hend.
    { intros [?|?]%Hempty; congruence. }
    destruct (exec_endIndex _ _ _ _ Hexec) as [[_ Hle] _].
    destruct (csvToArrayLoop_returns delimiter s (String.length s + 1)
                (endIndex m) (addMatch delimiter m [[]])) as [rows Hrows];
      [lia..|].
    exists rows. intros fuel Hfuel. unfold csvToArray.
    replace fuel
      with (S (String.length s + 1 + (fuel - (String.length s + 2))))
      by lia.
    cbn [csvToArrayLoop]. by rewrite Hexec.
  - intros Hbad%Hempty fuel. unfold csvToArray.
    by apply (csvToArrayLoop_stuck _ _ _ _ Hexec).
Qed.

(** For a literal delimiter that is neither the quote nor a line break
    character, the tokenizer returns exactly on the texts that are not
    empty and do not start with a quote that is never closed, and then
    within as many iterations as the text has characters, plus two; on the
    empty text and on a text that starts with a quote and has no other
    quote it returns for no number of iterations. *)
Theorem csvToArray_returns_exactly (str : string) (delimiter : ascii) :
  DelimiterOK delimiter →
  ((∃ fuel rows, csvToArray fuel str delimiter = Some rows)
   ↔ nonEmpty str = true ∧ startsUnclosed str = false)
  ∧ (nonEmpty str = true → startsUnclosed str = false →
     ∃ rows, ∀ fuel, String.length str + 2 ≤ fuel →
                     csvToArray fuel str delimiter = Some rows).
Proof.
  intros Hd. destruct (csvToArray_readable delimiter str Hd) as [Hret Hstuck].
  split; [|done]. split.
  - intros (fuel & rows & Hrows).
    destruct (nonEmpty str) eqn:Hne.
    2: { rewrite Hstuck in Hrows; [done|by left]. }
    destruct (startsUnclosed str) eqn:Hcl; [|done].
    rewrite Hstuck in Hrows; [done|by right].
  - intros [Hne Hcl]. destruct (Hret Hne Hcl) as [rows Hrows].
    exists (String.length str + 2), rows. by apply Hrows.
Qed.

Lemma csvToArray_returns_exactly_witness :
  ((∃ fuel rows, csvToArray fuel (js "'a''b',c") "," = Some rows)
   ↔ nonEmpty (js "'a''b',c") = true
     ∧ startsUnclosed (js "'a''b',c") = false)
  ∧ (nonEmpty (js "'a''b',c") = true →
     startsUnclosed (js "'a''b',c") = false →
     ∃ rows, ∀ fuel, String.length (js "'a''b',c") + 2 ≤ fuel →
                     csvToArray fuel (js "'a''b',c") "," = Some rows).
Proof.
  apply (csvToArray_returns_exactly (js "'a''b',c") ",").
  by split_and!.
Defined.

Lemma removeFinalLineBreak_start (s : string) :
  startsWithLineBreak s = false →
  startsWithLineBreak (removeFinalLineBreak s) = false.
Proof.
  destruct s as [|c s]; [done|]. cbn [startsWithLineBreak removeFinalLineBreak].
  intros Hc. destruct s; [by rewrite Hc|done].
Qed.

Lemma preprocess_not_line_break (csvStr : string) :
  startsWithLineBreak (preprocess csvStr) = false.
Proof.
  assert (startsWithLineBreak
            (String.concat (String LF EmptyString) (nonEmptyLines csvStr)
             +:+ (if endsWithLineBreak csvStr && negb (lineBreaksOnly csvStr)
                  then String LF EmptyString else EmptyString)) = false)
    as Hstart.
  { rewrite startsWithLineBreak_app.
    pose proof (concat_nonEmptyLines_start csvStr) as HJ.
    destruct (nonEmpty (String.concat _ (nonEmptyLines csvStr))) eqn:Hne;
      [done|].
    assert (nonEmptyLines csvStr = []) as Hnil.
    { destruct (nonEmptyLines csvStr) as [|x ls] eqn:E; [done|].
      assert (x ∈ nonEmptyLines csvStr) as [Hx _]%list_elem_of_filter
        by (rewrite E; left).
      destruct x as [|c x]; [done|]. by destruct ls. }
    apply nonEmptyLines_nil in Hnil. rewrite Hnil.
    by rewrite andb_false_r. }
  unfold preprocess. rewrite (collapseLineBreaks_lines csvStr false).
  cbn [negb andb].
  destruct (startsWithLineBreak csvStr); [done|].
  change (EmptyString +:+ ?x) with x.
  destruct (String.concat _ _ +:+ _) as [|c t] eqn:E; [done|].
  unfold stripLineBreak. cbn [startsWithLineBreak] in Hstart.
  rewrite Hstart. by apply removeFinalLineBreak_start.
Qed.

Lemma firstLineOf_length (s : string) :
  String.length (firstLineOf s) ≤ String.length s.
Proof.
  induction s as [|c s IH]; [done|]. cbn [firstLineOf].
  destruct (Ascii.eqb c LF); simpl; lia.
Qed.

Lemma firstLineOf_noQuote (s : string) :
  noQuote s = true → noQuote (firstLineOf s) = true.
Proof.
  induction s as [|c s IH]; [done|]. cbn [noQuote firstLineOf].
  intros [Hc Hs]%andb_true_iff.
  destruct (Ascii.eqb c LF); [done|]. cbn [noQuote]. by rewrite Hc, IH.
Qed.

Lemma firstLineOf_startsUnclosed (s : string) :
  startsUnclosed s = true → startsUnclosed (firstLineOf s) = true.
Proof.
  destruct s as [|c s]; [done|]. cbn [startsUnclosed firstLineOf].
  intros [Hc Hs]%andb_true_iff. apply Ascii.eqb_eq in Hc as ->.
  change (Ascii.eqb DQUOTE LF) with false. cbn [startsUnclosed].
  by rewrite Ascii.eqb_refl, firstLineOf_noQuote.
Qed.

(** The texts on which [fromCSV] returns or throws, for a literal
    delimiter, and those on which it does neither however many iterations
    are allowed.  With a column list it ends exactly when the text, after
    the blank lines are removed, is not empty and does not start with a
    quote that is never closed.  Without a column list it ends on the
    empty text (with the TypeError) and otherwise exactly when the first
    line does not start with a quote that is not closed on that line: a
    quoted first cell with a line feed in it is read with a column list
    but not without one.  As many iterations as the text has characters,
    plus two, are enough. *)
Theorem fromCSV_returns_iff (csvStr : string)
    (columns : option (list ColumnInput)) (options : Options) :
  DelimiterOK (delimiterOf options) →
  let text := preprocess csvStr in
  let ends :=
    match columns with
    | Some _ => nonEmpty text && negb (startsUnclosed text)
    | None => negb (nonEmpty text)
              || negb (startsUnclosed (firstLineOf text))
    end in
  ((∃ fuel out, fromCSV fuel csvStr columns options = Some out)
   ↔ ends = true)
  ∧ (ends = true →
     ∀ fuel, String.length text + 2 ≤ fuel →
             is_Some (fromCSV fuel csvStr columns options)).
Proof.
  intros Hd text ends.
  set (d := delimiterOf options) in *.
  destruct (csvToArray_readable d text Hd) as [Hret Hstuck].
  destruct (csvToArray_readable d (firstLineOf text) Hd)
    as [Hret1 Hstuck1].
  assert (ends = true →
          ∀ fuel, String.length text + 2 ≤ fuel →
                  is_Some (fromCSV fuel csvStr columns options)) as Hends.
  { intros Hends fuel Hfuel. unfold fromCSV. fold text. fold d.
    destruct columns as [columns|].
    - unfold ends in Hends. apply andb_true_iff in Hends as [Hne Hcl].
      apply negb_true_iff in Hcl.
      destruct (Hret Hne Hcl) as [rows Hrows]. by rewrite (Hrows fuel Hfuel).
    - destruct (nonEmpty text) eqn:Hne; [|done].
      unfold ends in Hends. rewrite ?Hne in Hends. cbn [negb orb] in Hends.
      apply negb_true_iff in Hends.
      assert (nonEmpty (firstLineOf text) = true) as Hne1.
      { pose proof (preprocess_not_line_break csvStr) as Hstart.
        fold text in Hstart. destruct text as [|c t]; [done|].
        cbn [startsWithLineBreak] in Hstart. cbn [firstLineOf].
        by rewrite Hstart. }
      destruct (Hret1 Hne1 Hends) as [rows1 Hrows1].
      unfold detectColumnsFromCSV. fold d. rewrite Hrows1.
      2: { pose proof (firstLineOf_length text). lia. }
      cbn [fmap option_fmap option_map].
      assert (startsUnclosed text = false) as Hcl.
      { destruct (startsUnclosed text) eqn:E; [|done].
        apply firstLineOf_startsUnclosed in E. congruence. }
      destruct (Hret eq_refl Hcl) as [rows Hrows].
      by rewrite (Hrows fuel Hfuel). }
  split; [|done]. split.
  - intros (fuel & out & Hout). unfold fromCSV in Hout.
    fold text in Hout. fold d in Hout. unfold ends.
    destruct columns as [columns|].
    + destruct (nonEmpty text) eqn:Hne.
      2: { rewrite Hstuck in Hout; [done|by left]. }
      destruct (startsUnclosed text) eqn:Hcl; [|done].
      rewrite Hstuck in Hout; [done|by right].
    + destruct (nonEmpty text) eqn:Hne; [|done]. cbn [negb orb].
      destruct (startsUnclosed (firstLineOf text)) eqn:Hcl; [|done].
      unfold detectColumnsFromCSV in Hout. fold d in Hout.
      rewrite Hstuck1 in Hout; [done|by right].
  - intros Htrue.
    exists (String.length text + 2).
    destruct (Hends Htrue (String.length text + 2)) as [out Hout]; [lia|].
    by exists out.
Qed.

Lemma fromCSV_returns_iff_witness :
  ((∃ fuel out,
      fromCSV fuel (js "'a$b',c") (Some [ColumnName "x"]) noOptions
      = Some out)
   ↔ true = true)
  ∧ (true = true →
     ∀ fuel, String.length (preprocess (js "'a$b',c")) + 2 ≤ fuel →
             is_Some (fromCSV fuel (js "'a$b',c") (Some [ColumnName "x"])
                        noOptions)).
Proof.
  apply (fromCSV_returns_iff (js "'a$b',c") (Some [ColumnName "x"])
           noOptions).
  by split_and!.
Defined.
